(** * Validation core of the Chain protocol: Mux, Nonce and CHECKOUTPUT

    A shallow embedding of

    - [protocol/bc/mux.go]        ([Mux.CheckValid]),
    - [protocol/bc/nonce.go]      ([Nonce.CheckValid]),
    - [protocol/bc/validation.go] (error values, [validationState],
                                   [newTxVMContext]),
    - the [vm] introspection file ([opCheckOutput]),

    followed by the properties of these functions.

    Conventions.  Go integers are carried as [Z]; conversions between
    integer types are written out ([int64], [uint64]).  A Go [error] result
    is an [outcome]: [Ok] for [nil], [Fail e] for a non-nil error, [Panic]
    for a run-time panic (nil pointer dereference).  Code that works through
    a pointer runs in a state monad over the pointed-to store. *)

From stdpp Require Import gmap list fin_maps strings.
From Stdlib Require Import ZArith Lia.
From Stdlib.Strings Require Import Byte.

Local Open Scope Z_scope.

(** ** Bytes and fixed-size byte arrays *)

Global Instance byte_eq_dec : EqDecision byte.
Proof. intros x y. destruct (Byte.byte_eq_dec x y); [left|right]; done. Defined.

Global Program Instance byte_countable : Countable byte :=
  inj_countable' Byte.to_N (λ n, default x00 (Byte.of_N n)) _.
Next Obligation. intros b. simpl. by rewrite Byte.of_to_N. Qed.

(** [type Hash [32]byte]: the bytes together with the evidence that there
    are exactly 32 of them. *)
Record Hash := mkHash {
  hash_bytes : list byte;
  hash_len : Is_true (Nat.eqb (length hash_bytes) 32)
}.

Lemma Hash_eq (a b : Hash) : hash_bytes a = hash_bytes b → a = b.
Proof.
  destruct a as [x Hx], b as [y Hy]; simpl; intros ->.
  f_equal. apply proof_irrel.
Qed.

Global Instance Hash_eq_dec : EqDecision Hash.
Proof.
  intros a b. destruct (decide (hash_bytes a = hash_bytes b)) as [E|N].
  - left. by apply Hash_eq.
  - right. intros ->. by apply N.
Defined.

Definition Hash_of_list (l : list byte) : option Hash :=
  match Is_true_dec (Nat.eqb (length l) 32) with
  | left H => Some (mkHash l H)
  | right _ => None
  end.

Global Program Instance Hash_countable : Countable Hash :=
  inj_countable hash_bytes Hash_of_list _.
Next Obligation.
  intros [l H]. unfold Hash_of_list; simpl.
  destruct (Is_true_dec _) as [H'|N]; [|done]. f_equal. by apply Hash_eq.
Qed.

(** The array whose 32 bytes all equal [b]; [Hash{}] is [Hash_fill x00]. *)
Definition Hash_fill (b : byte) : Hash := mkHash (replicate 32 b) I.
Definition Hash_zero : Hash := Hash_fill x00.

(** ** Machine integers *)

Definition MaxInt64 : Z := 2 ^ 63 - 1.
Definition MinInt64 : Z := - 2 ^ 63.
Definition MaxUint32 : Z := 2 ^ 32 - 1.
Definition MaxUint64 : Z := 2 ^ 64 - 1.

(** The Go conversions [int64(x)] and [uint64(x)]: the value modulo 2^64,
    read as a signed, respectively unsigned, number. *)
Definition int64 (x : Z) : Z := (x + 2 ^ 63) mod 2 ^ 64 - 2 ^ 63.
Definition uint64 (x : Z) : Z := x mod 2 ^ 64.
Definition uint32 (x : Z) : Z := x mod 2 ^ 32.

Definition is_int64 (x : Z) : Prop := MinInt64 ≤ x ≤ MaxInt64.

(** ** Errors *)

(** An argument of a format string ([%d], [%x]). *)
Inductive fmtArg :=
| ArgInt (n : Z)
| ArgBytes (b : list byte).

(** Error values as built by [errors.New] and by the wrappers of
    [chain/errors].  The formatted variants keep the format string and its
    arguments. *)
Inductive error :=
| New (msg : string)
| Wrap (err : error) (msg : string)
| Wrapf (err : error) (format : string) (args : list fmtArg)
| WithDetailf (err : error) (format : string) (args : list fmtArg).

Inductive outcome (A : Type) : Type :=
| Ok (a : A)
| Fail (e : error)
| Panic.
Arguments Ok {A} a.
Arguments Fail {A} e.
Arguments Panic {A}.

(** ** State monad with failure *)

Definition St (S A : Type) : Type := S → S * outcome A.

Global Instance St_ret {S} : MRet (St S) := λ A a s, (s, Ok a).
Global Instance St_bind {S} : MBind (St S) := λ A B f m s,
  match m s with
  | (s', Ok a) => f a s'
  | (s', Fail e) => (s', Fail e)
  | (s', Panic) => (s', Panic)
  end.

Definition fail {S A} (e : error) : St S A := λ s, (s, Fail e).
Definition panic {S A} : St S A := λ s, (s, Panic).
Definition get {S} : St S S := λ s, (s, Ok s).

(** Lifts the result of a computation that touches no state. *)
Definition liftE {S A} (r : error + A) : St S A :=
  match r with
  | inl e => fail e
  | inr a => mret a
  end.

(** Running a bind, by the outcome of its first part. *)
Lemma bind_Ok {S A B} (m : St S A) (f : A → St S B) s s' a :
  m s = (s', Ok a) → (m ≫= f) s = f a s'.
Proof. intros H. unfold mbind, St_bind. by rewrite H. Qed.

Lemma bind_Fail {S A B} (m : St S A) (f : A → St S B) s s' e :
  m s = (s', Fail e) → (m ≫= f) s = (s', Fail e).
Proof. intros H. unfold mbind, St_bind. by rewrite H. Qed.

Lemma bind_Panic {S A B} (m : St S A) (f : A → St S B) s s' :
  m s = (s', Panic) → (m ≫= f) s = (s', Panic).
Proof. intros H. unfold mbind, St_bind. by rewrite H. Qed.

(** ** Package [chain/math/checked] *)

Module checked.

(** Modelled from the spec: [checked.AddInt64] and [checked.SubInt64] are
    not part of the sources; the specification describes them as signed
    64-bit, overflow-checked addition and subtraction.  The second component
    is [false] exactly when the exact result leaves the signed 64-bit
    range. *)
Definition AddInt64 (a b : Z) : Z * bool :=
  if bool_decide (MinInt64 ≤ a + b ≤ MaxInt64) then (a + b, true) else (0, false).

Definition SubInt64 (a b : Z) : Z * bool :=
  if bool_decide (MinInt64 ≤ a - b ≤ MaxInt64) then (a - b, true) else (0, false).

End checked.

(** * Package [bc] *)

Module bc.

Abbreviation AssetID := Hash.

(** ** Entry data read by the validation code *)

(** Modelled from the spec: the declarations of [Program], [AssetAmount],
    [valueSource], [ValueDestination], [TimeRange] and [TxEntries] are
    outside the sources.  The records below carry the fields that the data
    model of the specification lists and that [CheckValid] reads; a [uint64]
    field is a [Z]. *)

Module Program.
Record t := mk { VMVersion : Z; Code : list byte }.
End Program.

Module AssetAmount.
Record t := mk { AssetID : bc.AssetID; Amount : Z }.
End AssetAmount.

Module valueSource.
Record t := mk { Ref : Hash; Value : AssetAmount.t; Position : Z }.
End valueSource.

Module ValueDestination.
Record t := mk { Ref : Hash; Value : AssetAmount.t; Position : Z }.
End ValueDestination.

Module TimeRange.
Module Body.
Record t := mk { MinTimeMS : Z; MaxTimeMS : Z }.
End Body.
Record t := mk { body : Body.t }.
End TimeRange.

Module TxEntries.
Module Body.
Record t := mk { Version : Z }.
End Body.
Record t := mk { body : Body.t }.
End TxEntries.

(** [type Mux struct { body struct {...}; witness struct {...} }] *)
Module Mux.
Module Body.
Record t := mk {
  Sources : list valueSource.t;
  Program : Program.t;
  ExtHash : Hash
}.
End Body.
Module Witness.
Record t := mk {
  Destinations : list ValueDestination.t;
  Arguments : list (list byte)
}.
End Witness.
Record t := mk { body : Body.t; witness : Witness.t }.
End Mux.

(** [type Nonce struct]: [TimeRange] is the pointer to the manifested time
    range entry ([None] for nil).  The resolved [Anchored] entry is not read
    by [CheckValid] and is left out. *)
Module Nonce.
Module Body.
Record t := mk {
  Program : Program.t;
  TimeRange : Hash;
  ExtHash : Hash
}.
End Body.
Module Witness.
Record t := mk {
  Arguments : list (list byte);
  Anchored : Hash
}.
End Witness.
Record t := mk {
  body : Body.t;
  witness : Witness.t;
  TimeRange : option TimeRange.t
}.
End Nonce.

(** The entries that implement the [Entry] interface here. *)
Inductive Entry :=
| EntryMux (m : Mux.t)
| EntryNonce (n : Nonce.t).

(** [func NewMux(sources []valueSource, program Program) *Mux] *)
Definition NewMux (sources : list valueSource.t) (program : Program.t) : Mux.t :=
  Mux.mk (Mux.Body.mk sources program Hash_zero) (Mux.Witness.mk [] []).

(** ** [validation.go] *)

Definition errPosition := New "invalid source or destination position".
Definition errEntryType := New "invalid entry type".
Definition errBadTimeRange := New "bad time range".
Definition errEmptyResults := New "transaction has no results".
Definition errMismatchedAssetID := New "mismatched asset id".
Definition errMismatchedBlock := New "mismatched block".
Definition errMismatchedMerkleRoot := New "mismatched merkle root".
Definition errMismatchedReference := New "mismatched reference".
Definition errMismatchedValue := New "mismatched value".
Definition errMisorderedBlockHeight := New "misordered block height".
Definition errMisorderedBlockTime := New "misordered block time".
Definition errNoPrevBlock := New "no previous block".
Definition errNoSource := New "no source for value".
Definition errNonemptyExtHash := New "non-empty extension hash".
Definition errOverflow := New "arithmetic overflow/underflow".
Definition errTxVersion := New "invalid transaction version".
Definition errUnbalanced := New "unbalanced".
Definition errUntimelyTransaction := New "block timestamp outside transaction time range".
Definition errVersionRegression := New "version regression".
Definition errWrongBlockchain := New "wrong blockchain".
Definition errZeroTime := New "timerange has one or two bounds set to zero".

(** The block header entry behind [prevBlockHeader]; none of its fields is
    read here. *)
Inductive BlockHeaderEntry := mkBlockHeaderEntry.

(** [type validationState struct].  Pointer fields hold [None] for nil. *)
Record validationState := mkValidationState {
  blockVersion : Z;
  initialBlockID : Hash;
  currentTx : option TxEntries.t;
  currentEntryID : Hash;
  sourcePosition : Z;
  destPosition : Z;
  timestampMS : Z;
  prevBlockHeader : option BlockHeaderEntry;
  prevBlockHeaderID : Hash;
  blockTxs : list TxEntries.t
}.

(** The assignments [s.sourcePosition = v] and [s.destPosition = v]. *)
Definition set_sourcePosition (v : Z) (s : validationState) : validationState :=
  mkValidationState (blockVersion s) (initialBlockID s) (currentTx s)
    (currentEntryID s) v (destPosition s) (timestampMS s)
    (prevBlockHeader s) (prevBlockHeaderID s) (blockTxs s).

Definition set_destPosition (v : Z) (s : validationState) : validationState :=
  mkValidationState (blockVersion s) (initialBlockID s) (currentTx s)
    (currentEntryID s) (sourcePosition s) v (timestampMS s)
    (prevBlockHeader s) (prevBlockHeaderID s) (blockTxs s).

(** [type txVMContext struct {}] and its constructor, which ignores its
    arguments. *)
Inductive txVMContext := mk_txVMContext.

Definition newTxVMContext (txEntries : option TxEntries.t) (entry : Entry)
    (prog : Program.t) (args : list (list byte)) : txVMContext :=
  mk_txVMContext.

(** ** The store of validation states

    [CheckValid] receives a [*validationState].  Validation states live in a
    store addressed by locations; a location outside the store stands for a
    nil (or dangling) pointer, whose dereference panics.  Taking the address
    of a fresh local variable allocates a new cell. *)

Definition loc := nat.
Abbreviation heap := (list validationState).

Definition load (p : loc) : St heap validationState := λ h,
  match h !! p with
  | Some s => (h, Ok s)
  | None => (h, Panic)
  end.

Definition store (p : loc) (s : validationState) : St heap unit := λ h,
  match h !! p with
  | Some _ => (<[p := s]> h, Ok tt)
  | None => (h, Panic)
  end.

Definition alloc (s : validationState) : St heap loc := λ h,
  (h ++ [s], Ok (length h)).

(** A call [x.CheckValid(p)] of a callee [f] that sees the validation state
    only through the pointer [p]: it reads the cell and may write it. *)
Definition call {A} (f : A → validationState → validationState * option error)
    (x : A) (p : loc) : St heap (option error) :=
  s ← load p;
  let '(s', err) := f x s in
  store p s';; mret err.

Section Validation.

(** [vm.Verify], and the [CheckValid] methods of value sources and value
    destinations, are defined outside the sources. *)
Variable Verify : txVMContext → option error.
Variable valueSource_CheckValid :
  valueSource.t → validationState → validationState * option error.
Variable ValueDestination_CheckValid :
  ValueDestination.t → validationState → validationState * option error.

(** The order in which [range] visits a Go map is unspecified: [rangeMap]
    is any enumeration of the entries of the map. *)
Variable rangeMap : gmap AssetID Z → list (AssetID * Z).
Hypothesis rangeMap_perm : ∀ m, rangeMap m ≡ₚ map_to_list m.

(** *** [Mux.CheckValid] *)

(** Lines 48-55: the loop over [mux.body.Sources], from index [i] on. *)
Fixpoint checkSources (state : loc) (i : nat) (srcs : list valueSource.t)
    : St heap unit :=
  match srcs with
  | [] => mret tt
  | src :: rest =>
      s ← load state;
      srcState ← alloc (set_sourcePosition (uint64 (Z.of_nat i)) s);
      err ← call valueSource_CheckValid src srcState;
      match err with
      | Some err => fail (Wrapf err "checking mux source %d" [ArgInt (Z.of_nat i)])
      | None => checkSources state (S i) rest
      end
  end.

(** Lines 57-64: the loop over [mux.witness.Destinations]. *)
Fixpoint checkDestinations (state : loc) (i : nat)
    (dests : list ValueDestination.t) : St heap unit :=
  match dests with
  | [] => mret tt
  | dest :: rest =>
      s ← load state;
      destState ← alloc (set_destPosition (uint64 (Z.of_nat i)) s);
      err ← call ValueDestination_CheckValid dest destState;
      match err with
      | Some err => fail (Wrapf err "checking mux destination %d" [ArgInt (Z.of_nat i)])
      | None => checkDestinations state (S i) rest
      end
  end.

(** [parity[k]] on a Go map: the zero value when [k] is absent. *)
Definition index (parity : gmap AssetID Z) (k : AssetID) : Z :=
  default 0 (parity !! k).

(** Lines 67-73: adding the sources to [parity]. *)
Fixpoint addSources (parity : gmap AssetID Z) (i : nat)
    (srcs : list valueSource.t) : error + gmap AssetID Z :=
  match srcs with
  | [] => inr parity
  | src :: rest =>
      let v := valueSource.Value src in
      let '(sum, ok) :=
        checked.AddInt64 (index parity (AssetAmount.AssetID v))
                         (int64 (AssetAmount.Amount v)) in
      if negb ok then
        inl (WithDetailf errOverflow
               "adding %d units of asset %x from mux source %d to total %d overflows int64"
               [ArgInt (AssetAmount.Amount v);
                ArgBytes (hash_bytes (AssetAmount.AssetID v));
                ArgInt (Z.of_nat i);
                ArgInt (index parity (AssetAmount.AssetID v))])
      else addSources (<[AssetAmount.AssetID v := sum]> parity) (S i) rest
  end.

(** Lines 75-86: subtracting the destinations from [parity]. *)
Fixpoint subDestinations (parity : gmap AssetID Z) (i : nat)
    (dests : list ValueDestination.t) : error + gmap AssetID Z :=
  match dests with
  | [] => inr parity
  | dest :: rest =>
      let v := ValueDestination.Value dest in
      match parity !! AssetAmount.AssetID v with
      | None =>
          inl (WithDetailf errNoSource
                 "mux destination %d, asset %x, has no corresponding source"
                 [ArgInt (Z.of_nat i);
                  ArgBytes (hash_bytes (AssetAmount.AssetID v))])
      | Some sum =>
          let '(diff, ok) := checked.SubInt64 sum (int64 (AssetAmount.Amount v)) in
          if negb ok then
            inl (WithDetailf errOverflow
                   "subtracting %d units of asset %x from mux destination %d from total %d underflows int64"
                   [ArgInt (AssetAmount.Amount v);
                    ArgBytes (hash_bytes (AssetAmount.AssetID v));
                    ArgInt (Z.of_nat i);
                    ArgInt sum])
          else subDestinations (<[AssetAmount.AssetID v := diff]> parity) (S i) rest
      end
  end.

(** Lines 88-92: the loop over the entries of [parity], in the order
    [entries] in which [range] produces them. *)
Fixpoint checkResiduals (entries : list (AssetID * Z)) : error + unit :=
  match entries with
  | [] => inr tt
  | (assetID, amount) :: rest =>
      if bool_decide (amount ≠ 0) then
        inl (WithDetailf errUnbalanced
               "asset %x sources - destinations = %d (should be 0)"
               [ArgBytes (hash_bytes assetID); ArgInt amount])
      else checkResiduals rest
  end.

(** Lines 94-96 of [mux.go] and 58-60 of [nonce.go]: the extension hash
    rule for version 1 transactions.  [state.currentTx] is dereferenced
    first. *)
Definition checkExtHash (state : loc) (ExtHash : Hash) : St heap unit :=
  s ← load state;
  match currentTx s with
  | None => panic
  | Some tx =>
      if bool_decide (TxEntries.Body.Version (TxEntries.body tx) = 1)
         && bool_decide (ExtHash ≠ Hash_zero)
      then fail errNonemptyExtHash
      else mret tt
  end.

(** [func (mux *Mux) CheckValid(state *validationState) error] *)
Definition Mux_CheckValid (mux : Mux.t) (state : loc) : St heap unit :=
  s ← load state;
  match Verify (newTxVMContext (currentTx s) (EntryMux mux)
                  (Mux.Body.Program (Mux.body mux))
                  (Mux.Witness.Arguments (Mux.witness mux))) with
  | Some err => fail (Wrap err "checking mux program")
  | None =>
      checkSources state 0 (Mux.Body.Sources (Mux.body mux));;
      checkDestinations state 0 (Mux.Witness.Destinations (Mux.witness mux));;
      parity ← liftE (addSources ∅ 0 (Mux.Body.Sources (Mux.body mux)));
      parity ← liftE (subDestinations parity 0
                        (Mux.Witness.Destinations (Mux.witness mux)));
      liftE (checkResiduals (rangeMap parity));;
      checkExtHash state (Mux.Body.ExtHash (Mux.body mux))
  end.

(** *** [Nonce.CheckValid] *)

(** [func (n *Nonce) CheckValid(state *validationState) error] *)
Definition Nonce_CheckValid (n : Nonce.t) (state : loc) : St heap unit :=
  s ← load state;
  match Verify (newTxVMContext (currentTx s) (EntryNonce n)
                  (Nonce.Body.Program (Nonce.body n))
                  (Nonce.Witness.Arguments (Nonce.witness n))) with
  | Some err => fail (Wrap err "checking nonce program")
  | None =>
      match Nonce.TimeRange n with
      | None => panic
      | Some tr =>
          if bool_decide (TimeRange.Body.MinTimeMS (TimeRange.body tr) = 0)
             || bool_decide (TimeRange.Body.MaxTimeMS (TimeRange.body tr) = 0)
          then fail errZeroTime
          else checkExtHash state (Nonce.Body.ExtHash (Nonce.body n))
      end
  end.

(** ** The same checks on the value of the caller's state

    [descend f set format s i xs] is the outcome of calling [f] on the
    elements of [xs] in turn, the element at offset [k] against the caller's
    state [s] with its position set to [i + k]: the first error, wrapped with
    its index. *)
Fixpoint descend {A} (f : A → validationState → validationState * option error)
    (set : Z → validationState → validationState) (format : string)
    (s : validationState) (i : nat) (xs : list A) : outcome unit :=
  match xs with
  | [] => Ok tt
  | x :: rest =>
      match (f x (set (uint64 (Z.of_nat i)) s)).2 with
      | Some err => Fail (Wrapf err format [ArgInt (Z.of_nat i)])
      | None => descend f set format s (S i) rest
      end
  end.

Definition extHashVerdict (s : validationState) (ExtHash : Hash) : outcome unit :=
  match currentTx s with
  | None => Panic
  | Some tx =>
      if bool_decide (TxEntries.Body.Version (TxEntries.body tx) = 1)
         && bool_decide (ExtHash ≠ Hash_zero)
      then Fail errNonemptyExtHash
      else Ok tt
  end.

(** What the three loops over [parity] decide, given the continuation
    verdict [k]. *)
Definition parityVerdict (mux : Mux.t) (k : outcome unit) : outcome unit :=
  match addSources ∅ 0 (Mux.Body.Sources (Mux.body mux)) with
  | inl e => Fail e
  | inr p0 =>
      match subDestinations p0 0 (Mux.Witness.Destinations (Mux.witness mux)) with
      | inl e => Fail e
      | inr p =>
          match checkResiduals (rangeMap p) with
          | inl e => Fail e
          | inr _ => k
          end
      end
  end.

Definition Mux_verdict (s : validationState) (mux : Mux.t) : outcome unit :=
  match Verify (newTxVMContext (currentTx s) (EntryMux mux)
                  (Mux.Body.Program (Mux.body mux))
                  (Mux.Witness.Arguments (Mux.witness mux))) with
  | Some err => Fail (Wrap err "checking mux program")
  | None =>
      match descend valueSource_CheckValid set_sourcePosition
              "checking mux source %d" s 0 (Mux.Body.Sources (Mux.body mux)) with
      | Ok _ =>
          match descend ValueDestination_CheckValid set_destPosition
                  "checking mux destination %d" s 0
                  (Mux.Witness.Destinations (Mux.witness mux)) with
          | Ok _ => parityVerdict mux (extHashVerdict s (Mux.Body.ExtHash (Mux.body mux)))
          | o => o
          end
      | o => o
      end
  end.

Definition Nonce_verdict (s : validationState) (n : Nonce.t) : outcome unit :=
  match Verify (newTxVMContext (currentTx s) (EntryNonce n)
                  (Nonce.Body.Program (Nonce.body n))
                  (Nonce.Witness.Arguments (Nonce.witness n))) with
  | Some err => Fail (Wrap err "checking nonce program")
  | None =>
      match Nonce.TimeRange n with
      | None => Panic
      | Some tr =>
          if bool_decide (TimeRange.Body.MinTimeMS (TimeRange.body tr) = 0)
             || bool_decide (TimeRange.Body.MaxTimeMS (TimeRange.body tr) = 0)
          then Fail errZeroTime
          else extHashVerdict s (Nonce.Body.ExtHash (Nonce.body n))
      end
  end.

(** The preconditions "the program, the sources and the destinations
    validate". *)
Definition Mux_program_ok (s : validationState) (mux : Mux.t) : Prop :=
  Verify (newTxVMContext (currentTx s) (EntryMux mux)
            (Mux.Body.Program (Mux.body mux))
            (Mux.Witness.Arguments (Mux.witness mux))) = None.

Definition Mux_sources_ok (s : validationState) (mux : Mux.t) : Prop :=
  ∀ (i : nat) src, Mux.Body.Sources (Mux.body mux) !! i = Some src →
    (valueSource_CheckValid src (set_sourcePosition (uint64 (Z.of_nat i)) s)).2 = None.

Definition Mux_destinations_ok (s : validationState) (mux : Mux.t) : Prop :=
  ∀ (i : nat) dest, Mux.Witness.Destinations (Mux.witness mux) !! i = Some dest →
    (ValueDestination_CheckValid dest (set_destPosition (uint64 (Z.of_nat i)) s)).2 = None.

Definition Nonce_program_ok (s : validationState) (n : Nonce.t) : Prop :=
  Verify (newTxVMContext (currentTx s) (EntryNonce n)
            (Nonce.Body.Program (Nonce.body n))
            (Nonce.Witness.Arguments (Nonce.witness n))) = None.

(** The asset and the amount, as a signed 64-bit number, of a source and of
    a destination. *)
Definition srcAsset (src : valueSource.t) : AssetID :=
  AssetAmount.AssetID (valueSource.Value src).
Definition srcAmount (src : valueSource.t) : Z :=
  int64 (AssetAmount.Amount (valueSource.Value src)).
Definition destAsset (dest : ValueDestination.t) : AssetID :=
  AssetAmount.AssetID (ValueDestination.Value dest).
Definition destAmount (dest : ValueDestination.t) : Z :=
  int64 (AssetAmount.Amount (ValueDestination.Value dest)).

(** The sum of the amounts [amount x] over the elements of asset [a]. *)
Fixpoint total {A} (asset : A → AssetID) (amount : A → Z) (a : AssetID)
    (xs : list A) : Z :=
  match xs with
  | [] => 0
  | x :: rest =>
      (if decide (asset x = a) then amount x else 0) + total asset amount a rest
  end.

(** The accumulation loops complete and leave only zero residuals. *)
Definition Mux_balanced (mux : Mux.t) : Prop :=
  ∃ p0 p,
    addSources ∅ 0 (Mux.Body.Sources (Mux.body mux)) = inr p0 ∧
    subDestinations p0 0 (Mux.Witness.Destinations (Mux.witness mux)) = inr p ∧
    ∀ a v, p !! a = Some v → v = 0.

(** Validation states that agree on every field but [sourcePosition],
    respectively [destPosition]. *)
Definition same_but_sourcePosition (s s' : validationState) : Prop :=
  blockVersion s' = blockVersion s ∧ initialBlockID s' = initialBlockID s ∧
  currentTx s' = currentTx s ∧ currentEntryID s' = currentEntryID s ∧
  destPosition s' = destPosition s ∧ timestampMS s' = timestampMS s ∧
  prevBlockHeader s' = prevBlockHeader s ∧
  prevBlockHeaderID s' = prevBlockHeaderID s ∧ blockTxs s' = blockTxs s.

Definition same_but_destPosition (s s' : validationState) : Prop :=
  blockVersion s' = blockVersion s ∧ initialBlockID s' = initialBlockID s ∧
  currentTx s' = currentTx s ∧ currentEntryID s' = currentEntryID s ∧
  sourcePosition s' = sourcePosition s ∧ timestampMS s' = timestampMS s ∧
  prevBlockHeader s' = prevBlockHeader s ∧
  prevBlockHeaderID s' = prevBlockHeaderID s ∧ blockTxs s' = blockTxs s.

(** ** Running the monadic code *)

Lemma load_Some (h : heap) p s : h !! p = Some s → load p h = (h, Ok s).
Proof. intros H. unfold load. by rewrite H. Qed.

Lemma load_None (h : heap) p : h !! p = None → load p h = (h, Panic).
Proof. intros H. unfold load. by rewrite H. Qed.

(** A call through the address of a fresh local variable: the callee gets
    the value [s1] stored there, and only the new cell is written. *)
Lemma call_fresh {A} (f : A → validationState → validationState * option error)
    (x : A) (h : heap) (s1 : validationState) :
  (alloc s1 ≫= call f x) h = (h ++ [(f x s1).1], Ok (f x s1).2).
Proof.
  erewrite bind_Ok; [|reflexivity].
  unfold call. erewrite bind_Ok; [|apply load_Some, list_lookup_middle; done].
  destruct (f x s1) as [s' err]; simpl.
  unfold mbind, St_bind, store.
  rewrite list_lookup_middle; [|done].
  rewrite (insert_app_r_alt h [s1] (length h)); [|lia].
  by rewrite Nat.sub_diag.
Qed.

(** One iteration of each descent loop: the callee runs on a new cell that
    holds the caller's state with the position set, what the callee leaves
    there stays in that cell, and the loop goes on from the caller's
    state. *)
Lemma checkSources_step state s src rest i (h : heap) :
  h !! state = Some s →
  let r := valueSource_CheckValid src
             (set_sourcePosition (uint64 (Z.of_nat i)) s) in
  checkSources state i (src :: rest) h =
  match r.2 with
  | Some err =>
      (h ++ [r.1],
       Fail (Wrapf err "checking mux source %d" [ArgInt (Z.of_nat i)]))
  | None => checkSources state (S i) rest (h ++ [r.1])
  end.
Proof.
  intros Hs r. subst r. simpl.
  erewrite bind_Ok; [|by apply load_Some].
  pose proof (call_fresh valueSource_CheckValid src h
                (set_sourcePosition (uint64 (Z.of_nat i)) s)) as Hc.
  unfold mbind in Hc |- *. unfold St_bind at 1. unfold St_bind in Hc at 1.
  destruct (alloc _ h) as [h1 [p| |]] eqn:Ha; try discriminate Hc.
  unfold St_bind at 1. rewrite Hc.
  by destruct (valueSource_CheckValid src _) as [s' [err|]].
Qed.

Lemma checkDestinations_step state s dest rest i (h : heap) :
  h !! state = Some s →
  let r := ValueDestination_CheckValid dest
             (set_destPosition (uint64 (Z.of_nat i)) s) in
  checkDestinations state i (dest :: rest) h =
  match r.2 with
  | Some err =>
      (h ++ [r.1],
       Fail (Wrapf err "checking mux destination %d" [ArgInt (Z.of_nat i)]))
  | None => checkDestinations state (S i) rest (h ++ [r.1])
  end.
Proof.
  intros Hs r. subst r. simpl.
  erewrite bind_Ok; [|by apply load_Some].
  pose proof (call_fresh ValueDestination_CheckValid dest h
                (set_destPosition (uint64 (Z.of_nat i)) s)) as Hc.
  unfold mbind in Hc |- *. unfold St_bind at 1. unfold St_bind in Hc at 1.
  destruct (alloc _ h) as [h1 [p| |]] eqn:Ha; try discriminate Hc.
  unfold St_bind at 1. rewrite Hc.
  by destruct (ValueDestination_CheckValid dest _) as [s' [err|]].
Qed.

Lemma lookup_app_Some (h t : heap) p s : h !! p = Some s → (h ++ t) !! p = Some s.
Proof. intros H. rewrite lookup_app_l; [done|]. by eapply lookup_lt_Some. Qed.

Lemma checkSources_run state s srcs : ∀ i (h : heap),
  h !! state = Some s →
  ∃ t, checkSources state i srcs h =
       (h ++ t, descend valueSource_CheckValid set_sourcePosition
                  "checking mux source %d" s i srcs).
Proof.
  induction srcs as [|src rest IH]; intros i h Hs.
  - exists []. by rewrite app_nil_r.
  - rewrite (checkSources_step state s src rest i h Hs). simpl.
    destruct (valueSource_CheckValid src _) as [s' [err|]]; simpl.
    + by eexists.
    + destruct (IH (S i) (h ++ [s'])) as [t Ht]; [by apply lookup_app_Some|].
      exists (s' :: t). rewrite Ht. by rewrite <- app_assoc.
Qed.

Lemma checkDestinations_run state s dests : ∀ i (h : heap),
  h !! state = Some s →
  ∃ t, checkDestinations state i dests h =
       (h ++ t, descend ValueDestination_CheckValid set_destPosition
                  "checking mux destination %d" s i dests).
Proof.
  induction dests as [|dest rest IH]; intros i h Hs.
  - exists []. by rewrite app_nil_r.
  - rewrite (checkDestinations_step state s dest rest i h Hs). simpl.
    destruct (ValueDestination_CheckValid dest _) as [s' [err|]]; simpl.
    + by eexists.
    + destruct (IH (S i) (h ++ [s'])) as [t Ht]; [by apply lookup_app_Some|].
      exists (s' :: t). rewrite Ht. by rewrite <- app_assoc.
Qed.

Lemma checkExtHash_run state s E (h : heap) :
  h !! state = Some s → checkExtHash state E h = (h, extHashVerdict s E).
Proof.
  intros Hs. unfold checkExtHash, extHashVerdict.
  erewrite bind_Ok; [|by apply load_Some].
  destruct (currentTx s) as [tx|]; [|done].
  by destruct (_ && _).
Qed.

(** [Mux.CheckValid] decides as [Mux_verdict] on the caller's state, and
    only appends cells to the store. *)
Lemma Mux_CheckValid_run mux state s (h : heap) :
  h !! state = Some s →
  ∃ t, Mux_CheckValid mux state h = (h ++ t, Mux_verdict s mux).
Proof.
  intros Hs. unfold Mux_CheckValid, Mux_verdict.
  erewrite bind_Ok; [|by apply load_Some].
  destruct (Verify _) as [err|].
  { exists []. by rewrite app_nil_r. }
  destruct (checkSources_run state s (Mux.Body.Sources (Mux.body mux)) 0 h Hs)
    as [t1 H1].
  destruct (descend valueSource_CheckValid _ _ _ _ _) as [[]|e|] eqn:D1;
    [|exists t1; by erewrite bind_Fail|exists t1; by erewrite bind_Panic].
  erewrite bind_Ok; [|exact H1].
  assert ((h ++ t1) !! state = Some s) as Hs1.
  { rewrite lookup_app_l; [done|]. by eapply lookup_lt_Some. }
  destruct (checkDestinations_run state s
              (Mux.Witness.Destinations (Mux.witness mux)) 0 (h ++ t1) Hs1)
    as [t2 H2].
  rewrite <- app_assoc in H2.
  destruct (descend ValueDestination_CheckValid _ _ _ _ _) as [[]|e|] eqn:D2;
    [|exists (t1 ++ t2); by erewrite bind_Fail
     |exists (t1 ++ t2); by erewrite bind_Panic].
  erewrite bind_Ok; [|exact H2].
  exists (t1 ++ t2). unfold parityVerdict.
  destruct (addSources _ _ _) as [e|p0];
    [by erewrite bind_Fail; [|reflexivity]|].
  erewrite bind_Ok; [|reflexivity].
  destruct (subDestinations _ _ _) as [e|p];
    [by erewrite bind_Fail; [|reflexivity]|].
  erewrite bind_Ok; [|reflexivity].
  destruct (checkResiduals _) as [e|[]];
    [by erewrite bind_Fail; [|reflexivity]|].
  erewrite bind_Ok; [|reflexivity].
  apply checkExtHash_run.
  rewrite lookup_app_l; [done|]. by eapply lookup_lt_Some.
Qed.

Lemma Mux_CheckValid_result mux state s (h : heap) :
  h !! state = Some s → (Mux_CheckValid mux state h).2 = Mux_verdict s mux.
Proof.
  intros Hs. destruct (Mux_CheckValid_run mux state s h Hs) as [t ->]. done.
Qed.

(** [Nonce.CheckValid] decides as [Nonce_verdict] and leaves the store as it
    is. *)
Lemma Nonce_CheckValid_run n state s (h : heap) :
  h !! state = Some s → Nonce_CheckValid n state h = (h, Nonce_verdict s n).
Proof.
  intros Hs. unfold Nonce_CheckValid, Nonce_verdict.
  erewrite bind_Ok; [|by apply load_Some].
  destruct (Verify _) as [err|]; [done|].
  destruct (Nonce.TimeRange n) as [tr|]; [|done].
  destruct (_ || _); [done|]. by apply checkExtHash_run.
Qed.

(** ** The outcome of descending into sources and destinations *)

Lemma descend_Ok {A} (f : A → validationState → validationState * option error)
    set format s (xs : list A) : ∀ i,
  descend f set format s i xs = Ok tt ↔
  ∀ (k : nat) x, xs !! k = Some x →
    (f x (set (uint64 (Z.of_nat (i + k))) s)).2 = None.
Proof.
  induction xs as [|x rest IH]; intros i; simpl.
  - split; [intros _ k y Hk; by rewrite lookup_nil in Hk | done].
  - split.
    + intros H [|k] y Hk; simpl in Hk.
      * injection Hk as <-. rewrite Nat.add_0_r.
        by destruct (f x _).2.
      * destruct (f x _).2; [done|].
        replace (i + S k)%nat with (S i + k)%nat by lia.
        by eapply IH.
    + intros H. rewrite <- (Nat.add_0_r i) at 1. rewrite (H 0%nat x eq_refl).
      apply IH. intros k y Hk.
      replace (S i + k)%nat with (i + S k)%nat by lia. by apply H.
Qed.

Lemma Mux_sources_ok_descend s mux :
  Mux_sources_ok s mux →
  descend valueSource_CheckValid set_sourcePosition "checking mux source %d"
    s 0 (Mux.Body.Sources (Mux.body mux)) = Ok tt.
Proof. intros H. apply descend_Ok. intros k x Hk. by apply H. Qed.

Lemma Mux_destinations_ok_descend s mux :
  Mux_destinations_ok s mux →
  descend ValueDestination_CheckValid set_destPosition
    "checking mux destination %d" s 0
    (Mux.Witness.Destinations (Mux.witness mux)) = Ok tt.
Proof. intros H. apply descend_Ok. intros k x Hk. by apply H. Qed.

(** With the program and the children validating, the verdict is that of
    the parity loops and the extension hash rule. *)
Lemma Mux_verdict_children_ok s mux :
  Mux_program_ok s mux → Mux_sources_ok s mux → Mux_destinations_ok s mux →
  Mux_verdict s mux =
  parityVerdict mux (extHashVerdict s (Mux.Body.ExtHash (Mux.body mux))).
Proof.
  intros Hp Hsrc Hdst. unfold Mux_verdict. rewrite Hp.
  by rewrite Mux_sources_ok_descend, Mux_destinations_ok_descend.
Qed.

(** ** The parity map *)

Lemma index_insert (p : gmap AssetID Z) a v a' :
  index (<[a := v]> p) a' = if decide (a = a') then v else index p a'.
Proof.
  unfold index. rewrite lookup_insert. by destruct (decide (a = a')).
Qed.

Lemma index_Some (p : gmap AssetID Z) a v : p !! a = Some v → index p a = v.
Proof. unfold index. by intros ->. Qed.

(** When the loop over the sources completes, every asset holds the sum of
    its sources on top of what it held, and the assets of the sources have
    an entry. *)
Lemma addSources_inr srcs : ∀ p i p',
  addSources p i srcs = inr p' →
  (∀ a, index p' a = index p a + total srcAsset srcAmount a srcs) ∧
  (∀ a, is_Some (p' !! a) ↔ is_Some (p !! a) ∨ a ∈ srcAsset <$> srcs).
Proof.
  induction srcs as [|src rest IH]; intros p i p' H; simpl in H.
  - injection H as <-. split; intros a; [simpl; lia|].
    rewrite fmap_nil, elem_of_nil. tauto.
  - unfold checked.AddInt64 in H. case_bool_decide; simpl in H; [|done].
    apply IH in H as [Hv Hd]. split; intros a.
    + rewrite Hv, index_insert. simpl. unfold srcAsset, srcAmount.
      destruct (decide _) as [->|]; lia.
    + rewrite Hd, lookup_insert, fmap_cons, elem_of_cons.
      unfold srcAsset at 2.
      destruct (decide _) as [->|]; [split; [auto|intros _; left; eauto]|].
      split; [intros [|]; auto | intros [|[|]]; auto; congruence].
Qed.

(** The loop over the sources stops at the first sum that leaves the signed
    64-bit range, with [errOverflow] naming the amount, the asset, the index
    and the total so far. *)
Lemma addSources_app_overflow pre src post : ∀ p i p1,
  addSources p i pre = inr p1 →
  ¬ is_int64 (index p1 (srcAsset src) + srcAmount src) →
  addSources p i (pre ++ src :: post) =
  inl (WithDetailf errOverflow
         "adding %d units of asset %x from mux source %d to total %d overflows int64"
         [ArgInt (AssetAmount.Amount (valueSource.Value src));
          ArgBytes (hash_bytes (srcAsset src));
          ArgInt (Z.of_nat (i + length pre));
          ArgInt (index p1 (srcAsset src))]).
Proof.
  induction pre as [|x pre IH]; intros p i p1 H Hov; simpl in H |- *.
  - injection H as <-. unfold checked.AddInt64.
    rewrite bool_decide_eq_false_2; [|exact Hov]. simpl.
    by rewrite Nat.add_0_r.
  - destruct (checked.AddInt64 _ _) as [sum [|]]; simpl in H |- *; [|done].
    erewrite IH; [|exact H|exact Hov].
    by replace (S i + length pre)%nat with (i + S (length pre))%nat by lia.
Qed.

(** When the loop over the destinations completes, every asset holds what
    it held less the sum of its destinations, and no entry was added or
    removed. *)
Lemma subDestinations_inr dests : ∀ p i p',
  subDestinations p i dests = inr p' →
  (∀ a, index p' a = index p a - total destAsset destAmount a dests) ∧
  (∀ a, is_Some (p' !! a) ↔ is_Some (p !! a)).
Proof.
  induction dests as [|dest rest IH]; intros p i p' H; simpl in H.
  - injection H as <-. split; intros a; [simpl; lia|done].
  - destruct (p !! _) as [sum|] eqn:Hl; [|done].
    unfold checked.SubInt64 in H. case_bool_decide; simpl in H; [|done].
    apply IH in H as [Hv Hd]. split; intros a.
    + rewrite Hv, index_insert. simpl. unfold destAsset, destAmount.
      destruct (decide _) as [<-|]; [|lia].
      rewrite (index_Some _ _ _ Hl). lia.
    + rewrite Hd, lookup_insert.
      destruct (decide _) as [<-|]; [|done].
      rewrite Hl. split; eauto.
Qed.

(** The loop over the destinations, continued after a prefix that it
    processes without error. *)
Lemma subDestinations_app pre rest : ∀ p i p1,
  subDestinations p i pre = inr p1 →
  subDestinations p i (pre ++ rest) = subDestinations p1 (i + length pre) rest.
Proof.
  induction pre as [|x pre IH]; intros p i p1 H; simpl in H |- *.
  - injection H as <-. by rewrite Nat.add_0_r.
  - destruct (p !! _) as [sum|]; [|done].
    destruct (checked.SubInt64 _ _) as [diff [|]]; simpl in H |- *; [|done].
    erewrite IH; [|exact H].
    by replace (S i + length pre)%nat with (i + S (length pre))%nat by lia.
Qed.

(** Every failure of the loop over the destinations happens at one
    destination, after the ones before it were processed: its asset has no
    entry, or the subtraction leaves the signed 64-bit range. *)
Lemma subDestinations_inl dests : ∀ p i e,
  subDestinations p i dests = inl e →
  ∃ pre dest post p1,
    dests = pre ++ dest :: post ∧ subDestinations p i pre = inr p1 ∧
    ((p1 !! destAsset dest = None ∧
      e = WithDetailf errNoSource
            "mux destination %d, asset %x, has no corresponding source"
            [ArgInt (Z.of_nat (i + length pre));
             ArgBytes (hash_bytes (destAsset dest))]) ∨
     (∃ sum, p1 !! destAsset dest = Some sum ∧
        ¬ is_int64 (sum - destAmount dest) ∧
        e = WithDetailf errOverflow
              "subtracting %d units of asset %x from mux destination %d from total %d underflows int64"
              [ArgInt (AssetAmount.Amount (ValueDestination.Value dest));
               ArgBytes (hash_bytes (destAsset dest));
               ArgInt (Z.of_nat (i + length pre));
               ArgInt sum])).
Proof.
  induction dests as [|dest rest IH]; intros p i e H; simpl in H; [done|].
  destruct (p !! _) as [sum|] eqn:Hl.
  - unfold checked.SubInt64 in H. case_bool_decide as Hr; simpl in H.
    + apply IH in H as (pre & d & post & p1 & -> & Hpre & Hcase).
      exists (dest :: pre), d, post, p1. split; [done|]. split.
      * simpl. rewrite Hl. unfold checked.SubInt64.
        rewrite bool_decide_eq_true_2; [|exact Hr]. exact Hpre.
      * simpl length.
        by replace (i + S (length pre))%nat with (S i + length pre)%nat by lia.
    + injection H as <-. exists [], dest, rest, p.
      split; [done|]. split; [done|]. right. exists sum.
      simpl. by rewrite Nat.add_0_r.
  - injection H as <-. exists [], dest, rest, p.
    split; [done|]. split; [done|]. left. simpl. by rewrite Nat.add_0_r.
Qed.

(** ** The loop over the residuals *)

Lemma checkResiduals_inr (l : list (AssetID * Z)) :
  checkResiduals l = inr tt ↔ ∀ a v, (a, v) ∈ l → v = 0.
Proof.
  induction l as [|[a v] rest IH]; simpl.
  - split; [intros _ a v H; by apply elem_of_nil in H | done].
  - case_bool_decide as Hv.
    + split; [done|]. intros H. destruct Hv. apply (H a). left.
    + rewrite IH. split.
      * intros H a' v' [[= -> ->]|Hin]%elem_of_cons; [done|by eapply H].
      * intros H a' v' Hin. apply (H a'). by right.
Qed.

Lemma checkResiduals_inl (l : list (AssetID * Z)) e :
  checkResiduals l = inl e →
  ∃ a v, (a, v) ∈ l ∧ v ≠ 0 ∧
    e = WithDetailf errUnbalanced
          "asset %x sources - destinations = %d (should be 0)"
          [ArgBytes (hash_bytes a); ArgInt v].
Proof.
  induction l as [|[a v] rest IH]; simpl; [done|].
  case_bool_decide as Hv.
  - intros [= <-]. exists a, v. split; [left|done].
  - intros (a' & v' & Hin & Hne & ->)%IH. exists a', v'. split; [by right|done].
Qed.

Lemma elem_of_rangeMap (p : gmap AssetID Z) a v :
  (a, v) ∈ rangeMap p ↔ p !! a = Some v.
Proof. by rewrite rangeMap_perm, elem_of_map_to_list. Qed.

(** ** The balance check *)

(** The entries of the parity map once both loops have completed: the
    assets of the sources, each with the sum of its sources less the sum of
    its destinations. *)
Lemma parity_lookup srcs dests p0 p a :
  addSources ∅ 0 srcs = inr p0 →
  subDestinations p0 0 dests = inr p →
  p !! a =
    if decide (a ∈ srcAsset <$> srcs)
    then Some (total srcAsset srcAmount a srcs - total destAsset destAmount a dests)
    else None.
Proof.
  intros [Hv0 Hd0]%addSources_inr [Hv Hd]%subDestinations_inr.
  specialize (Hv a). specialize (Hd a). specialize (Hv0 a). specialize (Hd0 a).
  rewrite Hd0, lookup_empty in Hd.
  destruct (decide _) as [Hin|Hnin].
  - destruct (p !! a) as [v|] eqn:Hp.
    + unfold index in Hv at 1. rewrite Hp in Hv. simpl in Hv.
      f_equal. rewrite Hv, Hv0. unfold index. rewrite lookup_empty. simpl. lia.
    + destruct Hd as [_ Hd]. destruct Hd as [? [=]]. by right.
  - destruct (p !! a) as [v|] eqn:Hp; [|done].
    destruct Hd as [Hd _]. destruct Hd as [[? [=]]|?]; [eauto|done].
Qed.

(** The third loop: it lets the check through when every residual is zero,
    and otherwise fails with [errUnbalanced] for an asset whose residual is
    not zero. *)
Lemma parityVerdict_residuals mux p0 p k :
  addSources ∅ 0 (Mux.Body.Sources (Mux.body mux)) = inr p0 →
  subDestinations p0 0 (Mux.Witness.Destinations (Mux.witness mux)) = inr p →
  ((∀ a v, p !! a = Some v → v = 0) ∧ parityVerdict mux k = k) ∨
  (∃ a v, p !! a = Some v ∧ v ≠ 0 ∧
     parityVerdict mux k =
     Fail (WithDetailf errUnbalanced
             "asset %x sources - destinations = %d (should be 0)"
             [ArgBytes (hash_bytes a); ArgInt v])).
Proof.
  intros H0 H1. unfold parityVerdict. rewrite H0, H1.
  destruct (checkResiduals (rangeMap p)) as [e|[]] eqn:Hc.
  - right. apply checkResiduals_inl in Hc as (a & v & Hin & Hne & ->).
    exists a, v. by rewrite <- elem_of_rangeMap.
  - left. split; [|done]. intros a v Hl.
    eapply checkResiduals_inr; [exact Hc|]. by apply elem_of_rangeMap.
Qed.

Lemma extHashVerdict_not_detail s E e format args :
  extHashVerdict s E ≠ Fail (WithDetailf e format args).
Proof.
  unfold extHashVerdict. destruct (currentTx s); [|done].
  by destruct (_ && _).
Qed.

Lemma int64_small x : 0 ≤ x ≤ MaxInt64 → int64 x = x.
Proof.
  unfold int64, MaxInt64. intros H.
  rewrite Z.mod_small; lia.
Qed.

(** The parity of the scenario: one source of [n] units of an asset and two
    destinations of [d1] and [d2] units of it leave the single residual
    [n - d1 - d2]. *)
Lemma parity_one_source_two_destinations srcs dests assetA n d1 d2 :
  valueSource.Value <$> srcs = [AssetAmount.mk assetA n] →
  ValueDestination.Value <$> dests =
    [AssetAmount.mk assetA d1; AssetAmount.mk assetA d2] →
  0 ≤ d1 ≤ n → 0 ≤ d2 ≤ n → n ≤ MaxInt64 →
  ∃ p0, addSources ∅ 0 srcs = inr p0 ∧
        subDestinations p0 0 dests = inr {[assetA := n - d1 - d2]}.
Proof.
  intros Hs Hd H1 H2 Hn.
  destruct srcs as [|[r0 v0 q0] [|]]; try discriminate Hs.
  destruct dests as [|[r1 v1 q1] [|[r2 v2 q2] [|]]]; try discriminate Hd.
  simpl in Hs, Hd. injection Hs as ->. injection Hd as -> ->.
  simpl. unfold index, checked.AddInt64, checked.SubInt64.
  rewrite lookup_empty. simpl.
  rewrite !int64_small by lia.
  rewrite bool_decide_eq_true_2 by (unfold MinInt64, MaxInt64 in *; lia). simpl.
  eexists. split; [reflexivity|].
  rewrite lookup_insert_eq.
  rewrite bool_decide_eq_true_2 by (unfold MinInt64, MaxInt64 in *; lia). simpl.
  rewrite lookup_insert_eq.
  rewrite bool_decide_eq_true_2 by (unfold MinInt64, MaxInt64 in *; lia). simpl.
  rewrite !insert_insert_eq. by rewrite insert_empty.
Qed.

(** ** The loop over the destinations *)

(** The loop over the destinations, on the amounts as the code converts
    them.  For a Mux whose program, sources and destinations validate and
    whose sources were added without overflow: when the loop over the
    destinations reaches the destination [dest] at index [length pre] with
    the parity map [p], and the asset of [dest] has no entry in [p] (which
    happens exactly when no source carries that asset), [Mux.CheckValid]
    fails with [errNoSource] naming that index and asset; and when the entry
    is [sum] and [sum] less the amount (the operand [int64(amount)] of the
    checked subtraction) leaves the signed 64-bit range, it fails with
    [errOverflow], the "arithmetic overflow/underflow" error; otherwise the
    loop stores the difference and goes on. *)
Theorem mux_destination_checks (state : loc) (s : validationState) (h : heap)
    (mux : Mux.t) (p0 p : gmap AssetID Z)
    (pre post : list ValueDestination.t) (dest : ValueDestination.t) :
  h !! state = Some s →
  Mux_program_ok s mux → Mux_sources_ok s mux → Mux_destinations_ok s mux →
  addSources ∅ 0 (Mux.Body.Sources (Mux.body mux)) = inr p0 →
  Mux.Witness.Destinations (Mux.witness mux) = pre ++ dest :: post →
  subDestinations p0 0 pre = inr p →
  (p !! destAsset dest = None ↔
   destAsset dest ∉ srcAsset <$> Mux.Body.Sources (Mux.body mux)) ∧
  (p !! destAsset dest = None →
   (Mux_CheckValid mux state h).2 =
   Fail (WithDetailf errNoSource
           "mux destination %d, asset %x, has no corresponding source"
           [ArgInt (Z.of_nat (length pre));
            ArgBytes (hash_bytes (destAsset dest))])) ∧
  (∀ sum, p !! destAsset dest = Some sum →
     (¬ is_int64 (sum - destAmount dest) →
      (Mux_CheckValid mux state h).2 =
      Fail (WithDetailf errOverflow
              "subtracting %d units of asset %x from mux destination %d from total %d underflows int64"
              [ArgInt (AssetAmount.Amount (ValueDestination.Value dest));
               ArgBytes (hash_bytes (destAsset dest));
               ArgInt (Z.of_nat (length pre));
               ArgInt sum])) ∧
     (is_int64 (sum - destAmount dest) →
      subDestinations p0 0 (pre ++ [dest]) =
      inr (<[destAsset dest := sum - destAmount dest]> p))).
Proof.
  intros Hs Hp Hsrc Hdst H0 Hd Hpre.
  rewrite (Mux_CheckValid_result mux state s h Hs).
  rewrite (Mux_verdict_children_ok s mux Hp Hsrc Hdst).
  unfold parityVerdict. rewrite H0, Hd.
  rewrite (subDestinations_app pre (dest :: post) p0 0 p Hpre).
  rewrite (subDestinations_app pre [dest] p0 0 p Hpre).
  simpl. fold (destAsset dest). fold (destAmount dest).
  split; [|split].
  - apply addSources_inr in H0 as [_ Hd0].
    apply subDestinations_inr in Hpre as [_ Hd1].
    rewrite eq_None_not_Some, Hd1, Hd0, lookup_empty.
    split; [intros H Hin; apply H; by right|].
    intros H [[? [=]]|Hin]; by apply H.
  - by intros ->.
  - intros sum ->. unfold checked.SubInt64. split; intros Hr.
    + by rewrite bool_decide_eq_false_2.
    + by rewrite bool_decide_eq_true_2.
Qed.

(** ** Failures are told apart by their shape *)

Lemma descend_Fail {A} (f : A → validationState → validationState * option error)
    set format s (xs : list A) : ∀ i e,
  descend f set format s i xs = Fail e → ∃ err args, e = Wrapf err format args.
Proof.
  induction xs as [|x rest IH]; intros i e; simpl; [done|].
  destruct (f x _).2 as [err|]; [|by apply IH].
  intros [= <-]. eauto.
Qed.

Lemma descend_not_Panic {A}
    (f : A → validationState → validationState * option error)
    set format s (xs : list A) : ∀ i, descend f set format s i xs ≠ Panic.
Proof.
  induction xs as [|x rest IH]; intros i; simpl; [done|].
  destruct (f x _).2 as [err|]; [done|by apply IH].
Qed.

Lemma addSources_inl srcs : ∀ p i e,
  addSources p i srcs = inl e → ∃ format args, e = WithDetailf errOverflow format args.
Proof.
  induction srcs as [|src rest IH]; intros p i e; simpl; [done|].
  destruct (checked.AddInt64 _ _) as [sum [|]]; simpl; [by apply IH|].
  intros [= <-]. eauto.
Qed.

Lemma parityVerdict_cases mux k :
  (Mux_balanced mux ∧ parityVerdict mux k = k) ∨
  (¬ Mux_balanced mux ∧
   ∃ e format args, parityVerdict mux k = Fail (WithDetailf e format args)).
Proof.
  destruct (addSources ∅ 0 (Mux.Body.Sources (Mux.body mux))) as [e|p0] eqn:H0.
  { right. split; [intros (? & ? & ? & _); congruence|].
    unfold parityVerdict. rewrite H0.
    apply addSources_inl in H0 as (format & args & ->). eauto. }
  destruct (subDestinations p0 0 (Mux.Witness.Destinations (Mux.witness mux)))
    as [e|p] eqn:H1.
  { right. split; [intros (? & ? & ? & ? & _); congruence|].
    unfold parityVerdict. rewrite H0, H1.
    apply subDestinations_inl in H1
      as (pre & d & post & p1 & _ & _ & [[_ ->]|(sum & _ & _ & ->)]); eauto. }
  destruct (parityVerdict_residuals mux p0 p k H0 H1)
    as [[Hz Hk]|(a & v & Hl & Hne & Hk)].
  - left. split; [by exists p0, p|done].
  - right. split; [|eauto].
    intros (q0 & q & Hq0 & Hq & Hz).
    assert (q0 = p0) as -> by congruence. assert (q = p) as -> by congruence.
    by destruct Hne, (Hz a v).
Qed.

(** [Mux_verdict], by the stage that decides it. *)
Lemma Mux_verdict_cases s mux :
  (Mux_program_ok s mux ∧ Mux_sources_ok s mux ∧ Mux_destinations_ok s mux ∧
   Mux_balanced mux ∧
   Mux_verdict s mux = extHashVerdict s (Mux.Body.ExtHash (Mux.body mux))) ∨
  (¬ (Mux_program_ok s mux ∧ Mux_sources_ok s mux ∧ Mux_destinations_ok s mux ∧
      Mux_balanced mux) ∧
   ∃ e, Mux_verdict s mux = Fail e ∧ ∀ msg, e ≠ New msg).
Proof.
  unfold Mux_verdict, Mux_program_ok.
  destruct (Verify _) as [err|] eqn:HV.
  { right. split; [by intros [[=] _]|]. eauto. }
  destruct (descend valueSource_CheckValid _ _ _ _ _) as [[]|e|] eqn:D1.
  2:{ right. split.
      - intros (_ & Hsrc%Mux_sources_ok_descend & _). congruence.
      - apply descend_Fail in D1 as (err & args & ->). eauto. }
  2:{ by apply descend_not_Panic in D1. }
  destruct (descend ValueDestination_CheckValid _ _ _ _ _) as [[]|e|] eqn:D2.
  2:{ right. split.
      - intros (_ & _ & Hdst%Mux_destinations_ok_descend & _). congruence.
      - apply descend_Fail in D2 as (err & args & ->). eauto. }
  2:{ by apply descend_not_Panic in D2. }
  assert (Mux_sources_ok s mux) as Hsrc.
  { intros i src Hi. by eapply (proj1 (descend_Ok _ _ _ _ _ 0%nat) D1) in Hi. }
  assert (Mux_destinations_ok s mux) as Hdst.
  { intros i dest Hi. by eapply (proj1 (descend_Ok _ _ _ _ _ 0%nat) D2) in Hi. }
  destruct (parityVerdict_cases mux
              (extHashVerdict s (Mux.Body.ExtHash (Mux.body mux))))
    as [[Hb ->]|[Hnb (e & format & args & ->)]].
  - by left.
  - right. split; [by intros (_ & _ & _ & Hb)|]. eauto.
Qed.

(** ** The balance check, as a whole *)

Lemma total_ext {A} (asset : A → AssetID) (amount amount' : A → Z) a (xs : list A) :
  (∀ x, x ∈ xs → amount x = amount' x) →
  total asset amount a xs = total asset amount' a xs.
Proof.
  induction xs as [|x xs IH]; intros H; simpl; [done|].
  rewrite IH by (intros y Hy; apply H; by right).
  rewrite (H x) by left. done.
Qed.

(** The balance check, on the amounts as the code converts them.  For a
    Mux whose program, sources and destinations validate:
    [Mux.CheckValid] gets past the balance check, that is, returns what the
    extension hash rule returns, if and only if the two accumulation loops
    complete and leave only zero residuals.  When the loops complete with
    the parity map [p]: [p] holds, for exactly the assets of the sources, the
    sum of the source amounts less the sum of the destination amounts, the
    amounts being read as signed 64-bit numbers as the code converts them
    (which is the amount itself up to the signed 64-bit maximum); the check
    is passed if and only if every residual in [p] is zero; and when some
    residual is not zero the result is [errUnbalanced] naming an asset and
    its non-zero residual.  In particular sources [(assetA, 100)] with
    destinations [(assetA, 60), (assetA, 40)] pass the balance check, and
    with destinations [(assetA, 60), (assetA, 41)] the result is
    [errUnbalanced] for [assetA] with residual [-1]. *)
Theorem mux_balance_check (state : loc) (s : validationState) (h : heap) :
  h !! state = Some s →
  (∀ mux,
     Mux_program_ok s mux → Mux_sources_ok s mux → Mux_destinations_ok s mux →
     ((Mux_CheckValid mux state h).2 =
        (checkExtHash state (Mux.Body.ExtHash (Mux.body mux)) h).2
      ↔ Mux_balanced mux) ∧
     ∀ p0 p,
       addSources ∅ 0 (Mux.Body.Sources (Mux.body mux)) = inr p0 →
       subDestinations p0 0 (Mux.Witness.Destinations (Mux.witness mux)) = inr p →
       (∀ a, p !! a =
          if decide (a ∈ srcAsset <$> Mux.Body.Sources (Mux.body mux))
          then Some (total srcAsset srcAmount a (Mux.Body.Sources (Mux.body mux))
                     - total destAsset destAmount a
                         (Mux.Witness.Destinations (Mux.witness mux)))
          else None) ∧
       ((∀ src, src ∈ Mux.Body.Sources (Mux.body mux) →
           0 ≤ AssetAmount.Amount (valueSource.Value src) ≤ MaxInt64) →
        (∀ dest, dest ∈ Mux.Witness.Destinations (Mux.witness mux) →
           0 ≤ AssetAmount.Amount (ValueDestination.Value dest) ≤ MaxInt64) →
        ∀ a, a ∈ srcAsset <$> Mux.Body.Sources (Mux.body mux) →
          p !! a =
          Some (total srcAsset (λ src, AssetAmount.Amount (valueSource.Value src))
                  a (Mux.Body.Sources (Mux.body mux))
                - total destAsset
                    (λ dest, AssetAmount.Amount (ValueDestination.Value dest))
                    a (Mux.Witness.Destinations (Mux.witness mux)))) ∧
       ((Mux_CheckValid mux state h).2 =
          (checkExtHash state (Mux.Body.ExtHash (Mux.body mux)) h).2
        ↔ ∀ a v, p !! a = Some v → v = 0) ∧
       ((∃ a v, p !! a = Some v ∧ v ≠ 0) →
        ∃ a v, p !! a = Some v ∧ v ≠ 0 ∧
          (Mux_CheckValid mux state h).2 =
          Fail (WithDetailf errUnbalanced
                  "asset %x sources - destinations = %d (should be 0)"
                  [ArgBytes (hash_bytes a); ArgInt v]))) ∧
  (∀ mux assetA,
     Mux_program_ok s mux → Mux_sources_ok s mux → Mux_destinations_ok s mux →
     valueSource.Value <$> Mux.Body.Sources (Mux.body mux) =
       [AssetAmount.mk assetA 100] →
     (ValueDestination.Value <$> Mux.Witness.Destinations (Mux.witness mux) =
        [AssetAmount.mk assetA 60; AssetAmount.mk assetA 40] →
      (Mux_CheckValid mux state h).2 =
      (checkExtHash state (Mux.Body.ExtHash (Mux.body mux)) h).2) ∧
     (ValueDestination.Value <$> Mux.Witness.Destinations (Mux.witness mux) =
        [AssetAmount.mk assetA 60; AssetAmount.mk assetA 41] →
      (Mux_CheckValid mux state h).2 =
      Fail (WithDetailf errUnbalanced
              "asset %x sources - destinations = %d (should be 0)"
              [ArgBytes (hash_bytes assetA); ArgInt (-1)]))).
Proof.
  intros Hs. split.
  - intros mux Hp Hsrc Hdst.
    rewrite (Mux_CheckValid_result mux state s h Hs), (checkExtHash_run _ s _ _ Hs).
    rewrite (Mux_verdict_children_ok s mux Hp Hsrc Hdst). simpl.
    split.
    { destruct (parityVerdict_cases mux
                  (extHashVerdict s (Mux.Body.ExtHash (Mux.body mux))))
        as [[Hb ->]|[Hnb (e & format & args & ->)]]; [done|].
      split; [|done]. intros Heq. symmetry in Heq.
      by apply extHashVerdict_not_detail in Heq. }
    intros p0 p H0 H1.
    split; [intros a; by eapply parity_lookup|].
    split.
    { intros Hsa Hda a Hin. rewrite (parity_lookup _ _ p0 p a H0 H1).
      rewrite decide_True by done. f_equal. f_equal.
      - apply total_ext. intros src Hsrcin. unfold srcAmount.
        apply int64_small. by apply Hsa.
      - apply total_ext. intros dest Hdin. unfold destAmount.
        apply int64_small. by apply Hda. }
    destruct (parityVerdict_residuals mux p0 p
                (extHashVerdict s (Mux.Body.ExtHash (Mux.body mux))) H0 H1)
      as [[Hz Hk]|(a & v & Hl & Hne & Hk)].
    + split; [done|]. intros (a & v & Hl & Hne). by destruct Hne, (Hz a v).
    + split; [|intros _; by exists a, v].
      split.
      * intros Heq. rewrite Hk in Heq. symmetry in Heq.
        by apply extHashVerdict_not_detail in Heq.
      * intros Hz. by destruct Hne, (Hz a v).
  - intros mux assetA Hp Hsrc Hdst Hsv.
    rewrite (Mux_CheckValid_result mux state s h Hs), (checkExtHash_run _ s _ _ Hs).
    rewrite (Mux_verdict_children_ok s mux Hp Hsrc Hdst). simpl.
    split; intros Hdv.
    + destruct (parity_one_source_two_destinations _ _ assetA 100 60 40 Hsv Hdv)
        as (p0 & H0 & H1); [lia|lia|unfold MaxInt64; lia|].
      destruct (parityVerdict_residuals mux p0 _
                  (extHashVerdict s (Mux.Body.ExtHash (Mux.body mux))) H0 H1)
        as [[Hz Hk]|(a & v & Hl & Hne & Hk)]; [done|].
      apply lookup_singleton_Some in Hl as [_ <-]. done.
    + destruct (parity_one_source_two_destinations _ _ assetA 100 60 41 Hsv Hdv)
        as (p0 & H0 & H1); [lia|lia|unfold MaxInt64; lia|].
      destruct (parityVerdict_residuals mux p0 _
                  (extHashVerdict s (Mux.Body.ExtHash (Mux.body mux))) H0 H1)
        as [[Hz Hk]|(a & v & Hl & Hne & Hk)].
      * specialize (Hz assetA (100 - 60 - 41)).
        rewrite lookup_singleton_eq in Hz. by specialize (Hz eq_refl).
      * apply lookup_singleton_Some in Hl as [<- <-]. exact Hk.
Qed.

(** ** The extension hash rule and the time range rule *)

Lemma Hash_nonzero (E : Hash) :
  E ≠ Hash_zero ↔ ∃ (i : nat) b, hash_bytes E !! i = Some b ∧ b ≠ x00.
Proof.
  split.
  - intros Hne.
    destruct (decide (Forall (λ b, x00 = b) (hash_bytes E))) as [HF|HnF].
    + destruct Hne. apply Hash_eq.
      change (hash_bytes Hash_zero) with (replicate 32 x00). symmetry.
      apply replicate_as_Forall. split; [|done].
      pose proof (hash_len E) as Hl. by apply Is_true_true, Nat.eqb_eq in Hl.
    + apply not_Forall_Exists in HnF; [|apply _].
      apply Exists_exists in HnF as (b & Hin & Hb).
      apply list_elem_of_lookup in Hin as [i Hi].
      exists i, b. split; [done|]. intros ->. by apply Hb.
  - intros (i & b & Hi & Hb) ->.
    change (hash_bytes Hash_zero) with (replicate 32 x00) in Hi.
    by apply lookup_replicate in Hi as [-> _].
Qed.

Lemma extHashVerdict_Some s tx E :
  currentTx s = Some tx →
  (TxEntries.Body.Version (TxEntries.body tx) = 1 ∧ E ≠ Hash_zero ∧
   extHashVerdict s E = Fail errNonemptyExtHash) ∨
  ((TxEntries.Body.Version (TxEntries.body tx) ≠ 1 ∨ E = Hash_zero) ∧
   extHashVerdict s E = Ok tt).
Proof.
  intros Htx. unfold extHashVerdict. rewrite Htx.
  case_bool_decide as Hv; simpl; [|right; auto].
  case_bool_decide as HE; simpl; [left; auto|right; auto].
Qed.

(** C4.  Inside a transaction [tx] (the caller's state points to it):
    [Mux.CheckValid] returns [errNonemptyExtHash] exactly when its earlier
    stages pass (program, sources, destinations, balance), the transaction
    version is 1 and the extension hash differs from the all-zero hash; with
    version 1 and such a hash it fails in every case; and when the earlier
    stages pass and the version is not 1, or the hash is all zero, it
    returns nil.  The same holds of [Nonce.CheckValid], whose earlier stages
    are the program and the time range rule.  A hash differs from the
    all-zero hash exactly when one of its bytes is not zero. *)
Theorem ext_hash_rule (state : loc) (s : validationState) (h : heap)
    (tx : TxEntries.t) :
  h !! state = Some s → currentTx s = Some tx →
  (∀ mux,
     let r := (Mux_CheckValid mux state h).2 in
     let E := Mux.Body.ExtHash (Mux.body mux) in
     let reached :=
       Mux_program_ok s mux ∧ Mux_sources_ok s mux ∧
       Mux_destinations_ok s mux ∧ Mux_balanced mux in
     (r = Fail errNonemptyExtHash ↔
      reached ∧ TxEntries.Body.Version (TxEntries.body tx) = 1 ∧ E ≠ Hash_zero) ∧
     (TxEntries.Body.Version (TxEntries.body tx) = 1 → E ≠ Hash_zero →
      ∃ e, r = Fail e) ∧
     (reached →
      TxEntries.Body.Version (TxEntries.body tx) ≠ 1 ∨ E = Hash_zero →
      r = Ok tt)) ∧
  (∀ n,
     let r := (Nonce_CheckValid n state h).2 in
     let E := Nonce.Body.ExtHash (Nonce.body n) in
     let reached :=
       Nonce_program_ok s n ∧
       ∃ tr, Nonce.TimeRange n = Some tr ∧
             TimeRange.Body.MinTimeMS (TimeRange.body tr) ≠ 0 ∧
             TimeRange.Body.MaxTimeMS (TimeRange.body tr) ≠ 0 in
     (r = Fail errNonemptyExtHash ↔
      reached ∧ TxEntries.Body.Version (TxEntries.body tx) = 1 ∧ E ≠ Hash_zero) ∧
     (TxEntries.Body.Version (TxEntries.body tx) = 1 → E ≠ Hash_zero →
      Nonce.TimeRange n ≠ None → ∃ e, r = Fail e) ∧
     (reached →
      TxEntries.Body.Version (TxEntries.body tx) ≠ 1 ∨ E = Hash_zero →
      r = Ok tt)) ∧
  (∀ E : Hash,
     E ≠ Hash_zero ↔ ∃ (i : nat) b, hash_bytes E !! i = Some b ∧ b ≠ x00).
Proof.
  intros Hs Htx. split; [|split; [|apply Hash_nonzero]].
  - intros mux r E reached. subst r.
    rewrite (Mux_CheckValid_result mux state s h Hs).
    destruct (extHashVerdict_Some s tx E Htx) as [(Hv & HE & Hx)|[Hor Hx]];
      destruct (Mux_verdict_cases s mux)
        as [(Hp & Hsrc & Hdst & Hb & ->)|[Hn (e & -> & He)]];
      fold E; rewrite ?Hx.
    + split; [split; [intros _; by repeat split|done]|].
      split; [eauto|intros _ [?|?]; done].
    + split; [split|split; [eauto|intros Hr; by destruct Hn]].
      * intros [= ->]. by destruct (He "non-empty extension hash").
      * intros [Hr _]. by destruct Hn.
    + split; [split; [done|intros (_ & Hv & HE); destruct Hor; done]|].
      split; [intros Hv HE; destruct Hor; done|done].
    + split; [split|split; [eauto|intros Hr; by destruct Hn]].
      * intros [= ->]. by destruct (He "non-empty extension hash").
      * intros [Hr _]. by destruct Hn.
  - intros n r E reached. subst r.
    rewrite (Nonce_CheckValid_run n state s h Hs). simpl.
    unfold Nonce_verdict. subst reached. unfold Nonce_program_ok.
    destruct (Verify _) as [err|] eqn:HV.
    { split; [split; [done|by intros [[[=] _] _]]|].
      split; [eauto|by intros [[=] _]]. }
    destruct (Nonce.TimeRange n) as [tr|] eqn:Htr.
    2:{ split; [split; [done|by intros [[_ (? & [=] & _)] _]]|].
        split; [done|by intros [_ (? & [=] & _)]]. }
    case_bool_decide as Hmin; simpl.
    { split; [split; [done|]|split; [eauto|]].
      - intros [[_ (tr' & [= <-] & Hm & _)] _]. done.
      - intros [_ (tr' & [= <-] & Hm & _)]. done. }
    case_bool_decide as Hmax; simpl.
    { split; [split; [done|]|split; [eauto|]].
      - intros [[_ (tr' & [= <-] & _ & Hm)] _]. done.
      - intros [_ (tr' & [= <-] & _ & Hm)]. done. }
    fold E.
    destruct (extHashVerdict_Some s tx E Htx) as [(Hv & HE & ->)|[Hor ->]].
    + split; [split; [intros _|done]|split; [eauto|intros _ [?|?]; done]].
      split; [|done]. split; [done|]. by exists tr.
    + split; [split; [done|intros (_ & Hv & HE); destruct Hor; done]|].
      split; [intros Hv HE; destruct Hor; done|done].
Qed.

(** C5.  For a Nonce whose program verifies and whose time range is [tr]:
    [Nonce.CheckValid] returns [errZeroTime] exactly when the minimum or the
    maximum time of [tr] is zero (so it does when the minimum is zero), and
    with both different from zero it goes on to the extension hash rule and
    returns what that returns. *)
Theorem nonce_zero_time (state : loc) (s : validationState) (h : heap)
    (n : Nonce.t) (tr : TimeRange.t) :
  h !! state = Some s → Nonce_program_ok s n → Nonce.TimeRange n = Some tr →
  let r := (Nonce_CheckValid n state h).2 in
  (r = Fail errZeroTime ↔
   TimeRange.Body.MinTimeMS (TimeRange.body tr) = 0 ∨
   TimeRange.Body.MaxTimeMS (TimeRange.body tr) = 0) ∧
  (TimeRange.Body.MinTimeMS (TimeRange.body tr) = 0 → r = Fail errZeroTime) ∧
  (TimeRange.Body.MinTimeMS (TimeRange.body tr) ≠ 0 →
   TimeRange.Body.MaxTimeMS (TimeRange.body tr) ≠ 0 →
   r = (checkExtHash state (Nonce.Body.ExtHash (Nonce.body n)) h).2).
Proof.
  intros Hs Hp Htr r. subst r.
  rewrite (Nonce_CheckValid_run n state s h Hs), (checkExtHash_run _ s _ _ Hs).
  simpl. unfold Nonce_verdict. rewrite Hp, Htr.
  case_bool_decide as Hmin; simpl.
  { split; [split; auto|split; [done|intros Hm; by destruct Hm]]. }
  case_bool_decide as Hmax; simpl.
  { split; [split; auto|split; [done|intros _ Hm; by destruct Hm]]. }
  split; [|split; done].
  split; [|intros [|]; done].
  unfold extHashVerdict. destruct (currentTx s); [|done].
  by destruct (_ && _).
Qed.

(** ** The caller's validation state *)

Lemma uint64_small x : 0 ≤ x ≤ MaxUint64 → uint64 x = x.
Proof. unfold uint64, MaxUint64. intros H. rewrite Z.mod_small; lia. Qed.

(** C8.  [Mux.CheckValid] called on a pointer to the state [s]: the store
    it leaves is the store it found followed by new cells (one per descent),
    so the caller's state still holds [s].  At any point where the caller's
    cell holds [s], the descent into the source at index [i] runs the callee
    on [s] with [sourcePosition] set to [i], keeps what the callee wrote in
    a new cell, and goes on with the caller's cell still holding [s]; the
    same for the destination at index [i] and [destPosition].  The copy has
    every other field as in [s].  Hence, whatever the callees write to the
    state they are given, the result is [Mux_verdict], which passes these
    copies by value. *)
Theorem mux_state_copied (state : loc) (s : validationState) (h : heap)
    (mux : Mux.t) :
  h !! state = Some s →
  (∃ t, (Mux_CheckValid mux state h).1 = h ++ t) ∧
  (Mux_CheckValid mux state h).1 !! state = Some s ∧
  (∀ (i : nat) src rest (h1 : heap), h1 !! state = Some s →
     let r := valueSource_CheckValid src
                (set_sourcePosition (uint64 (Z.of_nat i)) s) in
     checkSources state i (src :: rest) h1 =
     match r.2 with
     | Some err =>
         (h1 ++ [r.1],
          Fail (Wrapf err "checking mux source %d" [ArgInt (Z.of_nat i)]))
     | None => checkSources state (S i) rest (h1 ++ [r.1])
     end ∧
     (h1 ++ [r.1]) !! state = Some s) ∧
  (∀ (i : nat) dest rest (h1 : heap), h1 !! state = Some s →
     let r := ValueDestination_CheckValid dest
                (set_destPosition (uint64 (Z.of_nat i)) s) in
     checkDestinations state i (dest :: rest) h1 =
     match r.2 with
     | Some err =>
         (h1 ++ [r.1],
          Fail (Wrapf err "checking mux destination %d" [ArgInt (Z.of_nat i)]))
     | None => checkDestinations state (S i) rest (h1 ++ [r.1])
     end ∧
     (h1 ++ [r.1]) !! state = Some s) ∧
  (Mux_CheckValid mux state h).2 = Mux_verdict s mux ∧
  (∀ i : nat,
     (Z.of_nat i ≤ MaxUint64 →
      sourcePosition (set_sourcePosition (uint64 (Z.of_nat i)) s) = Z.of_nat i ∧
      destPosition (set_destPosition (uint64 (Z.of_nat i)) s) = Z.of_nat i) ∧
     same_but_sourcePosition s (set_sourcePosition (uint64 (Z.of_nat i)) s) ∧
     same_but_destPosition s (set_destPosition (uint64 (Z.of_nat i)) s)).
Proof.
  intros Hs.
  destruct (Mux_CheckValid_run mux state s h Hs) as [t Ht].
  split; [exists t; by rewrite Ht|].
  split; [rewrite Ht; simpl; rewrite lookup_app_l; [done|by eapply lookup_lt_Some]|].
  split.
  { intros i src rest h1 Hs1 r.
    split; [by apply checkSources_step|by apply lookup_app_Some]. }
  split.
  { intros i dest rest h1 Hs1 r.
    split; [by apply checkDestinations_step|by apply lookup_app_Some]. }
  split; [by rewrite Ht|].
  intros i. split; [|by repeat split].
  intros Hi. simpl. rewrite uint64_small; [done|lia].
Qed.

(** ** Destinations of an asset that has a source *)

(** Destinations of an asset that has a source, on the amounts as the
    code converts them.  (1) When [Mux.CheckValid] fails with
    [errNoSource], the error names a destination whose asset is carried by
    no source.  (2) An asset
    carried by a source keeps its entry in the parity map after any number
    of destinations, also when its value has reached zero.  (3) For a Mux
    whose program, sources and destinations validate, whose sources add up
    without overflow and whose destinations all are of assets that have a
    source: if the destinations of such an asset exceed its sources (the
    sums of the amounts as the loops read them, signed 64-bit), the result
    is [errUnbalanced] or [errOverflow].  (4) With sources
    [(assetA, 100)] and destinations [(assetA, 100), (assetA, 1)] the result
    is [errUnbalanced] for [assetA] with residual [-1]. *)
Theorem mux_no_source_only_without_source (state : loc) (s : validationState)
    (h : heap) (mux : Mux.t) :
  h !! state = Some s →
  (∀ format args,
     (Mux_CheckValid mux state h).2 = Fail (WithDetailf errNoSource format args) →
     ∃ (i : nat) dest,
       Mux.Witness.Destinations (Mux.witness mux) !! i = Some dest ∧
       args = [ArgInt (Z.of_nat i); ArgBytes (hash_bytes (destAsset dest))] ∧
       destAsset dest ∉ srcAsset <$> Mux.Body.Sources (Mux.body mux)) ∧
  (∀ p0 pre post p a,
     addSources ∅ 0 (Mux.Body.Sources (Mux.body mux)) = inr p0 →
     Mux.Witness.Destinations (Mux.witness mux) = pre ++ post →
     subDestinations p0 0 pre = inr p →
     a ∈ srcAsset <$> Mux.Body.Sources (Mux.body mux) →
     p !! a = Some (total srcAsset srcAmount a (Mux.Body.Sources (Mux.body mux))
                    - total destAsset destAmount a pre)) ∧
  (Mux_program_ok s mux → Mux_sources_ok s mux → Mux_destinations_ok s mux →
   ∀ p0 a,
     addSources ∅ 0 (Mux.Body.Sources (Mux.body mux)) = inr p0 →
     (∀ dest, dest ∈ Mux.Witness.Destinations (Mux.witness mux) →
              destAsset dest ∈ srcAsset <$> Mux.Body.Sources (Mux.body mux)) →
     a ∈ srcAsset <$> Mux.Body.Sources (Mux.body mux) →
     total srcAsset srcAmount a (Mux.Body.Sources (Mux.body mux))
       < total destAsset destAmount a (Mux.Witness.Destinations (Mux.witness mux)) →
     ∃ format args,
       (Mux_CheckValid mux state h).2 = Fail (WithDetailf errUnbalanced format args) ∨
       (Mux_CheckValid mux state h).2 = Fail (WithDetailf errOverflow format args)) ∧
  (Mux_program_ok s mux → Mux_sources_ok s mux → Mux_destinations_ok s mux →
   ∀ assetA,
     valueSource.Value <$> Mux.Body.Sources (Mux.body mux) =
       [AssetAmount.mk assetA 100] →
     ValueDestination.Value <$> Mux.Witness.Destinations (Mux.witness mux) =
       [AssetAmount.mk assetA 100; AssetAmount.mk assetA 1] →
     (Mux_CheckValid mux state h).2 =
     Fail (WithDetailf errUnbalanced
             "asset %x sources - destinations = %d (should be 0)"
             [ArgBytes (hash_bytes assetA); ArgInt (-1)])).
Proof.
  intros Hs. rewrite (Mux_CheckValid_result mux state s h Hs).
  split; [|split; [|split]].
  - intros format args Hr.
    destruct (Mux_verdict_cases s mux)
      as [(Hp & Hsrc & Hdst & Hb & Hk)|[_ _]].
    { rewrite Hk in Hr. by apply extHashVerdict_not_detail in Hr. }
    unfold Mux_verdict in Hr.
    destruct (Verify _) as [err|]; [done|].
    destruct (descend valueSource_CheckValid _ _ _ _ _) as [[]|e|] eqn:D1;
      [|apply descend_Fail in D1 as (? & ? & ->); done|done].
    destruct (descend ValueDestination_CheckValid _ _ _ _ _) as [[]|e|] eqn:D2;
      [|apply descend_Fail in D2 as (? & ? & ->); done|done].
    unfold parityVerdict in Hr.
    destruct (addSources _ _ _) as [e|p0] eqn:H0.
    { apply addSources_inl in H0 as (? & ? & ->). done. }
    destruct (subDestinations _ _ _) as [e|p] eqn:H1.
    + apply subDestinations_inl in H1
        as (pre & d & post & p1 & Hd & Hpre & [[Hl ->]|(sum & _ & _ & ->)]);
        [|done].
      injection Hr as <- <-. exists (length pre), d.
      split; [rewrite Hd; by apply list_lookup_middle|].
      split; [done|].
      apply addSources_inr in H0 as [_ Hd0].
      apply subDestinations_inr in Hpre as [_ Hd1].
      intros Hin. apply eq_None_not_Some in Hl. apply Hl.
      apply Hd1, Hd0. by right.
    + destruct (checkResiduals _) as [e|[]] eqn:Hc.
      * apply checkResiduals_inl in Hc as (? & ? & _ & _ & ->). done.
      * by apply extHashVerdict_not_detail in Hr.
  - intros p0 pre post p a H0 _ Hpre Hin.
    rewrite (parity_lookup _ pre p0 p a H0 Hpre).
    by rewrite decide_True.
  - intros Hp Hsrc Hdst p0 a H0 Hall Hin Hlt.
    rewrite (Mux_verdict_children_ok s mux Hp Hsrc Hdst).
    destruct (subDestinations p0 0 (Mux.Witness.Destinations (Mux.witness mux)))
      as [e|p] eqn:H1.
    + unfold parityVerdict. rewrite H0, H1.
      apply subDestinations_inl in H1
        as (pre & d & post & p1 & Hd & Hpre & [[Hl ->]|(sum & _ & _ & ->)]);
        [|eauto].
      apply eq_None_not_Some in Hl. destruct Hl.
      apply addSources_inr in H0 as [_ Hd0].
      apply subDestinations_inr in Hpre as [_ Hd1].
      apply Hd1, Hd0. right. apply Hall. rewrite Hd.
      apply elem_of_app. right. left.
    + destruct (parityVerdict_residuals mux p0 p
                  (extHashVerdict s (Mux.Body.ExtHash (Mux.body mux))) H0 H1)
        as [[Hz _]|(a' & v & _ & _ & ->)]; [|eauto].
      specialize (Hz a). rewrite (parity_lookup _ _ p0 p a H0 H1) in Hz.
      rewrite decide_True in Hz by done. specialize (Hz _ eq_refl). lia.
  - intros Hp Hsrc Hdst assetA Hsv Hdv.
    rewrite (Mux_verdict_children_ok s mux Hp Hsrc Hdst).
    destruct (parity_one_source_two_destinations _ _ assetA 100 100 1 Hsv Hdv)
      as (p0 & H0 & H1); [lia|lia|unfold MaxInt64; lia|].
    destruct (parityVerdict_residuals mux p0 _
                (extHashVerdict s (Mux.Body.ExtHash (Mux.body mux))) H0 H1)
      as [[Hz Hk]|(a & v & Hl & Hne & Hk)].
    + specialize (Hz assetA (100 - 100 - 1)).
      rewrite lookup_singleton_eq in Hz. by specialize (Hz eq_refl).
    + apply lookup_singleton_Some in Hl as [<- <-]. exact Hk.
Qed.

(** * Further properties of [Mux.CheckValid] and [Nonce.CheckValid] *)

(** ** Conservation of value, for amounts in the signed 64-bit range *)

(** The amounts of the sources and of the destinations are at most the
    signed 64-bit maximum (they are [uint64], hence not negative). *)
Definition amounts_in_range (mux : Mux.t) : Prop :=
  (∀ src, src ∈ Mux.Body.Sources (Mux.body mux) →
     0 ≤ AssetAmount.Amount (valueSource.Value src) ≤ MaxInt64) ∧
  (∀ dest, dest ∈ Mux.Witness.Destinations (Mux.witness mux) →
     0 ≤ AssetAmount.Amount (ValueDestination.Value dest) ≤ MaxInt64).

(** The sums of the amounts, as they are stored, of the sources and of the
    destinations of an asset. *)
Definition sourceTotal (a : AssetID) (srcs : list valueSource.t) : Z :=
  total srcAsset (λ src, AssetAmount.Amount (valueSource.Value src)) a srcs.
Definition destinationTotal (a : AssetID) (dests : list ValueDestination.t) : Z :=
  total destAsset (λ dest, AssetAmount.Amount (ValueDestination.Value dest)) a dests.

(** Every value of the parity map is a signed 64-bit number. *)
Definition parity_int64 (p : gmap AssetID Z) : Prop := ∀ a, is_int64 (index p a).

Lemma parity_int64_empty : parity_int64 ∅.
Proof.
  intros a. unfold index. rewrite lookup_empty. simpl.
  unfold is_int64, MinInt64, MaxInt64. lia.
Qed.

Lemma parity_int64_insert p a v :
  parity_int64 p → is_int64 v → parity_int64 (<[a := v]> p).
Proof.
  intros Hp Hv a'. rewrite index_insert. by destruct (decide _).
Qed.

Lemma total_nonneg {A} (asset : A → AssetID) amount a (xs : list A) :
  (∀ x, x ∈ xs → 0 ≤ amount x) → 0 ≤ total asset amount a xs.
Proof.
  induction xs as [|x xs IH]; intros H; simpl; [done|].
  assert (0 ≤ amount x) by (apply H; left).
  assert (0 ≤ total asset amount a xs) by (apply IH; intros y Hy; apply H; by right).
  destruct (decide _); lia.
Qed.

Lemma total_not_elem {A} (asset : A → AssetID) amount a (xs : list A) :
  a ∉ asset <$> xs → total asset amount a xs = 0.
Proof.
  induction xs as [|x xs IH]; intros H; simpl in *; [done|].
  apply not_elem_of_cons in H as [Hne Hnin].
  rewrite decide_False by done. rewrite IH by done. done.
Qed.

Lemma total_Permutation {A} (asset : A → AssetID) amount a (xs ys : list A) :
  xs ≡ₚ ys → total asset amount a xs = total asset amount a ys.
Proof.
  induction 1 as [|x xs ys _ IH|x y xs|xs ys zs _ IH1 _ IH2]; simpl;
    [done|by rewrite IH|lia|congruence].
Qed.

Lemma addSources_int64 srcs : ∀ p i p',
  addSources p i srcs = inr p' → parity_int64 p → parity_int64 p'.
Proof.
  induction srcs as [|src rest IH]; intros p i p' H Hp; simpl in H.
  - by injection H as <-.
  - unfold checked.AddInt64 in H. case_bool_decide as Hr; simpl in H; [|done].
    eapply IH; [exact H|]. by apply parity_int64_insert.
Qed.

(** The loop over the sources completes when no asset's sum exceeds the
    signed 64-bit maximum. *)
Lemma addSources_succeeds srcs : ∀ p i,
  (∀ src, src ∈ srcs → 0 ≤ srcAmount src) →
  parity_int64 p →
  (∀ a, index p a + total srcAsset srcAmount a srcs ≤ MaxInt64) →
  ∃ p', addSources p i srcs = inr p'.
Proof.
  induction srcs as [|src rest IH]; intros p i Hpos Hp Hb; simpl.
  - by eexists.
  - assert (0 ≤ srcAmount src) as H0 by (apply Hpos; left).
    assert (∀ a, 0 ≤ total srcAsset srcAmount a rest) as Hrest.
    { intros a. apply total_nonneg. intros y Hy. apply Hpos. by right. }
    pose proof (Hb (srcAsset src)) as Hb1. simpl in Hb1.
    rewrite decide_True in Hb1 by done.
    pose proof (Hp (srcAsset src)) as [Hlo Hhi]. pose proof (Hrest (srcAsset src)).
    unfold checked.AddInt64. fold (srcAsset src). fold (srcAmount src).
    rewrite bool_decide_eq_true_2 by lia. simpl.
    apply IH.
    + intros y Hy. apply Hpos. by right.
    + apply parity_int64_insert; [done|]. split; lia.
    + intros a. rewrite index_insert. specialize (Hb a). simpl in Hb.
      destruct (decide (srcAsset src = a)) as [->|]; lia.
Qed.

Lemma subDestinations_int64 dests : ∀ p i p',
  subDestinations p i dests = inr p' → parity_int64 p → parity_int64 p'.
Proof.
  induction dests as [|dest rest IH]; intros p i p' H Hp; simpl in H.
  - by injection H as <-.
  - destruct (p !! _) as [sum|]; [|done].
    unfold checked.SubInt64 in H. case_bool_decide as Hr; simpl in H; [|done].
    eapply IH; [exact H|]. by apply parity_int64_insert.
Qed.

(** A destination that the loop has processed had an entry. *)
Lemma subDestinations_entries dests : ∀ p i p',
  subDestinations p i dests = inr p' →
  ∀ dest, dest ∈ dests → is_Some (p !! destAsset dest).
Proof.
  induction dests as [|d rest IH]; intros p i p' H dest Hin; simpl in H.
  - by apply elem_of_nil in Hin.
  - destruct (p !! _) as [sum|] eqn:Hl; [|done].
    destruct (checked.SubInt64 _ _) as [diff [|]]; simpl in H; [|done].
    apply elem_of_cons in Hin as [->|Hin]; [unfold destAsset; by rewrite Hl|].
    specialize (IH _ _ _ H dest Hin). rewrite lookup_insert in IH.
    destruct (decide _) as [Heq|]; [|done]. rewrite <- Heq. by rewrite Hl.
Qed.

(** The loop over the destinations completes when every destination has an
    entry and no asset is drawn below the signed 64-bit minimum. *)
Lemma subDestinations_succeeds dests : ∀ p i,
  (∀ dest, dest ∈ dests → 0 ≤ destAmount dest) →
  (∀ dest, dest ∈ dests → is_Some (p !! destAsset dest)) →
  parity_int64 p →
  (∀ a, MinInt64 ≤ index p a - total destAsset destAmount a dests) →
  ∃ p', subDestinations p i dests = inr p'.
Proof.
  induction dests as [|dest rest IH]; intros p i Hpos Hent Hp Hb; simpl.
  - by eexists.
  - assert (0 ≤ destAmount dest) as H0 by (apply Hpos; left).
    assert (∀ a, 0 ≤ total destAsset destAmount a rest) as Hrest.
    { intros a. apply total_nonneg. intros y Hy. apply Hpos. by right. }
    destruct (Hent dest) as [sum Hl]; [left|].
    fold (destAsset dest). fold (destAmount dest). rewrite Hl.
    pose proof (Hb (destAsset dest)) as Hb1. simpl in Hb1.
    rewrite decide_True in Hb1 by done.
    pose proof (Hp (destAsset dest)) as [Hlo Hhi]. pose proof (Hrest (destAsset dest)).
    rewrite (index_Some _ _ _ Hl) in Hb1, Hlo, Hhi.
    unfold checked.SubInt64.
    rewrite bool_decide_eq_true_2 by lia. simpl.
    apply IH.
    + intros y Hy. apply Hpos. by right.
    + intros y Hy. rewrite lookup_insert.
      destruct (decide _); [done|]. apply Hent. by right.
    + apply parity_int64_insert; [done|]. split; lia.
    + intros a. rewrite index_insert. specialize (Hb a). simpl in Hb.
      destruct (decide (destAsset dest = a)) as [<-|]; [|lia].
      rewrite (index_Some _ _ _ Hl) in Hb. lia.
Qed.

(** Whether the accumulation loops complete with zero residuals, in the
    sums of the amounts as the loops read them. *)
Lemma Mux_balanced_iff srcs dests E prog args :
  (∀ src, src ∈ srcs → 0 ≤ srcAmount src) →
  (∀ dest, dest ∈ dests → 0 ≤ destAmount dest) →
  Mux_balanced (Mux.mk (Mux.Body.mk srcs prog E) (Mux.Witness.mk dests args)) ↔
  (∀ dest, dest ∈ dests → destAsset dest ∈ srcAsset <$> srcs) ∧
  (∀ a, total srcAsset srcAmount a srcs ≤ MaxInt64) ∧
  (∀ a, total srcAsset srcAmount a srcs = total destAsset destAmount a dests).
Proof.
  intros Hps Hpd. unfold Mux_balanced. simpl. split.
  - intros (p0 & p & H0 & H1 & Hz).
    pose proof (addSources_inr _ _ _ _ H0) as [Hv0 Hd0].
    pose proof (addSources_int64 _ _ _ _ H0 parity_int64_empty) as Hi0.
    assert (∀ dest, dest ∈ dests → destAsset dest ∈ srcAsset <$> srcs) as Hsub.
    { intros dest Hin.
      apply (subDestinations_entries _ _ _ _ H1), Hd0 in Hin
        as [[? Hin]|Hin]; [by rewrite lookup_empty in Hin|done]. }
    split; [done|]. split.
    + intros a. specialize (Hv0 a). specialize (Hi0 a) as [_ Hhi].
      unfold index in Hv0 at 2. rewrite lookup_empty in Hv0. simpl in Hv0. lia.
    + intros a. pose proof (parity_lookup _ _ _ _ a H0 H1) as Hl.
      destruct (decide (a ∈ srcAsset <$> srcs)) as [Hin|Hnin].
      * specialize (Hz _ _ Hl). lia.
      * rewrite (total_not_elem _ _ _ _ Hnin).
        rewrite total_not_elem; [done|].
        intros (dest & -> & Hd)%list_elem_of_fmap. by apply Hnin, Hsub.
  - intros (Hsub & Hmax & Heq).
    destruct (addSources_succeeds srcs ∅ 0 Hps parity_int64_empty) as [p0 H0].
    { intros a. unfold index. rewrite lookup_empty. simpl. apply Hmax. }
    pose proof (addSources_inr _ _ _ _ H0) as [Hv0 Hd0].
    pose proof (addSources_int64 _ _ _ _ H0 parity_int64_empty) as Hi0.
    destruct (subDestinations_succeeds dests p0 0 Hpd) as [p H1]; [|done|..].
    { intros dest Hin. apply Hd0. right. by apply Hsub. }
    { intros a. rewrite Hv0, Heq. unfold index. rewrite lookup_empty. simpl.
      unfold MinInt64. lia. }
    exists p0, p. split; [done|]. split; [done|].
    intros a v Hl. rewrite (parity_lookup _ _ _ _ a H0 H1) in Hl.
    destruct (decide _); [|done]. injection Hl as <-. rewrite Heq. lia.
Qed.

Lemma srcAmount_in_range src :
  0 ≤ AssetAmount.Amount (valueSource.Value src) ≤ MaxInt64 →
  srcAmount src = AssetAmount.Amount (valueSource.Value src).
Proof. apply int64_small. Qed.

Lemma destAmount_in_range dest :
  0 ≤ AssetAmount.Amount (ValueDestination.Value dest) ≤ MaxInt64 →
  destAmount dest = AssetAmount.Amount (ValueDestination.Value dest).
Proof. apply int64_small. Qed.

Lemma total_src_in_range a srcs :
  (∀ src, src ∈ srcs → 0 ≤ AssetAmount.Amount (valueSource.Value src) ≤ MaxInt64) →
  total srcAsset srcAmount a srcs = sourceTotal a srcs.
Proof. intros H. apply total_ext. intros src Hin. by apply srcAmount_in_range, H. Qed.

Lemma total_dest_in_range a dests :
  (∀ dest, dest ∈ dests →
     0 ≤ AssetAmount.Amount (ValueDestination.Value dest) ≤ MaxInt64) →
  total destAsset destAmount a dests = destinationTotal a dests.
Proof. intros H. apply total_ext. intros d Hin. by apply destAmount_in_range, H. Qed.

(** With the program and the children validating, the balance check is
    passed exactly by the balanced Muxes. *)
Lemma Mux_passes_balance_iff state s (h : heap) mux :
  h !! state = Some s →
  Mux_program_ok s mux → Mux_sources_ok s mux → Mux_destinations_ok s mux →
  (Mux_CheckValid mux state h).2 =
    (checkExtHash state (Mux.Body.ExtHash (Mux.body mux)) h).2
  ↔ Mux_balanced mux.
Proof.
  intros Hs Hp Hsrc Hdst.
  rewrite (Mux_CheckValid_result mux state s h Hs), (checkExtHash_run _ s _ _ Hs).
  rewrite (Mux_verdict_children_ok s mux Hp Hsrc Hdst). simpl.
  destruct (parityVerdict_cases mux
              (extHashVerdict s (Mux.Body.ExtHash (Mux.body mux))))
    as [[Hb ->]|[Hnb (e & format & args & ->)]]; [done|].
  split; [|done]. intros Heq. symmetry in Heq.
  by apply extHashVerdict_not_detail in Heq.
Qed.

(** X1.  Conservation.  For a Mux whose amounts are at most the signed
    64-bit maximum and whose program, sources and destinations validate:
    [Mux.CheckValid] gets past the balance check (returns what the
    extension hash rule returns) if and only if every destination is of an
    asset that some source carries, no asset's sources sum to more than the
    signed 64-bit maximum, and for every asset the amounts of the sources
    sum to the amounts of the destinations. *)
Theorem mux_conservation (state : loc) (s : validationState) (h : heap)
    (mux : Mux.t) :
  h !! state = Some s →
  Mux_program_ok s mux → Mux_sources_ok s mux → Mux_destinations_ok s mux →
  amounts_in_range mux →
  (Mux_CheckValid mux state h).2 =
    (checkExtHash state (Mux.Body.ExtHash (Mux.body mux)) h).2
  ↔ (∀ dest, dest ∈ Mux.Witness.Destinations (Mux.witness mux) →
       destAsset dest ∈ srcAsset <$> Mux.Body.Sources (Mux.body mux)) ∧
    (∀ a, sourceTotal a (Mux.Body.Sources (Mux.body mux)) ≤ MaxInt64) ∧
    (∀ a, sourceTotal a (Mux.Body.Sources (Mux.body mux)) =
          destinationTotal a (Mux.Witness.Destinations (Mux.witness mux))).
Proof.
  intros Hs Hp Hsrc Hdst [Hrs Hrd].
  rewrite (Mux_passes_balance_iff state s h mux Hs Hp Hsrc Hdst).
  destruct mux as [[srcs prog E] [dests args]]. simpl in *.
  rewrite Mux_balanced_iff.
  - setoid_rewrite (λ a, total_src_in_range a srcs Hrs).
    by setoid_rewrite (λ a, total_dest_in_range a dests Hrd).
  - intros src Hin. rewrite srcAmount_in_range by by apply Hrs. by apply Hrs.
  - intros d Hin. rewrite destAmount_in_range by by apply Hrd. by apply Hrd.
Qed.

(** ** One amount changed *)

Lemma total_insert {A} (asset : A → AssetID) amount a (xs : list A) : ∀ (i : nat) x x',
  xs !! i = Some x → asset x' = asset x →
  total asset amount a (<[i := x']> xs) =
  total asset amount a xs + (if decide (asset x = a) then amount x' - amount x else 0).
Proof.
  induction xs as [|y xs IH]; intros [|i] x x' Hi Ha; simpl in *; try done.
  - injection Hi as ->. rewrite Ha. destruct (decide _); lia.
  - rewrite (IH i x x' Hi Ha). destruct (decide (asset y = a)), (decide (asset x = a)); lia.
Qed.

Lemma fmap_insert_same {A} (asset : A → AssetID) (xs : list A) (i : nat) x x' :
  xs !! i = Some x → asset x' = asset x → asset <$> <[i := x']> xs = asset <$> xs.
Proof.
  intros Hi Ha. rewrite list_fmap_insert, Ha.
  apply list_insert_id. by rewrite list_lookup_fmap, Hi.
Qed.

(** A Mux in which one asset alone is out of balance, by [δ]: the result of
    the parity loops is [errUnbalanced] for that asset and [δ], in whatever
    order the map is iterated. *)
Lemma parityVerdict_single_residual mux a0 δ k :
  (∀ src, src ∈ Mux.Body.Sources (Mux.body mux) → 0 ≤ srcAmount src) →
  (∀ dest, dest ∈ Mux.Witness.Destinations (Mux.witness mux) → 0 ≤ destAmount dest) →
  (∀ dest, dest ∈ Mux.Witness.Destinations (Mux.witness mux) →
     destAsset dest ∈ srcAsset <$> Mux.Body.Sources (Mux.body mux)) →
  (∀ a, total srcAsset srcAmount a (Mux.Body.Sources (Mux.body mux)) ≤ MaxInt64) →
  a0 ∈ srcAsset <$> Mux.Body.Sources (Mux.body mux) →
  δ ≠ 0 → MinInt64 ≤ δ →
  (∀ a, total srcAsset srcAmount a (Mux.Body.Sources (Mux.body mux))
        - total destAsset destAmount a (Mux.Witness.Destinations (Mux.witness mux))
        = if decide (a = a0) then δ else 0) →
  parityVerdict mux k =
  Fail (WithDetailf errUnbalanced
          "asset %x sources - destinations = %d (should be 0)"
          [ArgBytes (hash_bytes a0); ArgInt δ]).
Proof.
  intros Hps Hpd Hsub Hmax Hin0 Hne Hlo Hdiff.
  destruct (addSources_succeeds (Mux.Body.Sources (Mux.body mux)) ∅ 0 Hps
              parity_int64_empty) as [p0 H0].
  { intros a. unfold index. rewrite lookup_empty. simpl. apply Hmax. }
  pose proof (addSources_inr _ _ _ _ H0) as [Hv0 Hd0].
  pose proof (addSources_int64 _ _ _ _ H0 parity_int64_empty) as Hi0.
  destruct (subDestinations_succeeds (Mux.Witness.Destinations (Mux.witness mux))
              p0 0 Hpd) as [p H1]; [|done|..].
  { intros dest Hin. apply Hd0. right. by apply Hsub. }
  { intros a. rewrite Hv0. unfold index at 1. rewrite lookup_empty. simpl.
    specialize (Hdiff a). destruct (decide _); unfold MinInt64 in *; lia. }
  destruct (parityVerdict_residuals mux p0 p k H0 H1)
    as [[Hz _]|(a & v & Hl & Hv & ->)].
  - specialize (Hz a0). rewrite (parity_lookup _ _ _ _ a0 H0 H1) in Hz.
    rewrite decide_True in Hz by done. specialize (Hz _ eq_refl).
    specialize (Hdiff a0). rewrite decide_True in Hdiff by done. lia.
  - rewrite (parity_lookup _ _ _ _ a H0 H1) in Hl.
    destruct (decide (a ∈ _)); [|done]. injection Hl as <-.
    specialize (Hdiff a). destruct (decide (a = a0)) as [->|]; [|done].
    by rewrite Hdiff.
Qed.

(** X2.  A balanced Mux with amounts in the signed range stops validating
    when the amount of one destination, or of one source, is changed to
    another amount in range: the result is [errUnbalanced] for the asset of
    that entry, with residual the old amount less the new one for a
    destination, and the new amount less the old one for a source (whose
    new sum must not exceed the signed 64-bit maximum), whatever the order
    in which the parity map is iterated. *)
Theorem mux_one_amount_changed (state : loc) (s : validationState) (h : heap)
    (mux mux' : Mux.t) :
  h !! state = Some s →
  Mux_program_ok s mux' → Mux_sources_ok s mux' → Mux_destinations_ok s mux' →
  amounts_in_range mux → amounts_in_range mux' → Mux_balanced mux →
  (∀ (i : nat) dest dest',
     Mux.Body.Sources (Mux.body mux') = Mux.Body.Sources (Mux.body mux) →
     Mux.Witness.Destinations (Mux.witness mux) !! i = Some dest →
     Mux.Witness.Destinations (Mux.witness mux') =
       <[i := dest']> (Mux.Witness.Destinations (Mux.witness mux)) →
     destAsset dest' = destAsset dest →
     AssetAmount.Amount (ValueDestination.Value dest') ≠
       AssetAmount.Amount (ValueDestination.Value dest) →
     (Mux_CheckValid mux' state h).2 =
     Fail (WithDetailf errUnbalanced
             "asset %x sources - destinations = %d (should be 0)"
             [ArgBytes (hash_bytes (destAsset dest));
              ArgInt (AssetAmount.Amount (ValueDestination.Value dest)
                      - AssetAmount.Amount (ValueDestination.Value dest'))])) ∧
  (∀ (i : nat) src src',
     Mux.Witness.Destinations (Mux.witness mux') =
       Mux.Witness.Destinations (Mux.witness mux) →
     Mux.Body.Sources (Mux.body mux) !! i = Some src →
     Mux.Body.Sources (Mux.body mux') =
       <[i := src']> (Mux.Body.Sources (Mux.body mux)) →
     srcAsset src' = srcAsset src →
     AssetAmount.Amount (valueSource.Value src') ≠
       AssetAmount.Amount (valueSource.Value src) →
     sourceTotal (srcAsset src) (Mux.Body.Sources (Mux.body mux'))
       ≤ MaxInt64 →
     (Mux_CheckValid mux' state h).2 =
     Fail (WithDetailf errUnbalanced
             "asset %x sources - destinations = %d (should be 0)"
             [ArgBytes (hash_bytes (srcAsset src));
              ArgInt (AssetAmount.Amount (valueSource.Value src')
                      - AssetAmount.Amount (valueSource.Value src))])).
Proof.
  intros Hs Hp Hsrc Hdst [Hrs Hrd] [Hrs' Hrd'] Hb.
  rewrite (Mux_CheckValid_result mux' state s h Hs).
  rewrite (Mux_verdict_children_ok s mux' Hp Hsrc Hdst).
  destruct mux as [[srcs prog E] [dests args]].
  destruct mux' as [[srcs' prog' E'] [dests' args']]. simpl in *.
  apply Mux_balanced_iff in Hb as (Hsub & Hmax & Heq).
  2:{ intros x Hx. rewrite srcAmount_in_range by by apply Hrs. by apply Hrs. }
  2:{ intros x Hx. rewrite destAmount_in_range by by apply Hrd. by apply Hrd. }
  assert (∀ x, x ∈ srcs' → 0 ≤ srcAmount x) as Hps'.
  { intros x Hx. rewrite srcAmount_in_range by by apply Hrs'. by apply Hrs'. }
  assert (∀ x, x ∈ dests' → 0 ≤ destAmount x) as Hpd'.
  { intros x Hx. rewrite destAmount_in_range by by apply Hrd'. by apply Hrd'. }
  split.
  - intros i dest dest' -> Hi -> Ha Hne.
    assert (dest ∈ dests) as Hind by (by eapply list_elem_of_lookup_2).
    assert (dest' ∈ <[i:=dest']> dests) as Hind'.
    { eapply list_elem_of_lookup_2. apply list_lookup_insert_eq.
      by eapply lookup_lt_Some. }
    apply parityVerdict_single_residual; simpl; try done.
    + intros d Hd.
      assert (destAsset d ∈ destAsset <$> <[i:=dest']> dests) as Hd'
        by (by apply list_elem_of_fmap_2).
      rewrite (fmap_insert_same destAsset dests i dest dest' Hi Ha) in Hd'.
      apply list_elem_of_fmap in Hd' as (d0 & -> & Hd0). by apply Hsub.
    + by apply Hsub.
    + intros Hz. apply Hne. lia.
    + pose proof (Hrd _ Hind). pose proof (Hrd' _ Hind').
      unfold MinInt64, MaxInt64 in *. lia.
    + intros a. rewrite (total_insert destAsset destAmount a dests i dest dest' Hi Ha).
      rewrite Heq.
      rewrite (destAmount_in_range dest (Hrd _ Hind)),
              (destAmount_in_range dest' (Hrd' _ Hind')).
      destruct (decide (destAsset dest = a)) as [->|Hna].
      * rewrite decide_True by done. lia.
      * rewrite decide_False by done. lia.
  - intros i src src' -> Hi -> Ha Hne Hnew.
    assert (src ∈ srcs) as Hins by (by eapply list_elem_of_lookup_2).
    assert (src' ∈ <[i:=src']> srcs) as Hins'.
    { eapply list_elem_of_lookup_2. apply list_lookup_insert_eq.
      by eapply lookup_lt_Some. }
    pose proof (fmap_insert_same srcAsset srcs i src src' Hi Ha) as Hfm.
    assert (∀ a, total srcAsset srcAmount a (<[i:=src']> srcs) =
                 total srcAsset srcAmount a srcs +
                 (if decide (srcAsset src = a)
                  then AssetAmount.Amount (valueSource.Value src')
                       - AssetAmount.Amount (valueSource.Value src) else 0)) as Ht.
    { intros a. rewrite (total_insert srcAsset srcAmount a srcs i src src' Hi Ha).
      by rewrite (srcAmount_in_range src (Hrs _ Hins)),
                 (srcAmount_in_range src' (Hrs' _ Hins')). }
    apply parityVerdict_single_residual; simpl; try done.
    + intros d Hd. rewrite Hfm. by apply Hsub.
    + intros a. destruct (decide (srcAsset src = a)) as [<-|Hna].
      * by rewrite (total_src_in_range _ _ Hrs').
      * rewrite Ht, decide_False by done. specialize (Hmax a). lia.
    + rewrite Hfm. by apply list_elem_of_fmap_2.
    + intros Hz. apply Hne. lia.
    + pose proof (Hrs _ Hins). pose proof (Hrs' _ Hins').
      unfold MinInt64, MaxInt64 in *. lia.
    + intros a. rewrite Ht, Heq.
      destruct (decide (srcAsset src = a)) as [->|Hna].
      * rewrite decide_True by done. lia.
      * rewrite decide_False by done. lia.
Qed.

(** ** Sources and destinations in another order *)

(** X3.  For Muxes with amounts in the signed range whose programs and
    children validate: a Mux whose sources and destinations are those of
    another Mux in another order gets past the balance check if and only if
    the other does. *)
Theorem mux_balance_reordered (state : loc) (s : validationState) (h : heap)
    (mux mux' : Mux.t) :
  h !! state = Some s →
  Mux_program_ok s mux → Mux_sources_ok s mux → Mux_destinations_ok s mux →
  Mux_program_ok s mux' → Mux_sources_ok s mux' → Mux_destinations_ok s mux' →
  amounts_in_range mux →
  Mux.Body.Sources (Mux.body mux') ≡ₚ Mux.Body.Sources (Mux.body mux) →
  Mux.Witness.Destinations (Mux.witness mux') ≡ₚ
    Mux.Witness.Destinations (Mux.witness mux) →
  (Mux_CheckValid mux state h).2 =
    (checkExtHash state (Mux.Body.ExtHash (Mux.body mux)) h).2
  ↔ (Mux_CheckValid mux' state h).2 =
    (checkExtHash state (Mux.Body.ExtHash (Mux.body mux')) h).2.
Proof.
  intros Hs Hp Hsrc Hdst Hp' Hsrc' Hdst' [Hrs Hrd] HPs HPd.
  rewrite (Mux_passes_balance_iff state s h mux Hs Hp Hsrc Hdst).
  rewrite (Mux_passes_balance_iff state s h mux' Hs Hp' Hsrc' Hdst').
  destruct mux as [[srcs prog E] [dests args]].
  destruct mux' as [[srcs' prog' E'] [dests' args']]. simpl in *.
  assert (∀ x, x ∈ srcs → 0 ≤ srcAmount x) as Hps.
  { intros x Hx. rewrite srcAmount_in_range by by apply Hrs. by apply Hrs. }
  assert (∀ x, x ∈ dests → 0 ≤ destAmount x) as Hpd.
  { intros x Hx. rewrite destAmount_in_range by by apply Hrd. by apply Hrd. }
  assert (∀ x, x ∈ srcs' → 0 ≤ srcAmount x) as Hps'.
  { intros x Hx. apply Hps. by rewrite <- HPs. }
  assert (∀ x, x ∈ dests' → 0 ≤ destAmount x) as Hpd'.
  { intros x Hx. apply Hpd. by rewrite <- HPd. }
  rewrite (Mux_balanced_iff srcs dests E prog args Hps Hpd).
  rewrite (Mux_balanced_iff srcs' dests' E' prog' args' Hps' Hpd').
  setoid_rewrite (λ a, total_Permutation srcAsset srcAmount a _ _ HPs).
  setoid_rewrite (λ a, total_Permutation destAsset destAmount a _ _ HPd).
  split; intros (Hsub & Hmax & Heq); (split; [|done]).
  - intros d Hd. rewrite HPs. apply Hsub. by rewrite <- HPd.
  - intros d Hd. rewrite <- HPs. apply Hsub. by rewrite HPd.
Qed.

(** ** Which error is returned first *)

(** A descent loop over elements that all validate visits each of them
    once; one that meets a failing element stops there. *)
Lemma checkSources_all_ok state s srcs : ∀ i (h : heap),
  h !! state = Some s →
  (∀ (k : nat) x, srcs !! k = Some x →
     (valueSource_CheckValid x
        (set_sourcePosition (uint64 (Z.of_nat (i + k))) s)).2 = None) →
  ∃ t, length t = length srcs ∧ checkSources state i srcs h = (h ++ t, Ok tt).
Proof.
  induction srcs as [|src rest IH]; intros i h Hs Hok.
  - exists []. by rewrite app_nil_r.
  - rewrite (checkSources_step state s src rest i h Hs). simpl.
    pose proof (Hok 0%nat src eq_refl) as H0. rewrite Nat.add_0_r in H0.
    rewrite H0.
    destruct (IH (S i) (h ++ [(valueSource_CheckValid src
                (set_sourcePosition (uint64 (Z.of_nat i)) s)).1]))
      as (t & Hlen & Ht); [by apply lookup_app_Some| |].
    { intros k x Hk. replace (S i + k)%nat with (i + S k)%nat by lia.
      by apply Hok. }
    exists ((valueSource_CheckValid src
               (set_sourcePosition (uint64 (Z.of_nat i)) s)).1 :: t).
    split; [simpl; by rewrite Hlen|].
    rewrite Ht. by rewrite <- app_assoc.
Qed.

Lemma checkSources_first_failure state s src post err : ∀ pre i (h : heap),
  h !! state = Some s →
  (∀ (k : nat) x, pre !! k = Some x →
     (valueSource_CheckValid x
        (set_sourcePosition (uint64 (Z.of_nat (i + k))) s)).2 = None) →
  (valueSource_CheckValid src
     (set_sourcePosition (uint64 (Z.of_nat (i + length pre))) s)).2 = Some err →
  ∃ t, length t = S (length pre) ∧
       checkSources state i (pre ++ src :: post) h =
       (h ++ t, Fail (Wrapf err "checking mux source %d"
                        [ArgInt (Z.of_nat (i + length pre))])).
Proof.
  induction pre as [|x pre IH]; intros i h Hs Hok Herr.
  - simpl app. rewrite (checkSources_step state s src post i h Hs). simpl.
    simpl in Herr. rewrite Nat.add_0_r in *. rewrite Herr. by eexists [_].
  - simpl app. rewrite (checkSources_step state s x (pre ++ src :: post) i h Hs).
    simpl. pose proof (Hok 0%nat x eq_refl) as H0. rewrite Nat.add_0_r in H0.
    rewrite H0.
    destruct (IH (S i) (h ++ [(valueSource_CheckValid x
                (set_sourcePosition (uint64 (Z.of_nat i)) s)).1]))
      as (t & Hlen & Ht); [by apply lookup_app_Some| | |].
    { intros k y Hk. replace (S i + k)%nat with (i + S k)%nat by lia.
      by apply Hok. }
    { by replace (S i + length pre)%nat with (i + length (x :: pre))%nat
        by (simpl; lia). }
    exists ((valueSource_CheckValid x (set_sourcePosition (uint64 (Z.of_nat i)) s)).1 :: t).
    split; [simpl; by rewrite Hlen|].
    rewrite Ht, <- app_assoc.
    by replace (i + S (length pre))%nat with (S i + length pre)%nat by lia.
Qed.

Lemma checkDestinations_first_failure state s dest post err : ∀ pre i (h : heap),
  h !! state = Some s →
  (∀ (k : nat) x, pre !! k = Some x →
     (ValueDestination_CheckValid x
        (set_destPosition (uint64 (Z.of_nat (i + k))) s)).2 = None) →
  (ValueDestination_CheckValid dest
     (set_destPosition (uint64 (Z.of_nat (i + length pre))) s)).2 = Some err →
  ∃ t, length t = S (length pre) ∧
       checkDestinations state i (pre ++ dest :: post) h =
       (h ++ t, Fail (Wrapf err "checking mux destination %d"
                        [ArgInt (Z.of_nat (i + length pre))])).
Proof.
  induction pre as [|x pre IH]; intros i h Hs Hok Herr.
  - simpl app. rewrite (checkDestinations_step state s dest post i h Hs). simpl.
    simpl in Herr. rewrite Nat.add_0_r in *. rewrite Herr. by eexists [_].
  - simpl app.
    rewrite (checkDestinations_step state s x (pre ++ dest :: post) i h Hs).
    simpl. pose proof (Hok 0%nat x eq_refl) as H0. rewrite Nat.add_0_r in H0.
    rewrite H0.
    destruct (IH (S i) (h ++ [(ValueDestination_CheckValid x
                (set_destPosition (uint64 (Z.of_nat i)) s)).1]))
      as (t & Hlen & Ht); [by apply lookup_app_Some| | |].
    { intros k y Hk. replace (S i + k)%nat with (i + S k)%nat by lia.
      by apply Hok. }
    { by replace (S i + length pre)%nat with (i + length (x :: pre))%nat
        by (simpl; lia). }
    exists ((ValueDestination_CheckValid x (set_destPosition (uint64 (Z.of_nat i)) s)).1 :: t).
    split; [simpl; by rewrite Hlen|].
    rewrite Ht, <- app_assoc.
    by replace (i + S (length pre))%nat with (S i + length pre)%nat by lia.
Qed.

(** X4.  The order of the checks of [Mux.CheckValid].  A program that
    fails is reported, wrapped, before anything else, and the store is left
    as it was: no source or destination has been visited.  With the program
    verifying, the first source that fails is reported with its index, and
    the store has grown by one cell for each source up to that one: no later
    source and no destination has been visited.  With the program and all
    sources validating, the first destination that fails is reported with
    its index, after one visit to each source and to each destination up to
    that one.  The parity loops are not reached in these cases. *)
Theorem mux_error_precedence (state : loc) (s : validationState) (h : heap)
    (mux : Mux.t) :
  h !! state = Some s →
  (∀ err,
     Verify (newTxVMContext (currentTx s) (EntryMux mux)
               (Mux.Body.Program (Mux.body mux))
               (Mux.Witness.Arguments (Mux.witness mux))) = Some err →
     Mux_CheckValid mux state h = (h, Fail (Wrap err "checking mux program"))) ∧
  (Mux_program_ok s mux →
   ∀ pre src post err,
     Mux.Body.Sources (Mux.body mux) = pre ++ src :: post →
     (∀ (k : nat) x, pre !! k = Some x →
        (valueSource_CheckValid x
           (set_sourcePosition (uint64 (Z.of_nat k)) s)).2 = None) →
     (valueSource_CheckValid src
        (set_sourcePosition (uint64 (Z.of_nat (length pre))) s)).2 = Some err →
     ∃ t, length t = S (length pre) ∧
          Mux_CheckValid mux state h =
          (h ++ t, Fail (Wrapf err "checking mux source %d"
                           [ArgInt (Z.of_nat (length pre))]))) ∧
  (Mux_program_ok s mux → Mux_sources_ok s mux →
   ∀ pre dest post err,
     Mux.Witness.Destinations (Mux.witness mux) = pre ++ dest :: post →
     (∀ (k : nat) x, pre !! k = Some x →
        (ValueDestination_CheckValid x
           (set_destPosition (uint64 (Z.of_nat k)) s)).2 = None) →
     (ValueDestination_CheckValid dest
        (set_destPosition (uint64 (Z.of_nat (length pre))) s)).2 = Some err →
     ∃ t, length t = (length (Mux.Body.Sources (Mux.body mux)) + S (length pre))%nat ∧
          Mux_CheckValid mux state h =
          (h ++ t, Fail (Wrapf err "checking mux destination %d"
                           [ArgInt (Z.of_nat (length pre))]))).
Proof.
  intros Hs. split; [|split].
  - intros err HV. unfold Mux_CheckValid.
    erewrite bind_Ok; [|by apply load_Some]. by rewrite HV.
  - intros Hp pre src post err Hsrcs Hok Herr.
    destruct (checkSources_first_failure state s src post err pre 0 h Hs Hok Herr)
      as (t & Hlen & Ht).
    exists t. split; [done|]. unfold Mux_CheckValid.
    erewrite bind_Ok; [|by apply load_Some].
    unfold Mux_program_ok in Hp. rewrite Hp, Hsrcs.
    erewrite bind_Fail; [|exact Ht]. done.
  - intros Hp Hsrc pre dest post err Hdests Hok Herr.
    destruct (checkSources_all_ok state s (Mux.Body.Sources (Mux.body mux)) 0 h Hs)
      as (t1 & Hlen1 & Ht1); [intros k x Hk; by apply Hsrc|].
    destruct (checkDestinations_first_failure state s dest post err pre 0
                (h ++ t1) (lookup_app_Some h t1 state s Hs) Hok Herr)
      as (t2 & Hlen2 & Ht2).
    exists (t1 ++ t2). split; [rewrite length_app; lia|].
    unfold Mux_CheckValid.
    erewrite bind_Ok; [|by apply load_Some].
    unfold Mux_program_ok in Hp. rewrite Hp, Hdests.
    erewrite bind_Ok; [|exact Ht1].
    erewrite bind_Fail; [|exact Ht2]. by rewrite <- app_assoc.
Qed.

(** ** The program check and the entry *)

(** X6.  The context that [CheckValid] hands to [vm.Verify] is built by
    [newTxVMContext], which ignores its arguments.  So the result of
    [Mux.CheckValid] does not depend on the program or the arguments of the
    Mux, that of [Nonce.CheckValid] does not depend on the program, the
    arguments or the two hashes of the Nonce, and the program of a Mux
    verifies if and only if the program of any Nonce does, in any
    transaction. *)
Theorem program_check_ignores_entry :
  (∀ mux mux' state (h : heap),
     Mux.Body.Sources (Mux.body mux') = Mux.Body.Sources (Mux.body mux) →
     Mux.Body.ExtHash (Mux.body mux') = Mux.Body.ExtHash (Mux.body mux) →
     Mux.Witness.Destinations (Mux.witness mux') =
       Mux.Witness.Destinations (Mux.witness mux) →
     Mux_CheckValid mux' state h = Mux_CheckValid mux state h) ∧
  (∀ n n' state (h : heap),
     Nonce.Body.ExtHash (Nonce.body n') = Nonce.Body.ExtHash (Nonce.body n) →
     Nonce.TimeRange n' = Nonce.TimeRange n →
     Nonce_CheckValid n' state h = Nonce_CheckValid n state h) ∧
  (∀ s s' mux n, Mux_program_ok s mux ↔ Nonce_program_ok s' n).
Proof.
  split; [|split].
  - intros mux mux' state h Hs HE Hd. unfold Mux_CheckValid.
    by rewrite Hs, HE, Hd.
  - intros n n' state h HE Ht. unfold Nonce_CheckValid. by rewrite HE, Ht.
  - done.
Qed.

(** ** A Mux without sources *)

(** X7.  A Mux without sources, whose program and destinations validate:
    without destinations it gets past the balance check; with destinations
    it fails with [errNoSource] for destination 0 and its asset, whatever
    the amounts, zero included. *)
Theorem mux_without_sources (state : loc) (s : validationState) (h : heap)
    (mux : Mux.t) :
  h !! state = Some s →
  Mux_program_ok s mux → Mux_destinations_ok s mux →
  Mux.Body.Sources (Mux.body mux) = [] →
  (Mux.Witness.Destinations (Mux.witness mux) = [] →
   (Mux_CheckValid mux state h).2 =
   (checkExtHash state (Mux.Body.ExtHash (Mux.body mux)) h).2) ∧
  (∀ dest rest,
     Mux.Witness.Destinations (Mux.witness mux) = dest :: rest →
     (Mux_CheckValid mux state h).2 =
     Fail (WithDetailf errNoSource
             "mux destination %d, asset %x, has no corresponding source"
             [ArgInt 0; ArgBytes (hash_bytes (destAsset dest))])).
Proof.
  intros Hs Hp Hdst Hnil.
  assert (Mux_sources_ok s mux) as Hsrc.
  { intros i src Hi. by rewrite Hnil, lookup_nil in Hi. }
  rewrite (Mux_CheckValid_result mux state s h Hs), (checkExtHash_run _ s _ _ Hs).
  rewrite (Mux_verdict_children_ok s mux Hp Hsrc Hdst).
  unfold parityVerdict. rewrite Hnil. simpl. split.
  - intros ->. simpl.
    destruct (checkResiduals (rangeMap ∅)) as [e|[]] eqn:Hc; [|done].
    apply checkResiduals_inl in Hc as (a & v & Hin & _).
    apply elem_of_rangeMap in Hin. by rewrite lookup_empty in Hin.
  - intros dest rest ->. simpl. by rewrite lookup_empty.
Qed.

(** ** A Mux as [NewMux] builds it *)

Lemma total_zero_iff {A} (asset : A → AssetID) amount (xs : list A) :
  (∀ x, x ∈ xs → 0 ≤ amount x) →
  (∀ a, total asset amount a xs = 0) ↔ (∀ x, x ∈ xs → amount x = 0).
Proof.
  intros Hpos. split.
  - intros Hz x Hx. specialize (Hz (asset x)).
    induction xs as [|y xs IH]; [by apply elem_of_nil in Hx|].
    simpl in Hz.
    assert (0 ≤ amount y) by (apply Hpos; left).
    assert (0 ≤ total asset amount (asset x) xs).
    { apply total_nonneg. intros z Hz'. apply Hpos. by right. }
    apply elem_of_cons in Hx as [->|Hx].
    + rewrite decide_True in Hz by done. lia.
    + apply IH; [intros z Hz'; apply Hpos; by right| |done].
      destruct (decide _); lia.
  - intros Hz a. induction xs as [|y xs IH]; simpl; [done|].
    rewrite IH; [|intros z Hz'; apply Hpos; by right|intros z Hz'; apply Hz; by right].
    rewrite (Hz y) by left. by destruct (decide _).
Qed.

(** X8.  [NewMux] keeps the sources and the program it is given and leaves
    the extension hash zero and the destinations empty.  Inside a
    transaction, with its program and its sources validating and amounts in
    the signed range, [Mux.CheckValid] on the new Mux returns nil if and
    only if every source amount is zero: value that enters a Mux must leave
    it through destinations. *)
Theorem NewMux_CheckValid (state : loc) (s : validationState) (h : heap)
    (tx : TxEntries.t) (sources : list valueSource.t) (program : Program.t) :
  h !! state = Some s → currentTx s = Some tx →
  Mux_program_ok s (NewMux sources program) →
  Mux_sources_ok s (NewMux sources program) →
  (∀ src, src ∈ sources →
     0 ≤ AssetAmount.Amount (valueSource.Value src) ≤ MaxInt64) →
  Mux.Body.Sources (Mux.body (NewMux sources program)) = sources ∧
  Mux.Body.Program (Mux.body (NewMux sources program)) = program ∧
  ((Mux_CheckValid (NewMux sources program) state h).2 = Ok tt ↔
   ∀ src, src ∈ sources → AssetAmount.Amount (valueSource.Value src) = 0).
Proof.
  intros Hs Htx Hp Hsrc Hr. split; [done|]. split; [done|].
  assert (Mux_destinations_ok s (NewMux sources program)) as Hdst.
  { intros i d Hi. simpl in Hi. by rewrite lookup_nil in Hi. }
  pose proof (Mux_passes_balance_iff state s h _ Hs Hp Hsrc Hdst) as Hiff.
  rewrite (checkExtHash_run _ s _ _ Hs) in Hiff. simpl in Hiff.
  assert (extHashVerdict s Hash_zero = Ok tt) as HE.
  { unfold extHashVerdict. rewrite Htx.
    rewrite (bool_decide_eq_false_2 (Hash_zero ≠ Hash_zero)) by (intros H; by apply H).
    by rewrite andb_false_r. }
  rewrite HE in Hiff. rewrite Hiff. unfold NewMux.
  assert (∀ x, x ∈ sources → 0 ≤ srcAmount x) as Hps.
  { intros x Hx. rewrite srcAmount_in_range by by apply Hr. by apply Hr. }
  rewrite Mux_balanced_iff; [|done|by intros d Hd%elem_of_nil].
  simpl.
  rewrite <- (total_zero_iff srcAsset
                (λ src, AssetAmount.Amount (valueSource.Value src)) sources)
    by (intros x Hx; by apply Hr).
  split.
  - intros (_ & _ & Heq) a. specialize (Heq a).
    by rewrite (total_src_in_range _ _ Hr) in Heq.
  - intros Hz. split; [by intros d Hd%elem_of_nil|].
    split; intros a; rewrite (total_src_in_range _ _ Hr); unfold sourceTotal;
      rewrite Hz; [unfold MaxInt64; lia|done].
Qed.

(** ** The overflow guard, for amounts in the signed 64-bit range *)

(** X16.  For a Mux whose program and children validate and whose source
    amounts are at most the signed 64-bit maximum: at the first source whose
    amount takes the sum of its asset above the signed 64-bit maximum,
    [Mux.CheckValid] fails with [errOverflow], naming the amount, the asset,
    the index of that source and the sum reached before it. *)
Theorem mux_source_sum_overflow (state : loc) (s : validationState) (h : heap)
    (mux : Mux.t) (pre post : list valueSource.t) (src : valueSource.t) :
  h !! state = Some s →
  Mux_program_ok s mux → Mux_sources_ok s mux → Mux_destinations_ok s mux →
  Mux.Body.Sources (Mux.body mux) = pre ++ src :: post →
  (∀ x, x ∈ pre ++ [src] →
     0 ≤ AssetAmount.Amount (valueSource.Value x) ≤ MaxInt64) →
  (∀ a, sourceTotal a pre ≤ MaxInt64) →
  MaxInt64 < sourceTotal (srcAsset src) pre
             + AssetAmount.Amount (valueSource.Value src) →
  (Mux_CheckValid mux state h).2 =
  Fail (WithDetailf errOverflow
          "adding %d units of asset %x from mux source %d to total %d overflows int64"
          [ArgInt (AssetAmount.Amount (valueSource.Value src));
           ArgBytes (hash_bytes (srcAsset src));
           ArgInt (Z.of_nat (length pre));
           ArgInt (sourceTotal (srcAsset src) pre)]).
Proof.
  intros Hs Hp Hsrc Hdst Hsplit Hr Hpre Hover.
  rewrite (Mux_CheckValid_result mux state s h Hs).
  rewrite (Mux_verdict_children_ok s mux Hp Hsrc Hdst).
  assert (∀ x, x ∈ pre → 0 ≤ AssetAmount.Amount (valueSource.Value x) ≤ MaxInt64)
    as Hrp by (intros x Hx; apply Hr, elem_of_app; by left).
  assert (0 ≤ AssetAmount.Amount (valueSource.Value src) ≤ MaxInt64)
    as Hrs by (apply Hr, elem_of_app; right; left).
  destruct (addSources_succeeds pre ∅ 0) as [p1 H1].
  { intros x Hx. rewrite srcAmount_in_range by by apply Hrp. by apply Hrp. }
  { apply parity_int64_empty. }
  { intros a. unfold index. rewrite lookup_empty. simpl.
    rewrite (total_src_in_range _ _ Hrp). apply Hpre. }
  pose proof (addSources_inr _ _ _ _ H1) as [Hv1 _].
  assert (index p1 (srcAsset src) = sourceTotal (srcAsset src) pre) as Hidx.
  { rewrite Hv1. unfold index. rewrite lookup_empty. simpl.
    by rewrite (total_src_in_range _ _ Hrp). }
  unfold parityVerdict. rewrite Hsplit.
  rewrite (addSources_app_overflow pre src post ∅ 0 p1 H1).
  - by rewrite Hidx.
  - rewrite Hidx, (srcAmount_in_range _ Hrs). unfold is_int64. lia.
Qed.

(** ** The remaining methods of [Mux] and [Nonce] *)

(** [func (Mux) Type() string], [func (Mux) Ordinal() int],
    [func (m *Mux) Body() interface{}],
    [func (m *Mux) Destinations() []ValueDestination] *)
Definition Mux_Type (m : Mux.t) : string := "mux1".
Definition Mux_Ordinal (m : Mux.t) : Z := -1.
Definition Mux_Body (m : Mux.t) : Mux.Body.t := Mux.body m.
Definition Mux_Destinations (m : Mux.t) : list ValueDestination.t :=
  Mux.Witness.Destinations (Mux.witness m).

(** [func (Nonce) Type() string], [func (Nonce) Ordinal() int],
    [func (n *Nonce) Body() interface{}] *)
Definition Nonce_Type (n : Nonce.t) : string := "nonce1".
Definition Nonce_Ordinal (n : Nonce.t) : Z := -1.
Definition Nonce_Body (n : Nonce.t) : Nonce.Body.t := Nonce.body n.

(** [EntryID], applied by [NewNonce] to the time range pointer, is defined
    outside the sources. *)
Variable EntryID : option TimeRange.t → Hash.

(** [func NewNonce(p Program, tr *TimeRange) *Nonce] *)
Definition NewNonce (p : Program.t) (tr : option TimeRange.t) : Nonce.t :=
  Nonce.mk (Nonce.Body.mk p (EntryID tr) Hash_zero)
    (Nonce.Witness.mk [] Hash_zero) tr.

(** X9.  A Nonce as [NewNonce] builds it, checked inside a transaction of
    any version with its program verifying: [Nonce.CheckValid] panics when
    the time range pointer is nil, returns [errZeroTime] when a bound of the
    time range is zero, and nil otherwise; it never returns
    [errNonemptyExtHash], the extension hash of a new Nonce being zero. *)
Theorem NewNonce_CheckValid (state : loc) (s : validationState) (h : heap)
    (tx : TxEntries.t) (p : Program.t) (tr : option TimeRange.t) :
  h !! state = Some s → currentTx s = Some tx →
  Nonce_program_ok s (NewNonce p tr) →
  (Nonce_CheckValid (NewNonce p tr) state h).2 =
  match tr with
  | None => Panic
  | Some t =>
      if decide (TimeRange.Body.MinTimeMS (TimeRange.body t) = 0 ∨
                 TimeRange.Body.MaxTimeMS (TimeRange.body t) = 0)
      then Fail errZeroTime
      else Ok tt
  end.
Proof.
  intros Hs Htx Hp.
  rewrite (Nonce_CheckValid_run _ state s h Hs). simpl.
  unfold Nonce_verdict. rewrite Hp. simpl.
  destruct tr as [t|]; [|done].
  destruct (decide _) as [[Hz|Hz]|Hnz].
  - by rewrite (bool_decide_eq_true_2 _ Hz).
  - rewrite (bool_decide_eq_true_2 _ Hz). by rewrite orb_true_r.
  - rewrite !bool_decide_eq_false_2 by tauto. simpl.
    unfold extHashVerdict. rewrite Htx.
    rewrite (bool_decide_eq_false_2 (Hash_zero ≠ Hash_zero)) by (intros H; by apply H).
    by rewrite andb_false_r.
Qed.

End Validation.

(** * [CheckValid] with its receiver, and callees that may panic

    Above, [CheckValid] takes its entry by value and calls functions that
    return.  In the source the receiver is a pointer, and [vm.Verify] and
    the [CheckValid] of a child may panic.  The definitions below follow the
    same statements with a receiver that may be nil ([None]) and with
    callees that return nil ([Ok]), return an error ([Fail]) or panic. *)

Module Ptr.

(** What the caller gets from a callee that may panic. *)
Definition returned (r : outcome unit) : St heap (option error) :=
  match r with
  | Ok _ => mret None
  | Fail e => mret (Some e)
  | Panic => panic
  end.

(** A call [x.CheckValid(p)]: the callee reads the cell behind [p] and may
    write it, also when it panics. *)
Definition call {A} (f : A → validationState → validationState * outcome unit)
    (x : A) (p : loc) : St heap (option error) :=
  s ← load p;
  let '(s', r) := f x s in
  store p s';; returned r.

Section Panics.

Variable Verify : txVMContext → outcome unit.
Variable valueSource_CheckValid :
  valueSource.t → validationState → validationState * outcome unit.
Variable ValueDestination_CheckValid :
  ValueDestination.t → validationState → validationState * outcome unit.
Variable rangeMap : gmap AssetID Z → list (AssetID * Z).
Hypothesis rangeMap_perm : ∀ m, rangeMap m ≡ₚ map_to_list m.

(** Lines 48-55 of [mux.go]. *)
Fixpoint checkSources (state : loc) (i : nat) (srcs : list valueSource.t)
    : St heap unit :=
  match srcs with
  | [] => mret tt
  | src :: rest =>
      s ← load state;
      srcState ← alloc (set_sourcePosition (uint64 (Z.of_nat i)) s);
      err ← call valueSource_CheckValid src srcState;
      match err with
      | Some err => fail (Wrapf err "checking mux source %d" [ArgInt (Z.of_nat i)])
      | None => checkSources state (S i) rest
      end
  end.

(** Lines 57-64 of [mux.go]. *)
Fixpoint checkDestinations (state : loc) (i : nat)
    (dests : list ValueDestination.t) : St heap unit :=
  match dests with
  | [] => mret tt
  | dest :: rest =>
      s ← load state;
      destState ← alloc (set_destPosition (uint64 (Z.of_nat i)) s);
      err ← call ValueDestination_CheckValid dest destState;
      match err with
      | Some err => fail (Wrapf err "checking mux destination %d" [ArgInt (Z.of_nat i)])
      | None => checkDestinations state (S i) rest
      end
  end.

(** [func (mux *Mux) CheckValid(state *validationState) error].  The
    arguments of [newTxVMContext] are evaluated from left to right:
    [state.currentTx] first, then [mux.body.Program]. *)
Definition Mux_CheckValid (mux : option Mux.t) (state : loc) : St heap unit :=
  s ← load state;
  match mux with
  | None => panic
  | Some mux =>
      err ← returned (Verify (newTxVMContext (currentTx s) (EntryMux mux)
                                (Mux.Body.Program (Mux.body mux))
                                (Mux.Witness.Arguments (Mux.witness mux))));
      match err with
      | Some err => fail (Wrap err "checking mux program")
      | None =>
          checkSources state 0 (Mux.Body.Sources (Mux.body mux));;
          checkDestinations state 0 (Mux.Witness.Destinations (Mux.witness mux));;
          parity ← liftE (addSources ∅ 0 (Mux.Body.Sources (Mux.body mux)));
          parity ← liftE (subDestinations parity 0
                            (Mux.Witness.Destinations (Mux.witness mux)));
          liftE (checkResiduals (rangeMap parity));;
          checkExtHash state (Mux.Body.ExtHash (Mux.body mux))
      end
  end.

(** [func (n *Nonce) CheckValid(state *validationState) error] *)
Definition Nonce_CheckValid (n : option Nonce.t) (state : loc) : St heap unit :=
  s ← load state;
  match n with
  | None => panic
  | Some n =>
      err ← returned (Verify (newTxVMContext (currentTx s) (EntryNonce n)
                                (Nonce.Body.Program (Nonce.body n))
                                (Nonce.Witness.Arguments (Nonce.witness n))));
      match err with
      | Some err => fail (Wrap err "checking nonce program")
      | None =>
          match Nonce.TimeRange n with
          | None => panic
          | Some tr =>
              if bool_decide (TimeRange.Body.MinTimeMS (TimeRange.body tr) = 0)
                 || bool_decide (TimeRange.Body.MaxTimeMS (TimeRange.body tr) = 0)
              then fail errZeroTime
              else checkExtHash state (Nonce.Body.ExtHash (Nonce.body n))
          end
      end
  end.

(** The outcome of a descent loop on the caller's state [s]: the first
    child that does not return nil decides. *)
Fixpoint descend {A} (f : A → validationState → validationState * outcome unit)
    (set : Z → validationState → validationState) (format : string)
    (s : validationState) (i : nat) (xs : list A) : outcome unit :=
  match xs with
  | [] => Ok tt
  | x :: rest =>
      match (f x (set (uint64 (Z.of_nat i)) s)).2 with
      | Ok _ => descend f set format s (S i) rest
      | Fail err => Fail (Wrapf err format [ArgInt (Z.of_nat i)])
      | Panic => Panic
      end
  end.

Definition Mux_verdict (s : validationState) (mux : Mux.t) : outcome unit :=
  match Verify (newTxVMContext (currentTx s) (EntryMux mux)
                  (Mux.Body.Program (Mux.body mux))
                  (Mux.Witness.Arguments (Mux.witness mux))) with
  | Panic => Panic
  | Fail err => Fail (Wrap err "checking mux program")
  | Ok _ =>
      match descend valueSource_CheckValid set_sourcePosition
              "checking mux source %d" s 0 (Mux.Body.Sources (Mux.body mux)) with
      | Ok _ =>
          match descend ValueDestination_CheckValid set_destPosition
                  "checking mux destination %d" s 0
                  (Mux.Witness.Destinations (Mux.witness mux)) with
          | Ok _ =>
              parityVerdict rangeMap mux
                (extHashVerdict s (Mux.Body.ExtHash (Mux.body mux)))
          | o => o
          end
      | o => o
      end
  end.

(** Every child of the list returns nil, each called on [s] with its own
    index as position. *)
Definition all_nil {A} (f : A → validationState → validationState * outcome unit)
    (set : Z → validationState → validationState) (s : validationState)
    (xs : list A) : Prop :=
  ∀ (i : nat) x, xs !! i = Some x → (f x (set (uint64 (Z.of_nat i)) s)).2 = Ok tt.

(** Some child panics, and those before it return nil. *)
Definition one_panics {A} (f : A → validationState → validationState * outcome unit)
    (set : Z → validationState → validationState) (s : validationState)
    (xs : list A) : Prop :=
  ∃ (i : nat) x, xs !! i = Some x ∧
    (f x (set (uint64 (Z.of_nat i)) s)).2 = Panic ∧
    ∀ (j : nat) y, (j < i)%nat → xs !! j = Some y →
      (f y (set (uint64 (Z.of_nat j)) s)).2 = Ok tt.

Lemma returned_run (r : outcome unit) (h : heap) :
  returned r h =
  (h, match r with Ok _ => Ok None | Fail e => Ok (Some e) | Panic => Panic end).
Proof. by destruct r. Qed.

Lemma call_fresh_cell {A} (f : A → validationState → validationState * outcome unit)
    (x : A) (h : heap) (s1 : validationState) :
  call f x (length h) (h ++ [s1]) =
  (h ++ [(f x s1).1],
   match (f x s1).2 with Ok _ => Ok None | Fail e => Ok (Some e) | Panic => Panic end).
Proof.
  unfold call. erewrite bind_Ok; [|apply load_Some, list_lookup_middle; done].
  destruct (f x s1) as [s' r]; simpl.
  unfold mbind, St_bind, store.
  rewrite list_lookup_middle; [|done].
  rewrite (insert_app_r_alt h [s1] (length h)); [|lia].
  rewrite Nat.sub_diag. simpl. rewrite returned_run. by destruct r.
Qed.

Lemma descent_run {A} (f : A → validationState → validationState * outcome unit)
    (set : Z → validationState → validationState) (format : string)
    (loop : loc → nat → list A → St heap unit) state s :
  (∀ i x rest h, loop state i (x :: rest) h =
     (load state ≫= λ s, alloc (set (uint64 (Z.of_nat i)) s) ≫= λ p,
        call f x p ≫= λ err,
        match err with
        | Some err => fail (Wrapf err format [ArgInt (Z.of_nat i)])
        | None => loop state (S i) rest
        end) h) →
  (∀ i h, loop state i [] h = (h, Ok tt)) →
  ∀ xs i (h : heap), h !! state = Some s →
  ∃ t, loop state i xs h = (h ++ t, descend f set format s i xs).
Proof.
  intros Hcons Hnil xs. induction xs as [|x rest IH]; intros i h Hs.
  - exists []. by rewrite app_nil_r, Hnil.
  - rewrite Hcons. erewrite bind_Ok; [|by apply load_Some].
    erewrite bind_Ok; [|reflexivity].
    pose proof (call_fresh_cell f x h (set (uint64 (Z.of_nat i)) s)) as Hc.
    simpl. destruct (f x _) as [s' [[]|e|]]; simpl in Hc |- *.
    + erewrite bind_Ok; [|exact Hc].
      destruct (IH (S i) (h ++ [s'])) as [t Ht]; [by apply lookup_app_Some|].
      exists (s' :: t). rewrite Ht. by rewrite <- app_assoc.
    + erewrite bind_Ok; [|exact Hc]. by eexists.
    + erewrite bind_Panic; [|exact Hc]. by eexists.
Qed.

Lemma checkSources_descend state s srcs i (h : heap) :
  h !! state = Some s →
  ∃ t, checkSources state i srcs h =
       (h ++ t, descend valueSource_CheckValid set_sourcePosition
                  "checking mux source %d" s i srcs).
Proof. by apply (descent_run _ _ _ checkSources). Qed.

Lemma checkDestinations_descend state s dests i (h : heap) :
  h !! state = Some s →
  ∃ t, checkDestinations state i dests h =
       (h ++ t, descend ValueDestination_CheckValid set_destPosition
                  "checking mux destination %d" s i dests).
Proof. by apply (descent_run _ _ _ checkDestinations). Qed.

(** With a receiver and a state, [Mux.CheckValid] decides as [Mux_verdict]
    and only appends cells to the store. *)
Lemma Mux_CheckValid_verdict mux state s (h : heap) :
  h !! state = Some s →
  ∃ t, Mux_CheckValid (Some mux) state h = (h ++ t, Mux_verdict s mux).
Proof.
  intros Hs. unfold Mux_CheckValid, Mux_verdict.
  erewrite bind_Ok; [|by apply load_Some].
  destruct (Verify _) as [[]|err|];
    [|exists []; by rewrite app_nil_r..].
  erewrite bind_Ok; [|reflexivity].
  destruct (checkSources_descend state s (Mux.Body.Sources (Mux.body mux)) 0 h Hs)
    as [t1 H1].
  destruct (descend valueSource_CheckValid _ _ _ _ _) as [[]|e|] eqn:D1;
    [|exists t1; by erewrite bind_Fail|exists t1; by erewrite bind_Panic].
  erewrite bind_Ok; [|exact H1].
  assert ((h ++ t1) !! state = Some s) as Hs1 by by apply lookup_app_Some.
  destruct (checkDestinations_descend state s
              (Mux.Witness.Destinations (Mux.witness mux)) 0 (h ++ t1) Hs1)
    as [t2 H2].
  rewrite <- app_assoc in H2.
  destruct (descend ValueDestination_CheckValid _ _ _ _ _) as [[]|e|] eqn:D2;
    [|exists (t1 ++ t2); by erewrite bind_Fail
     |exists (t1 ++ t2); by erewrite bind_Panic].
  erewrite bind_Ok; [|exact H2].
  exists (t1 ++ t2). unfold parityVerdict.
  destruct (addSources _ _ _) as [e|p0];
    [by erewrite bind_Fail; [|reflexivity]|].
  erewrite bind_Ok; [|reflexivity].
  destruct (subDestinations _ _ _) as [e|p];
    [by erewrite bind_Fail; [|reflexivity]|].
  erewrite bind_Ok; [|reflexivity].
  destruct (checkResiduals _) as [e|[]];
    [by erewrite bind_Fail; [|reflexivity]|].
  erewrite bind_Ok; [|reflexivity].
  apply checkExtHash_run. by apply lookup_app_Some.
Qed.

Lemma descend_all_nil {A} (f : A → validationState → validationState * outcome unit)
    set format s (xs : list A) : ∀ i,
  descend f set format s i xs = Ok tt ↔
  ∀ (k : nat) x, xs !! k = Some x →
    (f x (set (uint64 (Z.of_nat (i + k))) s)).2 = Ok tt.
Proof.
  induction xs as [|x rest IH]; intros i; simpl.
  - split; [intros _ k y Hk; by rewrite lookup_nil in Hk | done].
  - split.
    + intros H [|k] y Hk; simpl in Hk.
      * injection Hk as <-. rewrite Nat.add_0_r.
        by destruct (f x _).2 as [[]| |].
      * destruct (f x _).2; [|done..].
        replace (i + S k)%nat with (S i + k)%nat by lia.
        by eapply IH.
    + intros H. rewrite <- (Nat.add_0_r i) at 1. rewrite (H 0%nat x eq_refl).
      apply IH. intros k y Hk.
      replace (S i + k)%nat with (i + S k)%nat by lia. by apply H.
Qed.

Lemma descend_Panic {A} (f : A → validationState → validationState * outcome unit)
    set format s (xs : list A) : ∀ i,
  descend f set format s i xs = Panic ↔
  ∃ (k : nat) x, xs !! k = Some x ∧
    (f x (set (uint64 (Z.of_nat (i + k))) s)).2 = Panic ∧
    ∀ (j : nat) y, (j < k)%nat → xs !! j = Some y →
      (f y (set (uint64 (Z.of_nat (i + j))) s)).2 = Ok tt.
Proof.
  induction xs as [|x rest IH]; intros i; simpl.
  - split; [done|]. intros (k & y & Hk & _). by rewrite lookup_nil in Hk.
  - destruct (f x (set (uint64 (Z.of_nat i)) s)).2 as [[]|e|] eqn:Hx.
    + rewrite IH. split.
      * intros (k & y & Hk & Hp & Hlt). exists (S k), y.
        split; [done|]. replace (i + S k)%nat with (S i + k)%nat by lia.
        split; [done|]. intros [|j] z Hj Hz; simpl in Hz.
        -- injection Hz as <-. by rewrite Nat.add_0_r.
        -- replace (i + S j)%nat with (S i + j)%nat by lia.
           apply (Hlt j); [lia|done].
      * intros ([|k] & y & Hk & Hp & Hlt); simpl in Hk.
        -- injection Hk as <-. rewrite Nat.add_0_r in Hp. congruence.
        -- exists k, y. split; [done|].
           replace (S i + k)%nat with (i + S k)%nat by lia.
           split; [done|]. intros j z Hj Hz.
           replace (S i + j)%nat with (i + S j)%nat by lia.
           apply (Hlt (S j)); [lia|done].
    + split; [done|]. intros ([|k] & y & Hk & Hp & Hlt); simpl in Hk.
      * injection Hk as <-. rewrite Nat.add_0_r in Hp. congruence.
      * specialize (Hlt 0%nat x). rewrite Nat.add_0_r in Hlt.
        rewrite Hlt in Hx; [done|lia|done].
    + split; [|done]. intros _. exists 0%nat, x.
      split; [done|]. rewrite Nat.add_0_r. split; [done|]. intros j y Hj. lia.
Qed.

Lemma parityVerdict_Panic mux k :
  parityVerdict rangeMap mux k = Panic ↔ Mux_balanced mux ∧ k = Panic.
Proof.
  destruct (parityVerdict_cases rangeMap rangeMap_perm mux k)
    as [[Hb ->]|[Hnb (e & format & args & ->)]].
  - tauto.
  - split; [done|]. by intros [Hb _].
Qed.

(** X5.  When [Mux.CheckValid] panics.  It panics exactly in these cases:
    its state pointer or its receiver is nil; [vm.Verify] panics;
    [vm.Verify] returns nil and the [CheckValid] of a source panics, the
    sources before it having returned nil; all sources return nil and the
    [CheckValid] of a destination panics, the destinations before it having
    returned nil; or the program, the sources, the destinations and the
    balance pass and the state has no current transaction, which only the
    extension hash rule dereferences.  [Nonce.CheckValid] panics exactly
    when its state pointer or its receiver is nil, or [vm.Verify] panics,
    or [vm.Verify] returns nil and the time range pointer is nil, or
    [vm.Verify] returns nil, both bounds of the time range are non-zero and
    the state has no current transaction. *)
Theorem CheckValid_panics (state : loc) (h : heap) :
  (∀ mux,
     (Mux_CheckValid mux state h).2 = Panic ↔
     h !! state = None ∨ mux = None ∨
     ∃ s m, h !! state = Some s ∧ mux = Some m ∧
       let v := Verify (newTxVMContext (currentTx s) (EntryMux m)
                          (Mux.Body.Program (Mux.body m))
                          (Mux.Witness.Arguments (Mux.witness m))) in
       let srcs := Mux.Body.Sources (Mux.body m) in
       let dests := Mux.Witness.Destinations (Mux.witness m) in
       v = Panic ∨
       v = Ok tt ∧
       (one_panics valueSource_CheckValid set_sourcePosition s srcs ∨
        all_nil valueSource_CheckValid set_sourcePosition s srcs ∧
        (one_panics ValueDestination_CheckValid set_destPosition s dests ∨
         all_nil ValueDestination_CheckValid set_destPosition s dests ∧
         Mux_balanced m ∧ currentTx s = None))) ∧
  (∀ n,
     (Nonce_CheckValid n state h).2 = Panic ↔
     h !! state = None ∨ n = None ∨
     ∃ s n0, h !! state = Some s ∧ n = Some n0 ∧
       let v := Verify (newTxVMContext (currentTx s) (EntryNonce n0)
                          (Nonce.Body.Program (Nonce.body n0))
                          (Nonce.Witness.Arguments (Nonce.witness n0))) in
       v = Panic ∨
       v = Ok tt ∧
       (Nonce.TimeRange n0 = None ∨
        ∃ tr, Nonce.TimeRange n0 = Some tr ∧
              TimeRange.Body.MinTimeMS (TimeRange.body tr) ≠ 0 ∧
              TimeRange.Body.MaxTimeMS (TimeRange.body tr) ≠ 0 ∧
              currentTx s = None)).
Proof.
  assert (∀ A (f : A → validationState → validationState * outcome unit)
            set format s xs,
            descend f set format s 0 xs = Ok tt ↔ all_nil f set s xs) as HOk.
  { intros. apply descend_all_nil. }
  assert (∀ A (f : A → validationState → validationState * outcome unit)
            set format s xs,
            descend f set format s 0 xs = Panic ↔ one_panics f set s xs) as HPanic.
  { intros. apply descend_Panic. }
  split.
  - intros [m|]; destruct (h !! state) as [s|] eqn:Hs.
    2,4: (unfold Mux_CheckValid; erewrite bind_Panic; [|by apply load_None];
          split; [by left|done]).
    2:{ unfold Mux_CheckValid. erewrite bind_Ok; [|by apply load_Some].
        split; [intros _; right; by left|done]. }
    destruct (Mux_CheckValid_verdict m state s h Hs) as [t ->]. simpl.
    transitivity
      (let v := Verify (newTxVMContext (currentTx s) (EntryMux m)
                          (Mux.Body.Program (Mux.body m))
                          (Mux.Witness.Arguments (Mux.witness m))) in
       let srcs := Mux.Body.Sources (Mux.body m) in
       let dests := Mux.Witness.Destinations (Mux.witness m) in
       v = Panic ∨
       v = Ok tt ∧
       (one_panics valueSource_CheckValid set_sourcePosition s srcs ∨
        all_nil valueSource_CheckValid set_sourcePosition s srcs ∧
        (one_panics ValueDestination_CheckValid set_destPosition s dests ∨
         all_nil ValueDestination_CheckValid set_destPosition s dests ∧
         Mux_balanced m ∧ currentTx s = None))).
    2:{ split.
        - intros H. right. right. by exists s, m.
        - intros [[=]|[[=]|(s' & m' & [= <-] & [= <-] & H)]]. exact H. }
    cbv zeta. unfold Mux_verdict.
    rewrite <- (HPanic _ valueSource_CheckValid _ "checking mux source %d").
    rewrite <- (HOk _ valueSource_CheckValid _ "checking mux source %d").
    rewrite <- (HPanic _ ValueDestination_CheckValid _ "checking mux destination %d").
    rewrite <- (HOk _ ValueDestination_CheckValid _ "checking mux destination %d").
    destruct (Verify _) as [[]|err|]; [|split; [done|by intros [[=]|[[=] _]]]|tauto].
    destruct (descend valueSource_CheckValid _ _ _ _ _) as [[]|e|].
    2:{ split; [done|]. by intros [[=]|[_ [[=]|[[=] _]]]]. }
    2:{ split; [|done]. intros _. right. split; [done|]. by left. }
    destruct (descend ValueDestination_CheckValid _ _ _ _ _) as [[]|e|].
    2:{ split; [done|]. by intros [[=]|[_ [[=]|[_ [[=]|[[=] _]]]]]]. }
    2:{ split; [|done]. intros _. right. split; [done|]. right.
        split; [done|]. by left. }
    rewrite parityVerdict_Panic. unfold extHashVerdict.
    destruct (currentTx s) as [tx|].
    + split; [by destruct (_ && _); intros [_ [=]]|].
      by intros [[=]|[_ [[=]|[_ [[=]|(_ & _ & [=])]]]]].
    + split; [|intros [[=]|[_ [[=]|[_ [[=]|(_ & Hb & _)]]]]]; done].
      intros [Hb _]. right. split; [done|]. right. split; [done|]. by right.
  - intros [n0|]; destruct (h !! state) as [s|] eqn:Hs.
    2,4: (unfold Nonce_CheckValid; erewrite bind_Panic; [|by apply load_None];
          split; [by left|done]).
    2:{ unfold Nonce_CheckValid. erewrite bind_Ok; [|by apply load_Some].
        split; [intros _; right; by left|done]. }
    unfold Nonce_CheckValid. erewrite bind_Ok; [|by apply load_Some].
    transitivity
      (let v := Verify (newTxVMContext (currentTx s) (EntryNonce n0)
                          (Nonce.Body.Program (Nonce.body n0))
                          (Nonce.Witness.Arguments (Nonce.witness n0))) in
       v = Panic ∨
       v = Ok tt ∧
       (Nonce.TimeRange n0 = None ∨
        ∃ tr, Nonce.TimeRange n0 = Some tr ∧
              TimeRange.Body.MinTimeMS (TimeRange.body tr) ≠ 0 ∧
              TimeRange.Body.MaxTimeMS (TimeRange.body tr) ≠ 0 ∧
              currentTx s = None)).
    2:{ split.
        - intros H. right. right. by exists s, n0.
        - intros [[=]|[[=]|(s' & n' & [= <-] & [= <-] & H)]]. exact H. }
    cbv zeta.
    destruct (Verify _) as [[]|err|].
    2:{ erewrite bind_Ok; [|reflexivity]. split; [done|by intros [[=]|[[=] _]]]. }
    2:{ erewrite bind_Panic; [|reflexivity]. tauto. }
    erewrite bind_Ok; [|reflexivity].
    destruct (Nonce.TimeRange n0) as [tr|].
    2:{ split; [|done]. intros _. right. split; [done|]. by left. }
    case_bool_decide as Hmin; simpl.
    { split; [done|].
      intros [[=]|[_ [[=]|(tr' & [= <-] & ? & _)]]]. done. }
    case_bool_decide as Hmax; simpl.
    { split; [done|].
      intros [[=]|[_ [[=]|(tr' & [= <-] & _ & ? & _)]]]. done. }
    rewrite (checkExtHash_run state s _ h Hs). simpl. unfold extHashVerdict.
    destruct (currentTx s) as [tx|].
    + split; [by destruct (_ && _)|].
      by intros [[=]|[_ [[=]|(tr' & _ & _ & _ & [=])]]].
    + split; [|done]. intros _. right. split; [done|]. right. by exists tr.
Qed.

End Panics.

(** With a receiver and callees that return, these are the methods above:
    same result, same store. *)
Definition returning (r : option error) : outcome unit :=
  match r with
  | None => Ok tt
  | Some e => Fail e
  end.

Definition returning_child {A}
    (f : A → validationState → validationState * option error)
    : A → validationState → validationState * outcome unit :=
  λ x s, ((f x s).1, returning (f x s).2).

Lemma call_returning {A}
    (f : A → validationState → validationState * option error) x p (h : heap) :
  call (returning_child f) x p h = bc.call f x p h.
Proof.
  unfold call, bc.call, returning_child, mbind, St_bind, load.
  destruct (h !! p) as [s|]; [|done].
  destruct (f x s) as [s' r]; simpl. unfold store.
  destruct (h !! p); [|done]. by destruct r.
Qed.

Lemma bind_ext {S A B} (m m' : St S A) (k k' : A → St S B) (s : S) :
  m s = m' s → (∀ a s', k a s' = k' a s') → (m ≫= k) s = (m' ≫= k') s.
Proof.
  intros Hm Hk. unfold mbind, St_bind. rewrite Hm.
  destruct (m' s) as [s' [a| |]]; auto.
Qed.

Lemma checkSources_returning f state srcs : ∀ i (h : heap),
  checkSources (returning_child f) state i srcs h = bc.checkSources f state i srcs h.
Proof.
  induction srcs as [|src rest IH]; intros i h; [done|]. simpl.
  apply bind_ext; [done|]. intros s h1.
  apply bind_ext; [done|]. intros p h2.
  apply bind_ext; [apply call_returning|]. intros [err|] h3; [done|apply IH].
Qed.

Lemma checkDestinations_returning f state dests : ∀ i (h : heap),
  checkDestinations (returning_child f) state i dests h =
  bc.checkDestinations f state i dests h.
Proof.
  induction dests as [|dest rest IH]; intros i h; [done|]. simpl.
  apply bind_ext; [done|]. intros s h1.
  apply bind_ext; [done|]. intros p h2.
  apply bind_ext; [apply call_returning|]. intros [err|] h3; [done|apply IH].
Qed.

Lemma CheckValid_returning Verify src_CheckValid dest_CheckValid rangeMap
    state (h : heap) :
  (∀ mux,
     Mux_CheckValid (λ ctx, returning (Verify ctx)) (returning_child src_CheckValid)
       (returning_child dest_CheckValid) rangeMap (Some mux) state h =
     bc.Mux_CheckValid Verify src_CheckValid dest_CheckValid rangeMap mux state h) ∧
  (∀ n,
     Nonce_CheckValid (λ ctx, returning (Verify ctx)) (Some n) state h =
     bc.Nonce_CheckValid Verify n state h).
Proof.
  split.
  - intros mux. unfold Mux_CheckValid, bc.Mux_CheckValid.
    apply bind_ext; [done|]. intros s h1.
    destruct (Verify _) as [err|]; simpl.
    { by erewrite bind_Ok; [|reflexivity]. }
    erewrite bind_Ok; [|reflexivity].
    apply bind_ext; [apply checkSources_returning|]. intros [] h2.
    apply bind_ext; [apply checkDestinations_returning|]. done.
  - intros n. unfold Nonce_CheckValid, bc.Nonce_CheckValid.
    apply bind_ext; [done|]. intros s h1.
    destruct (Verify _) as [err|]; simpl.
    { by erewrite bind_Ok; [|reflexivity]. }
    by erewrite bind_Ok; [|reflexivity].
Qed.

End Ptr.

(** ** Concrete data *)

Definition Verify_accepts : txVMContext → option error := λ _, None.
Definition source_accepts
    : valueSource.t → validationState → validationState * option error :=
  λ _ s, (s, None).
Definition destination_accepts
    : ValueDestination.t → validationState → validationState * option error :=
  λ _ s, (s, None).

Definition tx_v1 : TxEntries.t := TxEntries.mk (TxEntries.Body.mk 1).
Definition tx_v2 : TxEntries.t := TxEntries.mk (TxEntries.Body.mk 2).

Definition state_in (tx : TxEntries.t) : validationState :=
  mkValidationState 1 Hash_zero (Some tx) Hash_zero 0 0 0 None Hash_zero [].

Definition assetA : AssetID := Hash_fill x01.
Definition assetB : AssetID := Hash_fill x02.
Definition prog1 : Program.t := Program.mk 1 [].

Definition source (a : AssetID) (n : Z) : valueSource.t :=
  valueSource.mk Hash_zero (AssetAmount.mk a n) 0.
Definition destination (a : AssetID) (n : Z) : ValueDestination.t :=
  ValueDestination.mk Hash_zero (AssetAmount.mk a n) 0.

Definition mux_of (srcs : list valueSource.t) (dests : list ValueDestination.t)
    (ExtHash : Hash) : Mux.t :=
  Mux.mk (Mux.Body.mk srcs prog1 ExtHash) (Mux.Witness.mk dests []).

Definition nonce_of (min max : Z) (ExtHash : Hash) : Nonce.t :=
  Nonce.mk (Nonce.Body.mk prog1 Hash_zero ExtHash)
    (Nonce.Witness.mk [] Hash_zero)
    (Some (TimeRange.mk (TimeRange.Body.mk min max))).

(** [Mux.CheckValid] and [Nonce.CheckValid] run with a program and children
    that validate, the entries of the map taken in the order of
    [map_to_list], on a store whose only cell is the caller's state. *)
Definition run_Mux (mux : Mux.t) (s : validationState) : outcome unit :=
  (Mux_CheckValid Verify_accepts source_accepts destination_accepts
     map_to_list mux 0%nat [s]).2.

Definition run_Nonce (n : Nonce.t) (s : validationState) : outcome unit :=
  (Nonce_CheckValid Verify_accepts n 0%nat [s]).2.

Lemma map_to_list_perm (m : gmap AssetID Z) : map_to_list m ≡ₚ map_to_list m.
Proof. reflexivity. Defined.

Lemma mux_of_program_ok s srcs dests E :
  Mux_program_ok Verify_accepts s (mux_of srcs dests E).
Proof. reflexivity. Defined.

Lemma mux_of_sources_ok s srcs dests E :
  Mux_sources_ok source_accepts s (mux_of srcs dests E).
Proof. intros i src _. reflexivity. Defined.

Lemma mux_of_destinations_ok s srcs dests E :
  Mux_destinations_ok destination_accepts s (mux_of srcs dests E).
Proof. intros i dest _. reflexivity. Defined.

Example run_Mux_100_60_40 :
  run_Mux (mux_of [source assetA 100]
             [destination assetA 60; destination assetA 40] Hash_zero)
    (state_in tx_v1) = Ok tt.
Proof. vm_compute. reflexivity. Qed.

Example run_Mux_100_60_41 :
  run_Mux (mux_of [source assetA 100]
             [destination assetA 60; destination assetA 41] Hash_zero)
    (state_in tx_v1) =
  Fail (WithDetailf errUnbalanced
          "asset %x sources - destinations = %d (should be 0)"
          [ArgBytes (hash_bytes assetA); ArgInt (-1)]).
Proof. vm_compute. reflexivity. Qed.

Lemma mux_balance_check_witness :
  run_Mux (mux_of [source assetA 100]
             [destination assetA 60; destination assetA 40] Hash_zero)
    (state_in tx_v1) =
  (checkExtHash 0%nat Hash_zero [state_in tx_v1]).2 ∧
  run_Mux (mux_of [source assetA 100]
             [destination assetA 60; destination assetA 41] Hash_zero)
    (state_in tx_v1) =
  Fail (WithDetailf errUnbalanced
          "asset %x sources - destinations = %d (should be 0)"
          [ArgBytes (hash_bytes assetA); ArgInt (-1)]).
Proof.
  pose proof (mux_balance_check Verify_accepts source_accepts
                destination_accepts map_to_list map_to_list_perm
                0%nat (state_in tx_v1) [state_in tx_v1] eq_refl) as [_ H].
  split.
  - apply (H (mux_of [source assetA 100]
                [destination assetA 60; destination assetA 40] Hash_zero) assetA
             (mux_of_program_ok _ _ _ _) (mux_of_sources_ok _ _ _ _)
             (mux_of_destinations_ok _ _ _ _) eq_refl).
    reflexivity.
  - apply (H (mux_of [source assetA 100]
                [destination assetA 60; destination assetA 41] Hash_zero) assetA
             (mux_of_program_ok _ _ _ _) (mux_of_sources_ok _ _ _ _)
             (mux_of_destinations_ok _ _ _ _) eq_refl).
    reflexivity.
Defined.

(** ** Amounts above the signed 64-bit maximum *)

Example run_Mux_sum_overflows :
  run_Mux (mux_of [source assetA MaxInt64; source assetA 1] [] Hash_zero)
    (state_in tx_v1) =
  Fail (WithDetailf errOverflow
          "adding %d units of asset %x from mux source %d to total %d overflows int64"
          [ArgInt 1; ArgBytes (hash_bytes assetA); ArgInt 1; ArgInt MaxInt64]).
Proof. vm_compute. reflexivity. Qed.

(** C2.  What [Mux.CheckValid] returns for source amounts above the signed
    64-bit maximum, with a program and children that validate.  A single
    source of [2^63] units is converted to [-2^63] and added without an
    overflow error: the result is [errUnbalanced] with residual [-2^63].
    Sources of [2^64 - 1] units and of [1] unit add up to zero and the Mux,
    which has no destination, validates.  One source of [1] unit pays for
    destinations of [2^64 - 1] units and of [2] units. *)
Theorem mux_source_amount_wraps :
  run_Mux (mux_of [source assetA (2 ^ 63)] [] Hash_zero) (state_in tx_v1) =
  Fail (WithDetailf errUnbalanced
          "asset %x sources - destinations = %d (should be 0)"
          [ArgBytes (hash_bytes assetA); ArgInt (- 2 ^ 63)]) ∧
  run_Mux (mux_of [source assetA (2 ^ 64 - 1); source assetA 1] [] Hash_zero)
    (state_in tx_v1) = Ok tt ∧
  run_Mux (mux_of [source assetA 1]
             [destination assetA (2 ^ 64 - 1); destination assetA 2] Hash_zero)
    (state_in tx_v1) = Ok tt.
Proof. vm_compute. repeat split; reflexivity. Qed.

(** C1.  The balance check does not compare the sums of the amounts where
    an amount exceeds the signed 64-bit maximum.  With a program and
    children that validate: sources of [2^64 - 1] units and of [1] unit of
    [assetA], without destinations, bring in [2^64] units of which nothing
    leaves, and [Mux.CheckValid] gets past the balance check and returns
    nil; a single source of [2^64 - 1] units, without destinations, fails
    with [errUnbalanced] naming the residual [-1], where the sources less
    the destinations are [2^64 - 1] units.  The amounts are [uint64]
    values. *)
Theorem mux_balance_wraps :
  0 ≤ 2 ^ 64 - 1 ≤ MaxUint64 ∧
  sourceTotal assetA [source assetA (2 ^ 64 - 1); source assetA 1]
    - destinationTotal assetA [] = 2 ^ 64 ∧
  run_Mux (mux_of [source assetA (2 ^ 64 - 1); source assetA 1] [] Hash_zero)
    (state_in tx_v1) = Ok tt ∧
  sourceTotal assetA [source assetA (2 ^ 64 - 1)] - destinationTotal assetA []
    = 2 ^ 64 - 1 ∧
  run_Mux (mux_of [source assetA (2 ^ 64 - 1)] [] Hash_zero) (state_in tx_v1) =
  Fail (WithDetailf errUnbalanced
          "asset %x sources - destinations = %d (should be 0)"
          [ArgBytes (hash_bytes assetA); ArgInt (-1)]).
Proof. vm_compute. repeat split; (reflexivity || discriminate). Qed.

(** C6.  The subtraction of a destination is not checked where its amount
    exceeds the signed 64-bit maximum.  With the parity of [assetA] at [1],
    subtracting a destination of [2^64 - 1] units gives [2 - 2^64], below
    the signed 64-bit minimum; the loop reports no underflow and stores
    [2].  [Mux.CheckValid] on the source [(assetA, 1)] and that destination,
    with a program and children that validate, fails with [errUnbalanced]
    and residual [2], not with [errOverflow]. *)
Theorem mux_destination_amount_wraps :
  0 ≤ 2 ^ 64 - 1 ≤ MaxUint64 ∧
  1 - (2 ^ 64 - 1) < MinInt64 ∧
  (∃ p, subDestinations {[assetA := 1]} 0 [destination assetA (2 ^ 64 - 1)] = inr p ∧
        p !! assetA = Some 2) ∧
  run_Mux (mux_of [source assetA 1] [destination assetA (2 ^ 64 - 1)] Hash_zero)
    (state_in tx_v1) =
  Fail (WithDetailf errUnbalanced
          "asset %x sources - destinations = %d (should be 0)"
          [ArgBytes (hash_bytes assetA); ArgInt 2]).
Proof.
  split; [by vm_compute|]. split; [by vm_compute|]. split; [|by vm_compute].
  eexists. split.
  - simpl. rewrite lookup_singleton_eq. vm_compute checked.SubInt64. simpl.
    reflexivity.
  - apply lookup_insert_eq.
Qed.

(** C10.  Over-drawing an asset that has a source can pass unreported.
    With a program and children that validate, the source [(assetA, 5)] and
    the destinations [(assetA, 2^64 - 1)] and [(assetA, 6)]: every
    destination is of an asset that has a source, the destinations of
    [assetA] exceed its sources by [2^64], and [Mux.CheckValid] returns nil,
    neither [errUnbalanced] nor [errOverflow]. *)
Theorem mux_overdrawn_validates :
  0 ≤ 2 ^ 64 - 1 ≤ MaxUint64 ∧
  (∀ dest, dest ∈ [destination assetA (2 ^ 64 - 1); destination assetA 6] →
     destAsset dest ∈ srcAsset <$> [source assetA 5]) ∧
  destinationTotal assetA [destination assetA (2 ^ 64 - 1); destination assetA 6]
    - sourceTotal assetA [source assetA 5] = 2 ^ 64 ∧
  run_Mux (mux_of [source assetA 5]
             [destination assetA (2 ^ 64 - 1); destination assetA 6] Hash_zero)
    (state_in tx_v1) = Ok tt.
Proof.
  split; [vm_compute; split; discriminate|]. split; [|by vm_compute].
  intros dest Hd.
  repeat (apply elem_of_cons in Hd as [->|Hd]); [left..|by apply elem_of_nil in Hd].
Qed.

(** ** The order of iteration over the parity map *)

(** C9.  For a parity map [p] and two orderings [l1], [l2] of its entries,
    the loop over the residuals accepts [l1] if and only if it accepts [l2],
    and an error it returns is [errUnbalanced] for an entry of [p] that is
    not zero.  Hence two runs of [Mux.CheckValid] that differ only in the
    order in which the map is iterated return the same result, unless both
    fail with [errUnbalanced]. *)
Theorem balance_check_order_independent :
  (∀ (p : gmap AssetID Z) (l1 l2 : list (AssetID * Z)),
     l1 ≡ₚ map_to_list p → l2 ≡ₚ map_to_list p →
     (checkResiduals l1 = inr tt ↔ checkResiduals l2 = inr tt) ∧
     (∀ e, checkResiduals l1 = inl e →
        ∃ a v, p !! a = Some v ∧ v ≠ 0 ∧
          e = WithDetailf errUnbalanced
                "asset %x sources - destinations = %d (should be 0)"
                [ArgBytes (hash_bytes a); ArgInt v])) ∧
  (∀ Verify f g (r1 r2 : gmap AssetID Z → list (AssetID * Z)) mux state (h : heap),
     (∀ m, r1 m ≡ₚ map_to_list m) → (∀ m, r2 m ≡ₚ map_to_list m) →
     let o1 := (Mux_CheckValid Verify f g r1 mux state h).2 in
     let o2 := (Mux_CheckValid Verify f g r2 mux state h).2 in
     (o1 = Ok tt ↔ o2 = Ok tt) ∧
     (o1 = o2 ∨
      ∃ f1 a1 f2 a2,
        o1 = Fail (WithDetailf errUnbalanced f1 a1) ∧
        o2 = Fail (WithDetailf errUnbalanced f2 a2))).
Proof.
  split.
  - intros p l1 l2 H1 H2. split.
    + rewrite !checkResiduals_inr. by setoid_rewrite H1; setoid_rewrite H2.
    + intros e (a & v & Hin & Hne & ->)%checkResiduals_inl.
      exists a, v. by rewrite H1, elem_of_map_to_list in Hin.
  - intros Verify f g r1 r2 mux state h Hr1 Hr2 o1 o2. subst o1 o2.
    destruct (h !! state) as [s|] eqn:Hs.
    2:{ unfold Mux_CheckValid.
        erewrite !bind_Panic by (by apply load_None). by split; [|left]. }
    rewrite !(Mux_CheckValid_result _ _ _ _ mux state s h Hs).
    unfold Mux_verdict.
    destruct (Verify _); [by split; [|left]|].
    destruct (descend f _ _ _ _ _) as [[]|?|]; [|by split; [|left]..].
    destruct (descend g _ _ _ _ _) as [[]|?|]; [|by split; [|left]..].
    unfold parityVerdict.
    destruct (addSources _ _ _); [by split; [|left]|].
    destruct (subDestinations _ _ _) as [|p]; [by split; [|left]|].
    destruct (checkResiduals (r1 p)) as [e1|[]] eqn:C1;
      destruct (checkResiduals (r2 p)) as [e2|[]] eqn:C2.
    + apply checkResiduals_inl in C1 as (? & ? & _ & _ & ->).
      apply checkResiduals_inl in C2 as (? & ? & _ & _ & ->).
      split; [done|]. right. by repeat eexists.
    + apply checkResiduals_inl in C1 as (a & v & Hin & Hne & _).
      destruct Hne. eapply checkResiduals_inr; [exact C2|].
      by rewrite Hr2, <- Hr1.
    + apply checkResiduals_inl in C2 as (a & v & Hin & Hne & _).
      destruct Hne. eapply checkResiduals_inr; [exact C1|].
      by rewrite Hr1, <- Hr2.
    + by split; [|left].
Qed.

Definition reverse_order (m : gmap AssetID Z) : list (AssetID * Z) :=
  reverse (map_to_list m).

Lemma reverse_order_perm (m : gmap AssetID Z) : reverse_order m ≡ₚ map_to_list m.
Proof. apply reverse_Permutation. Defined.

Definition mux_two_unbalanced : Mux.t :=
  mux_of [source assetA 5; source assetB 7] [] Hash_zero.

Example two_orders_two_errors :
  (Mux_CheckValid Verify_accepts source_accepts destination_accepts
     map_to_list mux_two_unbalanced 0%nat [state_in tx_v1]).2 =
  Fail (WithDetailf errUnbalanced
          "asset %x sources - destinations = %d (should be 0)"
          [ArgBytes (hash_bytes assetB); ArgInt 7]) ∧
  (Mux_CheckValid Verify_accepts source_accepts destination_accepts
     reverse_order mux_two_unbalanced 0%nat [state_in tx_v1]).2 =
  Fail (WithDetailf errUnbalanced
          "asset %x sources - destinations = %d (should be 0)"
          [ArgBytes (hash_bytes assetA); ArgInt 5]).
Proof. vm_compute. split; reflexivity. Qed.

Lemma balance_check_order_independent_witness :
  (Mux_CheckValid Verify_accepts source_accepts destination_accepts
     map_to_list mux_two_unbalanced 0%nat [state_in tx_v1]).2 = Ok tt
  ↔ (Mux_CheckValid Verify_accepts source_accepts destination_accepts
       reverse_order mux_two_unbalanced 0%nat [state_in tx_v1]).2 = Ok tt.
Proof.
  apply (proj2 balance_check_order_independent Verify_accepts source_accepts
           destination_accepts map_to_list reverse_order mux_two_unbalanced
           0%nat [state_in tx_v1] map_to_list_perm reverse_order_perm).
Defined.

(** ** Further runs on concrete data *)

Example run_Mux_ext_hash_v2 :
  run_Mux (mux_of [] [] assetA) (state_in tx_v2) = Ok tt.
Proof. vm_compute. reflexivity. Qed.

Example run_Mux_ext_hash_unbalanced :
  run_Mux (mux_of [source assetA 1] [] assetA) (state_in tx_v1) =
  Fail (WithDetailf errUnbalanced
          "asset %x sources - destinations = %d (should be 0)"
          [ArgBytes (hash_bytes assetA); ArgInt 1]).
Proof. vm_compute. reflexivity. Qed.

Example run_Nonce_zero_time_first :
  run_Nonce (nonce_of 0 5 assetA) (state_in tx_v1) = Fail errZeroTime ∧
  run_Nonce (nonce_of 5 0 Hash_zero) (state_in tx_v1) = Fail errZeroTime ∧
  run_Nonce (nonce_of 5 6 Hash_zero) (state_in tx_v1) = Ok tt ∧
  run_Nonce (nonce_of 5 6 assetA) (state_in tx_v2) = Ok tt.
Proof. vm_compute. repeat split; reflexivity. Qed.

Lemma assetA_nonzero : assetA ≠ Hash_zero.
Proof. intros H. apply (f_equal hash_bytes) in H. discriminate H. Defined.

Lemma mux_of_nil_balanced E : Mux_balanced (mux_of [] [] E).
Proof.
  exists ∅, ∅. split; [reflexivity|]. split; [reflexivity|].
  intros a v H. rewrite lookup_empty in H. discriminate H.
Defined.

Lemma ext_hash_rule_witness :
  run_Mux (mux_of [] [] assetA) (state_in tx_v1) = Fail errNonemptyExtHash ∧
  run_Nonce (nonce_of 1 2 assetA) (state_in tx_v1) = Fail errNonemptyExtHash.
Proof.
  pose proof (ext_hash_rule Verify_accepts source_accepts destination_accepts
                map_to_list map_to_list_perm 0%nat (state_in tx_v1)
                [state_in tx_v1] tx_v1 eq_refl eq_refl) as (HM & HN & _).
  split.
  - destruct (HM (mux_of [] [] assetA)) as [[_ H] _]. apply H.
    split; [|split; [reflexivity|exact assetA_nonzero]].
    split; [apply mux_of_program_ok|].
    split; [apply mux_of_sources_ok|].
    split; [apply mux_of_destinations_ok|apply mux_of_nil_balanced].
  - destruct (HN (nonce_of 1 2 assetA)) as [[_ H] _]. apply H.
    split; [|split; [reflexivity|exact assetA_nonzero]].
    split; [reflexivity|].
    eexists. split; [reflexivity|]. split; discriminate.
Defined.

Lemma nonce_zero_time_witness :
  run_Nonce (nonce_of 0 5 Hash_zero) (state_in tx_v1) = Fail errZeroTime.
Proof.
  apply (nonce_zero_time Verify_accepts 0%nat (state_in tx_v1)
           [state_in tx_v1] (nonce_of 0 5 Hash_zero)
           (TimeRange.mk (TimeRange.Body.mk 0 5)) eq_refl eq_refl eq_refl).
  reflexivity.
Defined.

Lemma mux_destination_checks_witness :
  run_Mux (mux_of [source assetA 100] [destination assetB 1] Hash_zero)
    (state_in tx_v1) =
  Fail (WithDetailf errNoSource
          "mux destination %d, asset %x, has no corresponding source"
          [ArgInt 0; ArgBytes (hash_bytes assetB)]).
Proof.
  apply (mux_destination_checks Verify_accepts source_accepts
           destination_accepts map_to_list 0%nat (state_in tx_v1)
           [state_in tx_v1]
           (mux_of [source assetA 100] [destination assetB 1] Hash_zero)
           {[assetA := 100]} {[assetA := 100]} [] []
           (destination assetB 1) eq_refl
           (mux_of_program_ok _ _ _ _) (mux_of_sources_ok _ _ _ _)
           (mux_of_destinations_ok _ _ _ _) eq_refl eq_refl eq_refl).
  reflexivity.
Defined.

(** Callees that overwrite the positions of the state they are given. *)
Definition source_scribbles
    : valueSource.t → validationState → validationState * option error :=
  λ _ s, (set_destPosition 99 (set_sourcePosition 77 s), None).
Definition destination_scribbles
    : ValueDestination.t → validationState → validationState * option error :=
  λ _ s, (set_destPosition 55 (set_sourcePosition 66 s), None).

Example run_scribbling_callees :
  Mux_CheckValid Verify_accepts source_scribbles destination_scribbles
    map_to_list
    (mux_of [source assetA 3; source assetB 4]
       [destination assetA 3; destination assetB 4] Hash_zero)
    0%nat [state_in tx_v1] =
  ([state_in tx_v1;
    set_destPosition 99 (set_sourcePosition 77 (state_in tx_v1));
    set_destPosition 99 (set_sourcePosition 77 (state_in tx_v1));
    set_destPosition 55 (set_sourcePosition 66 (state_in tx_v1));
    set_destPosition 55 (set_sourcePosition 66 (state_in tx_v1))],
   Ok tt).
Proof. vm_compute. reflexivity. Qed.

Lemma mux_state_copied_witness :
  (Mux_CheckValid Verify_accepts source_scribbles destination_scribbles
     map_to_list
     (mux_of [source assetA 3; source assetB 4]
        [destination assetA 3; destination assetB 4] Hash_zero)
     0%nat [state_in tx_v1]).1 !! 0%nat = Some (state_in tx_v1).
Proof.
  exact (proj1 (proj2 (mux_state_copied Verify_accepts source_scribbles
                         destination_scribbles map_to_list 0%nat
                         (state_in tx_v1) [state_in tx_v1]
                         (mux_of [source assetA 3; source assetB 4]
                            [destination assetA 3; destination assetB 4]
                            Hash_zero) eq_refl))).
Defined.

Lemma mux_no_source_only_without_source_witness :
  run_Mux (mux_of [source assetA 100]
             [destination assetA 100; destination assetA 1] Hash_zero)
    (state_in tx_v1) =
  Fail (WithDetailf errUnbalanced
          "asset %x sources - destinations = %d (should be 0)"
          [ArgBytes (hash_bytes assetA); ArgInt (-1)]).
Proof.
  apply (proj2 (proj2 (proj2
           (mux_no_source_only_without_source Verify_accepts source_accepts
              destination_accepts map_to_list map_to_list_perm 0%nat
              (state_in tx_v1) [state_in tx_v1]
              (mux_of [source assetA 100]
                 [destination assetA 100; destination assetA 1] Hash_zero)
              eq_refl)))
           (mux_of_program_ok _ _ _ _) (mux_of_sources_ok _ _ _ _)
           (mux_of_destinations_ok _ _ _ _) assetA eq_refl eq_refl).
Defined.

(** ** Runs for the further properties *)

Definition mux_2_assets : Mux.t :=
  mux_of [source assetA 7; source assetB 3; source assetA 5]
    [destination assetB 3; destination assetA 12] Hash_zero.

Lemma mux_2_assets_in_range : amounts_in_range mux_2_assets.
Proof.
  split; intros x Hx; vm_compute in Hx;
    repeat (apply elem_of_cons in Hx as [->|Hx]; [vm_compute; split; discriminate|]);
    by apply elem_of_nil in Hx.
Defined.

Lemma mux_conservation_witness :
  run_Mux mux_2_assets (state_in tx_v1) =
    (checkExtHash 0%nat Hash_zero [state_in tx_v1]).2
  ↔ (∀ dest, dest ∈ Mux.Witness.Destinations (Mux.witness mux_2_assets) →
       destAsset dest ∈ srcAsset <$> Mux.Body.Sources (Mux.body mux_2_assets)) ∧
    (∀ a, sourceTotal a (Mux.Body.Sources (Mux.body mux_2_assets)) ≤ MaxInt64) ∧
    (∀ a, sourceTotal a (Mux.Body.Sources (Mux.body mux_2_assets)) =
          destinationTotal a (Mux.Witness.Destinations (Mux.witness mux_2_assets))).
Proof.
  exact (mux_conservation Verify_accepts source_accepts destination_accepts
           map_to_list map_to_list_perm 0%nat (state_in tx_v1)
           [state_in tx_v1] mux_2_assets eq_refl
           (mux_of_program_ok _ _ _ _) (mux_of_sources_ok _ _ _ _)
           (mux_of_destinations_ok _ _ _ _) mux_2_assets_in_range).
Defined.

Example run_mux_2_assets : run_Mux mux_2_assets (state_in tx_v1) = Ok tt.
Proof. vm_compute. reflexivity. Qed.

Lemma mux_2_assets_balanced : Mux_balanced mux_2_assets.
Proof.
  apply (Mux_passes_balance_iff Verify_accepts source_accepts
           destination_accepts map_to_list map_to_list_perm 0%nat
           (state_in tx_v1) [state_in tx_v1] mux_2_assets eq_refl
           (mux_of_program_ok _ _ _ _) (mux_of_sources_ok _ _ _ _)
           (mux_of_destinations_ok _ _ _ _)).
  vm_compute. reflexivity.
Defined.

Definition mux_2_assets_13 : Mux.t :=
  mux_of [source assetA 7; source assetB 3; source assetA 5]
    [destination assetB 3; destination assetA 13] Hash_zero.

Lemma mux_2_assets_13_in_range : amounts_in_range mux_2_assets_13.
Proof.
  split; intros x Hx; vm_compute in Hx;
    repeat (apply elem_of_cons in Hx as [->|Hx]; [vm_compute; split; discriminate|]);
    by apply elem_of_nil in Hx.
Defined.

Lemma mux_one_amount_changed_witness :
  run_Mux mux_2_assets_13 (state_in tx_v1) =
  Fail (WithDetailf errUnbalanced
          "asset %x sources - destinations = %d (should be 0)"
          [ArgBytes (hash_bytes assetA); ArgInt (12 - 13)]).
Proof.
  apply (proj1 (mux_one_amount_changed Verify_accepts source_accepts
                  destination_accepts map_to_list map_to_list_perm 0%nat
                  (state_in tx_v1) [state_in tx_v1] mux_2_assets
                  mux_2_assets_13 eq_refl
                  (mux_of_program_ok _ _ _ _) (mux_of_sources_ok _ _ _ _)
                  (mux_of_destinations_ok _ _ _ _)
                  mux_2_assets_in_range mux_2_assets_13_in_range
                  mux_2_assets_balanced)
           1%nat (destination assetA 12) (destination assetA 13)
           eq_refl eq_refl eq_refl eq_refl).
  discriminate.
Defined.

Definition mux_2_assets_reordered : Mux.t :=
  mux_of [source assetB 3; source assetA 7; source assetA 5]
    [destination assetA 12; destination assetB 3] Hash_zero.

Lemma mux_balance_reordered_witness :
  run_Mux mux_2_assets (state_in tx_v1) =
    (checkExtHash 0%nat Hash_zero [state_in tx_v1]).2
  ↔ run_Mux mux_2_assets_reordered (state_in tx_v1) =
    (checkExtHash 0%nat Hash_zero [state_in tx_v1]).2.
Proof.
  apply (mux_balance_reordered Verify_accepts source_accepts
           destination_accepts map_to_list map_to_list_perm 0%nat
           (state_in tx_v1) [state_in tx_v1] mux_2_assets
           mux_2_assets_reordered eq_refl
           (mux_of_program_ok _ _ _ _) (mux_of_sources_ok _ _ _ _)
           (mux_of_destinations_ok _ _ _ _)
           (mux_of_program_ok _ _ _ _) (mux_of_sources_ok _ _ _ _)
           (mux_of_destinations_ok _ _ _ _) mux_2_assets_in_range).
  - apply perm_swap.
  - apply perm_swap.
Defined.

(** A callee that rejects the source at position 1. *)
Definition source_rejects_1
    : valueSource.t → validationState → validationState * option error :=
  λ _ s, (s, if bool_decide (sourcePosition s = 1)
             then Some (New "bad source") else None).

Lemma mux_error_precedence_witness :
  ∃ t, length t = 2%nat ∧
    Mux_CheckValid Verify_accepts source_rejects_1 destination_accepts
      map_to_list mux_2_assets 0%nat [state_in tx_v1] =
    ([state_in tx_v1] ++ t,
     Fail (Wrapf (New "bad source") "checking mux source %d" [ArgInt 1])).
Proof.
  apply (proj1 (proj2 (mux_error_precedence Verify_accepts source_rejects_1
                         destination_accepts map_to_list 0%nat
                         (state_in tx_v1) [state_in tx_v1] mux_2_assets
                         eq_refl))
           eq_refl [source assetA 7] (source assetB 3) [source assetA 5]
           (New "bad source") eq_refl).
  - intros [|k] x Hk; [reflexivity|discriminate Hk].
  - reflexivity.
Defined.

Definition state_without_tx : validationState :=
  mkValidationState 1 Hash_zero None Hash_zero 0 0 0 None Hash_zero [].

(** A source whose [CheckValid] panics at position 1, among callees that
    return nil. *)
Definition source_panics_at_1
    : valueSource.t → validationState → validationState * outcome unit :=
  λ _ s, (s, if bool_decide (sourcePosition s = 1) then Panic else Ok tt).

Lemma CheckValid_panics_witness :
  (Ptr.Mux_CheckValid (λ _, Ok tt) source_panics_at_1 (λ _ s, (s, Ok tt))
     map_to_list (Some mux_2_assets) 0%nat [state_in tx_v1]).2 = Panic ∧
  (Ptr.Mux_CheckValid (λ _, Ok tt) source_panics_at_1 (λ _ s, (s, Ok tt))
     map_to_list None 0%nat [state_in tx_v1]).2 = Panic ∧
  (Ptr.Nonce_CheckValid (λ _, Ok tt) (Some (nonce_of 1 2 Hash_zero)) 0%nat
     [state_without_tx]).2 = Panic.
Proof.
  split; [|split].
  - apply (Ptr.CheckValid_panics (λ _, Ok tt) source_panics_at_1
             (λ _ s, (s, Ok tt)) map_to_list map_to_list_perm).
    right. right. exists (state_in tx_v1), mux_2_assets.
    split; [reflexivity|]. split; [reflexivity|].
    right. split; [reflexivity|]. left.
    exists 1%nat, (source assetB 3).
    split; [reflexivity|]. split; [reflexivity|].
    intros [|j] y Hj Hy; [reflexivity|lia].
  - apply (Ptr.CheckValid_panics (λ _, Ok tt) source_panics_at_1
             (λ _ s, (s, Ok tt)) map_to_list map_to_list_perm).
    right. by left.
  - apply (Ptr.CheckValid_panics (λ _, Ok tt) source_panics_at_1
             (λ _ s, (s, Ok tt)) map_to_list map_to_list_perm).
    right. right. exists state_without_tx, (nonce_of 1 2 Hash_zero).
    split; [reflexivity|]. split; [reflexivity|].
    right. split; [reflexivity|]. right.
    exists (TimeRange.mk (TimeRange.Body.mk 1 2)).
    split; [reflexivity|]. split; [discriminate|]. split; [discriminate|reflexivity].
Defined.

Definition prog2 : Program.t := Program.mk 2 [x6a].

Lemma program_check_ignores_entry_witness :
  Mux_CheckValid Verify_accepts source_accepts destination_accepts map_to_list
    (Mux.mk (Mux.Body.mk [source assetA 1] prog2 Hash_zero)
       (Mux.Witness.mk [destination assetA 1] [[x01]]))
    0%nat [state_in tx_v1] =
  Mux_CheckValid Verify_accepts source_accepts destination_accepts map_to_list
    (mux_of [source assetA 1] [destination assetA 1] Hash_zero)
    0%nat [state_in tx_v1].
Proof.
  exact (proj1 (program_check_ignores_entry Verify_accepts source_accepts
                  destination_accepts map_to_list)
           (mux_of [source assetA 1] [destination assetA 1] Hash_zero)
           (Mux.mk (Mux.Body.mk [source assetA 1] prog2 Hash_zero)
              (Mux.Witness.mk [destination assetA 1] [[x01]]))
           0%nat [state_in tx_v1] eq_refl eq_refl eq_refl).
Defined.

Lemma mux_without_sources_witness :
  run_Mux (mux_of [] [destination assetA 0] Hash_zero) (state_in tx_v1) =
  Fail (WithDetailf errNoSource
          "mux destination %d, asset %x, has no corresponding source"
          [ArgInt 0; ArgBytes (hash_bytes assetA)]).
Proof.
  exact (proj2 (mux_without_sources Verify_accepts source_accepts
                  destination_accepts map_to_list map_to_list_perm 0%nat
                  (state_in tx_v1) [state_in tx_v1]
                  (mux_of [] [destination assetA 0] Hash_zero) eq_refl
                  (mux_of_program_ok _ _ _ _) (mux_of_destinations_ok _ _ _ _)
                  eq_refl)
           (destination assetA 0) [] eq_refl).
Defined.

Lemma NewMux_CheckValid_witness :
  (Mux_CheckValid Verify_accepts source_accepts destination_accepts map_to_list
     (NewMux [source assetA 0; source assetB 0] prog1) 0%nat
     [state_in tx_v1]).2 = Ok tt
  ↔ ∀ src, src ∈ [source assetA 0; source assetB 0] →
           AssetAmount.Amount (valueSource.Value src) = 0.
Proof.
  refine (proj2 (proj2 (NewMux_CheckValid Verify_accepts source_accepts
                          destination_accepts map_to_list map_to_list_perm
                          0%nat (state_in tx_v1) [state_in tx_v1] tx_v1
                          [source assetA 0; source assetB 0] prog1
                          eq_refl eq_refl eq_refl _ _))).
  - intros i src _. reflexivity.
  - intros x Hx.
    repeat (apply elem_of_cons in Hx as [->|Hx]; [vm_compute; split; discriminate|]).
    by apply elem_of_nil in Hx.
Defined.

Lemma NewNonce_CheckValid_witness :
  (Nonce_CheckValid Verify_accepts
     (NewNonce (λ _, Hash_zero) prog1
        (Some (TimeRange.mk (TimeRange.Body.mk 0 9))))
     0%nat [state_in tx_v2]).2 = Fail errZeroTime.
Proof.
  exact (NewNonce_CheckValid Verify_accepts (λ _, Hash_zero) 0%nat
           (state_in tx_v2) [state_in tx_v2] tx_v2 prog1
           (Some (TimeRange.mk (TimeRange.Body.mk 0 9)))
           eq_refl eq_refl eq_refl).
Defined.

Lemma mux_source_sum_overflow_witness :
  run_Mux (mux_of [source assetA MaxInt64; source assetB 4; source assetA 1]
             [] Hash_zero) (state_in tx_v1) =
  Fail (WithDetailf errOverflow
          "adding %d units of asset %x from mux source %d to total %d overflows int64"
          [ArgInt 1; ArgBytes (hash_bytes assetA); ArgInt 2;
           ArgInt (sourceTotal assetA [source assetA MaxInt64; source assetB 4])]).
Proof.
  apply (mux_source_sum_overflow Verify_accepts source_accepts
           destination_accepts map_to_list 0%nat (state_in tx_v1)
           [state_in tx_v1]
           (mux_of [source assetA MaxInt64; source assetB 4; source assetA 1]
              [] Hash_zero)
           [source assetA MaxInt64; source assetB 4] [] (source assetA 1)
           eq_refl (mux_of_program_ok _ _ _ _) (mux_of_sources_ok _ _ _ _)
           (mux_of_destinations_ok _ _ _ _) eq_refl).
  - intros x Hx.
    repeat (apply elem_of_cons in Hx as [->|Hx]; [vm_compute; split; discriminate|]).
    by apply elem_of_nil in Hx.
  - intros a. unfold sourceTotal. simpl.
    repeat destruct (decide _); try (vm_compute; discriminate).
    match goal with
    | H1 : _ = a, H2 : _ = a |- _ =>
        rewrite <- H1 in H2; apply (f_equal hash_bytes) in H2;
        vm_compute in H2; discriminate H2
    end.
  - vm_compute. reflexivity.
Defined.

End bc.

(** * Package [vm]: the CHECKOUTPUT instruction *)

Module vm.

(** Modelled from the spec: the type of [vm.tx] is declared outside the
    sources.  [muxDest] is what [vm.tx.MuxDest] returns besides its error,
    in the order in which [opCheckOutput] receives it: whether the
    destination is a retirement, and its asset ID, amount, reference data
    digest, VM version and code. *)
Record muxDest := mkMuxDest {
  isRetirement : bool;
  destAssetID : list byte;
  destAmount : Z;
  destData : list byte;
  destVMVersion : Z;
  destCode : list byte
}.

(** The methods of [vm.tx] that [opCheckOutput] calls. *)
Record TxContext := mkTxContext {
  DestIsMux : Z → bool;
  MuxDest : Z → error + muxDest
}.

(** Modelled from the spec: the declaration of [virtualMachine] is outside
    the sources.  [tx] ([None] for nil) and [inputIndex] are the fields that
    [opCheckOutput] reads; [runLimit] is the remaining cost budget and
    [dataStack] the data stack, top first. *)
Record virtualMachine := mkVM {
  tx : option TxContext;
  inputIndex : Z;
  runLimit : Z;
  dataStack : list (list byte)
}.

Section CheckOutput.

(** The error values, the [FAIL] opcode and the stack and cost methods of
    the virtual machine are defined outside the sources.  The methods may
    change the machine in any way. *)
Variable ErrContext ErrBadValue : error.
Variable OP_FAIL : byte.
Variable applyCost : Z → St virtualMachine unit.
Variable pop : bool → St virtualMachine (list byte).
Variable popInt64 : bool → St virtualMachine Z.
Variable pushBool : bool → bool → St virtualMachine unit.

(** The closure [someChecks] of [opCheckOutput], with the variables it
    captures. *)
Definition someChecks (assetID : list byte) (amount : Z) (refdatahash : list byte)
    (resAssetID : list byte) (resAmount : Z) (resData : list byte) : bool :=
  if negb (bool_decide (resAssetID = assetID)) then false
  else if bool_decide (resAmount ≠ uint64 amount) then false
  else if bool_decide (0 < length refdatahash)%nat
          && negb (bool_decide (refdatahash = resData)) then false
  else true.

(** [func opCheckOutput(vm *virtualMachine) error] *)
Definition opCheckOutput : St virtualMachine unit :=
  vm ← get;
  match tx vm with
  | None => fail ErrContext
  | Some _ =>
      applyCost 16;;
      code ← pop true;
      vmVersion ← popInt64 true;
      if bool_decide (vmVersion < 0) then fail ErrBadValue else
      assetID ← pop true;
      amount ← popInt64 true;
      if bool_decide (amount < 0) then fail ErrBadValue else
      refdatahash ← pop true;
      index ← popInt64 true;
      if bool_decide (index < 0) then fail ErrBadValue else
      if bool_decide (index > MaxUint32) then fail ErrBadValue else
      vm ← get;
      match tx vm with
      | None => panic
      | Some t =>
          if negb (DestIsMux t (inputIndex vm)) then fail ErrContext else
          match MuxDest t (uint32 index) with
          | inl err => fail err
          | inr d =>
              let ok := someChecks assetID amount refdatahash
                          (destAssetID d) (destAmount d) (destData d) in
              if negb ok then pushBool false true else
              if isRetirement d then
                if bool_decide (vmVersion = 1)
                   && bool_decide (0 < length code)%nat
                   && bool_decide (code !! 0%nat = Some OP_FAIL)
                then pushBool true true
                else pushBool false true
              else
              if bool_decide (destVMVersion d ≠ uint64 vmVersion)
              then pushBool false true else
              if negb (bool_decide (destCode d = code))
              then pushBool false true
              else pushBool true true
          end
      end
  end.

(** ** The operands and the context *)

Ltac run H := erewrite bind_Ok; [|exact H].

(** C7.  [opCheckOutput] in a transaction context whose cost is paid pops
    [code], then [vmVersion], [assetID], [amount], [refdatahash] and
    [index].  It returns [ErrBadValue] as soon as the [vmVersion], the
    [amount] or the [index] it has popped is negative, and when [index] is
    above the 32-bit unsigned maximum; with operands in range it returns
    [ErrContext] when [DestIsMux] is false for the current input.  In each
    case the machine is left as the last pop left it: no boolean has been
    pushed. *)
Theorem opCheckOutput_operand_errors (vm : virtualMachine) (t0 : TxContext)
    (vm0 vm1 vm2 : virtualMachine) (code : list byte) (vmVersion : Z) :
  tx vm = Some t0 →
  applyCost 16 vm = (vm0, Ok tt) →
  pop true vm0 = (vm1, Ok code) →
  popInt64 true vm1 = (vm2, Ok vmVersion) →
  (vmVersion < 0 → opCheckOutput vm = (vm2, Fail ErrBadValue)) ∧
  ∀ vm3 assetID vm4 amount,
    0 ≤ vmVersion →
    pop true vm2 = (vm3, Ok assetID) →
    popInt64 true vm3 = (vm4, Ok amount) →
    (amount < 0 → opCheckOutput vm = (vm4, Fail ErrBadValue)) ∧
    ∀ vm5 refdatahash vm6 index,
      0 ≤ amount →
      pop true vm4 = (vm5, Ok refdatahash) →
      popInt64 true vm5 = (vm6, Ok index) →
      (index < 0 → opCheckOutput vm = (vm6, Fail ErrBadValue)) ∧
      (MaxUint32 < index → opCheckOutput vm = (vm6, Fail ErrBadValue)) ∧
      (∀ t, 0 ≤ index ≤ MaxUint32 → tx vm6 = Some t →
            DestIsMux t (inputIndex vm6) = false →
            opCheckOutput vm = (vm6, Fail ErrContext)).
Proof.
  intros Htx Hcost Hcode Hver.
  unfold opCheckOutput.
  erewrite bind_Ok; [|reflexivity]. rewrite Htx.
  run Hcost. run Hcode. run Hver.
  split.
  { intros Hneg. by rewrite bool_decide_eq_true_2. }
  intros vm3 assetID vm4 amount Hv Hasset Hamount.
  rewrite bool_decide_eq_false_2 by lia.
  run Hasset. run Hamount.
  split.
  { intros Hneg. by rewrite bool_decide_eq_true_2. }
  intros vm5 refdatahash vm6 index Ha Href Hindex.
  rewrite bool_decide_eq_false_2 by lia.
  run Href. run Hindex.
  split; [|split].
  - intros Hneg. by rewrite bool_decide_eq_true_2.
  - intros Hbig. rewrite bool_decide_eq_false_2 by (unfold MaxUint32 in Hbig; lia).
    rewrite bool_decide_eq_true_2 by lia. done.
  - intros t Hi Ht Hmux.
    rewrite bool_decide_eq_false_2 by lia.
    rewrite bool_decide_eq_false_2 by lia.
    erewrite bind_Ok; [|reflexivity]. by rewrite Ht, Hmux.
Qed.

(** ** The boolean that is pushed *)

Lemma uint64_nonneg_int64 x : 0 ≤ x → is_int64 x → uint64 x = x.
Proof.
  unfold is_int64, MaxInt64, uint64. intros H0 [_ H1].
  rewrite Z.mod_small; lia.
Qed.

Lemma uint32_small x : 0 ≤ x ≤ MaxUint32 → uint32 x = x.
Proof. unfold uint32, MaxUint32. intros H. rewrite Z.mod_small; lia. Qed.

Lemma someChecks_true assetID amount refdatahash resAssetID resAmount resData :
  0 ≤ amount → is_int64 amount →
  someChecks assetID amount refdatahash resAssetID resAmount resData = true ↔
  resAssetID = assetID ∧ resAmount = amount ∧
  (refdatahash ≠ [] → refdatahash = resData).
Proof.
  intros H0 Hr. unfold someChecks. rewrite (uint64_nonneg_int64 _ H0 Hr).
  case_bool_decide as H1; simpl; [|split; [done|by intros [? _]]].
  case_bool_decide as H2; simpl; [split; [done|by intros (_ & ? & _)]|].
  destruct refdatahash as [|b l]; simpl.
  { done. }
  case_bool_decide as H3; simpl.
  - done.
  - split; [done|]. intros (_ & _ & H). by destruct H3, H.
Qed.

(** C3.  [opCheckOutput] with operands in range, in the context of a Mux
    whose destination at [index] is [d]: it ends by pushing a boolean [b].
    [b] is [false] unless the asset ID and the amount of [d] equal the
    operands and, when [refdatahash] is not empty, so does the reference
    data digest.  When they match and [d] is a retirement, [b] is [true]
    exactly when [vmVersion] is 1 and the first byte of [code] is [OP_FAIL]
    (so it is [false] for any other version).  When they match and [d] is
    not a retirement, [b] is [true] exactly when [vmVersion] is the VM
    version of [d] and [code] equals the program of [d] byte for byte (so it
    is [false] when some byte differs). *)
Theorem opCheckOutput_pushes (vm : virtualMachine) (t0 t : TxContext)
    (vm0 vm1 vm2 vm3 vm4 vm5 vm6 : virtualMachine)
    (code assetID refdatahash : list byte) (vmVersion amount index : Z)
    (d : muxDest) :
  tx vm = Some t0 →
  applyCost 16 vm = (vm0, Ok tt) →
  pop true vm0 = (vm1, Ok code) →
  popInt64 true vm1 = (vm2, Ok vmVersion) →
  pop true vm2 = (vm3, Ok assetID) →
  popInt64 true vm3 = (vm4, Ok amount) →
  pop true vm4 = (vm5, Ok refdatahash) →
  popInt64 true vm5 = (vm6, Ok index) →
  0 ≤ vmVersion → is_int64 vmVersion →
  0 ≤ amount → is_int64 amount →
  0 ≤ index ≤ MaxUint32 →
  tx vm6 = Some t → DestIsMux t (inputIndex vm6) = true →
  MuxDest t index = inr d →
  ∃ b : bool,
    opCheckOutput vm = pushBool b true vm6 ∧
    let matches :=
      destAssetID d = assetID ∧ destAmount d = amount ∧
      (refdatahash ≠ [] → refdatahash = destData d) in
    (¬ matches → b = false) ∧
    (matches → isRetirement d = true →
       (b = true ↔ vmVersion = 1 ∧ ∃ rest, code = OP_FAIL :: rest) ∧
       (vmVersion ≠ 1 → b = false)) ∧
    (matches → isRetirement d = false →
       (b = true ↔ destVMVersion d = vmVersion ∧ code = destCode d) ∧
       (code ≠ destCode d → b = false)).
Proof.
  intros Htx Hcost Hcode Hver Hasset Hamount Href Hindex
         Hv0 Hv1 Ha0 Ha1 Hi Ht Hmux Hd.
  assert (∀ (b : bool) (P : bool → Prop), P b →
            ∃ b' : bool, pushBool b true vm6 = pushBool b' true vm6 ∧ P b')
    as Hex by (intros b P HP; by exists b).
  unfold opCheckOutput.
  erewrite bind_Ok; [|reflexivity]. rewrite Htx.
  run Hcost. run Hcode. run Hver.
  rewrite bool_decide_eq_false_2 by lia.
  run Hasset. run Hamount.
  rewrite bool_decide_eq_false_2 by lia.
  run Href. run Hindex.
  rewrite bool_decide_eq_false_2 by lia.
  rewrite bool_decide_eq_false_2 by lia.
  erewrite bind_Ok; [|reflexivity]. rewrite Ht, Hmux. simpl.
  rewrite (uint32_small _ Hi), Hd.
  pose proof (someChecks_true assetID amount refdatahash (destAssetID d)
                (destAmount d) (destData d) Ha0 Ha1) as Hsc.
  rewrite (uint64_nonneg_int64 _ Hv0 Hv1).
  destruct (someChecks _ _ _ _ _ _); simpl.
  2:{ apply Hex. simpl. split; [done|].
      split; intros Hm; apply Hsc in Hm; done. }
  assert (destAssetID d = assetID ∧ destAmount d = amount ∧
          (refdatahash ≠ [] → refdatahash = destData d)) as Hm by by apply Hsc.
  destruct (isRetirement d).
  - case_bool_decide as H1; simpl.
    2:{ apply Hex. simpl. split; [done|]. split; [|done].
        intros _ _. split; [|done]. split; [done|by intros [? _]]. }
    destruct code as [|c rest]; simpl.
    { apply Hex. simpl. split; [done|]. split; [|done].
      intros _ _. split; [|done]. split; [done|by intros [_ [? [=]]]]. }
    case_bool_decide as H3; simpl.
    + injection H3 as ->. apply Hex. simpl. split; [done|]. split; [|done].
      intros _ _. split; [|done]. split; [eauto|done].
    + apply Hex. simpl. split; [done|]. split; [|done].
      intros _ _. split; [|done]. split; [done|].
      intros [_ [? [= -> _]]]. done.
  - case_bool_decide as H1; simpl.
    { apply Hex. simpl. split; [done|]. split; [done|].
      intros _ _. split; [|done]. split; [done|by intros [? _]]. }
    case_bool_decide as H2; simpl.
    + apply Hex. simpl. split; [done|]. split; [done|].
      intros _ _. split; [done|]. intros Hne. by destruct Hne.
    + apply Hex. simpl. split; [done|]. split; [done|].
      intros _ _. split; [|done]. split; [done|]. intros [_ ->]. done.
Qed.

End CheckOutput.

(** * The other introspection instructions *)

Section Introspection.

(** As for [opCheckOutput], the error values, the [FAIL] opcode and the
    stack and cost methods are defined outside the sources, and so are the
    other methods of [vm.tx], the block context [vm.block] with its methods,
    and the field [vm.mainprog].  A method of [vm.tx] is a function of the
    receiver; a field that [virtualMachine] does not carry is read from the
    machine by a function. *)
Variable ErrContext ErrBadValue : error.
Variable OP_FAIL : byte.
Variable applyCost : Z → St virtualMachine unit.
Variable pop : bool → St virtualMachine (list byte).
Variable popInt64 : bool → St virtualMachine Z.
Variable pushBool : bool → bool → St virtualMachine unit.
Variable push : list byte → bool → St virtualMachine unit.
Variable pushInt64 : Z → bool → St virtualMachine unit.

Variable AssetID : TxContext → Z → error + list byte.
Variable Amount : TxContext → Z → error + Z.
Variable MinTimeMS : TxContext → Z.
Variable MaxTimeMS : TxContext → Z.
Variable InpData : TxContext → Z → error + list byte.
Variable TxData : TxContext → list byte.
Variable SpentOutputID : TxContext → Z → error + list byte.
Variable AnchorID : TxContext → Z → error + list byte.

Variable BlockContext : Type.
Variable block : virtualMachine → option BlockContext.
Variable NextConsensusProgram : BlockContext → list byte.
Variable TimestampMS : BlockContext → Z.
Variable mainprog : virtualMachine → list byte.

(** [func opAsset(vm *virtualMachine) error] *)
Definition opAsset : St virtualMachine unit :=
  vm ← get;
  match tx vm with
  | None => fail ErrContext
  | Some _ =>
      applyCost 1;;
      vm ← get;
      match tx vm with
      | None => panic
      | Some t =>
          match AssetID t (inputIndex vm) with
          | inl _ => fail ErrContext
          | inr assetID => push assetID true
          end
      end
  end.

(** [func opAmount(vm *virtualMachine) error] *)
Definition opAmount : St virtualMachine unit :=
  vm ← get;
  match tx vm with
  | None => fail ErrContext
  | Some _ =>
      applyCost 1;;
      vm ← get;
      match tx vm with
      | None => panic
      | Some t =>
          match Amount t (inputIndex vm) with
          | inl err => fail err
          | inr amount => pushInt64 (int64 amount) true
          end
      end
  end.

(** [func opProgram(vm *virtualMachine) error] *)
Definition opProgram : St virtualMachine unit :=
  vm ← get;
  match tx vm with
  | None => fail ErrContext
  | Some _ =>
      applyCost 1;;
      vm ← get;
      push (mainprog vm) true
  end.

(** [func opMinTime(vm *virtualMachine) error] *)
Definition opMinTime : St virtualMachine unit :=
  vm ← get;
  match tx vm with
  | None => fail ErrContext
  | Some _ =>
      applyCost 1;;
      vm ← get;
      match tx vm with
      | None => panic
      | Some t => pushInt64 (int64 (MinTimeMS t)) true
      end
  end.

(** [func opMaxTime(vm *virtualMachine) error] *)
Definition opMaxTime : St virtualMachine unit :=
  vm ← get;
  match tx vm with
  | None => fail ErrContext
  | Some _ =>
      applyCost 1;;
      vm ← get;
      match tx vm with
      | None => panic
      | Some t =>
          let maxTime := MaxTimeMS t in
          let maxTime :=
            if bool_decide (maxTime = 0) || bool_decide (maxTime > MaxInt64)
            then uint64 MaxInt64 else maxTime in
          pushInt64 (int64 maxTime) true
      end
  end.

(** [func opRefDataHash(vm *virtualMachine) error] *)
Definition opRefDataHash : St virtualMachine unit :=
  vm ← get;
  match tx vm with
  | None => fail ErrContext
  | Some _ =>
      applyCost 1;;
      vm ← get;
      match tx vm with
      | None => panic
      | Some t =>
          match InpData t (inputIndex vm) with
          | inl err => fail err
          | inr data => push data true
          end
      end
  end.

(** [func opTxRefDataHash(vm *virtualMachine) error] *)
Definition opTxRefDataHash : St virtualMachine unit :=
  vm ← get;
  match tx vm with
  | None => fail ErrContext
  | Some _ =>
      applyCost 1;;
      vm ← get;
      match tx vm with
      | None => panic
      | Some t => push (TxData t) true
      end
  end.

(** [func opIndex(vm *virtualMachine) error] *)
Definition opIndex : St virtualMachine unit :=
  vm ← get;
  match tx vm with
  | None => fail ErrContext
  | Some _ =>
      applyCost 1;;
      vm ← get;
      pushInt64 (int64 (inputIndex vm)) true
  end.

(** [func opOutputID(vm *virtualMachine) error] *)
Definition opOutputID : St virtualMachine unit :=
  vm ← get;
  match tx vm with
  | None => fail ErrContext
  | Some _ =>
      applyCost 1;;
      vm ← get;
      match tx vm with
      | None => panic
      | Some t =>
          match SpentOutputID t (inputIndex vm) with
          | inl _ => fail ErrContext
          | inr spentOutputID => push spentOutputID true
          end
      end
  end.

(** [func opNonce(vm *virtualMachine) error] *)
Definition opNonce : St virtualMachine unit :=
  vm ← get;
  match tx vm with
  | None => fail ErrContext
  | Some _ =>
      applyCost 1;;
      vm ← get;
      match tx vm with
      | None => panic
      | Some t =>
          match AnchorID t (inputIndex vm) with
          | inl err => fail err
          | inr anchorID => push anchorID true
          end
      end
  end.

(** [func opNextProgram(vm *virtualMachine) error] *)
Definition opNextProgram : St virtualMachine unit :=
  vm ← get;
  match block vm with
  | None => fail ErrContext
  | Some _ =>
      applyCost 1;;
      vm ← get;
      match block vm with
      | None => panic
      | Some b => push (NextConsensusProgram b) true
      end
  end.

(** [func opBlockTime(vm *virtualMachine) error] *)
Definition opBlockTime : St virtualMachine unit :=
  vm ← get;
  match block vm with
  | None => fail ErrContext
  | Some _ =>
      applyCost 1;;
      vm ← get;
      match block vm with
      | None => panic
      | Some b =>
          if bool_decide (TimestampMS b > MaxInt64)
          then fail (New "block timestamp out of range")
          else pushInt64 (int64 (TimestampMS b)) true
      end
  end.

Abbreviation checkOutput :=
  (opCheckOutput ErrContext ErrBadValue OP_FAIL applyCost pop popInt64 pushBool).

(** The instructions that need a transaction, and those that need a
    block, each with its cost. *)
Definition txInstructions : list (St virtualMachine unit * Z) :=
  [(checkOutput, 16); (opAsset, 1); (opAmount, 1); (opProgram, 1);
   (opMinTime, 1); (opMaxTime, 1); (opRefDataHash, 1); (opTxRefDataHash, 1);
   (opIndex, 1); (opOutputID, 1); (opNonce, 1)].

Definition blockInstructions : list (St virtualMachine unit * Z) :=
  [(opNextProgram, 1); (opBlockTime, 1)].

Ltac run H := erewrite bind_Ok; [|exact H].

(** X10.  The context is checked before the cost is charged, and the cost
    before anything else.  Each of the eleven transaction instructions, run
    on a machine without a transaction, and each of the two block
    instructions, run on a machine without a block, returns [ErrContext]
    and leaves the machine as it was.  In the right context, when the
    charge of the instruction's cost (16 for CHECKOUTPUT, 1 for the others)
    fails, the instruction returns the error of the charge and the machine
    the charge left. *)
Theorem instruction_guards (vm : virtualMachine) :
  (∀ op cost, (op, cost) ∈ txInstructions →
     (tx vm = None → op vm = (vm, Fail ErrContext)) ∧
     (∀ vm' e, tx vm ≠ None → applyCost cost vm = (vm', Fail e) →
               op vm = (vm', Fail e))) ∧
  (∀ op cost, (op, cost) ∈ blockInstructions →
     (block vm = None → op vm = (vm, Fail ErrContext)) ∧
     (∀ vm' e, block vm ≠ None → applyCost cost vm = (vm', Fail e) →
               op vm = (vm', Fail e))).
Proof.
  split; intros op cost Hin; unfold txInstructions, blockInstructions in Hin;
    repeat (apply elem_of_cons in Hin as [[= -> ->]|Hin];
            [split;
             [intros Hnone;
              unfold opCheckOutput, opAsset, opAmount, opProgram, opMinTime,
                opMaxTime, opRefDataHash, opTxRefDataHash, opIndex, opOutputID,
                opNonce, opNextProgram, opBlockTime;
              erewrite bind_Ok; [|reflexivity]; by rewrite Hnone
             |intros vm' e Hsome Hcost;
              unfold opCheckOutput, opAsset, opAmount, opProgram, opMinTime,
                opMaxTime, opRefDataHash, opTxRefDataHash, opIndex, opOutputID,
                opNonce, opNextProgram, opBlockTime;
              erewrite bind_Ok; [|reflexivity];
              first [destruct (tx vm); [|done] | destruct (block vm); [|done]];
              by erewrite bind_Fail; [|exact Hcost]]|]);
    by apply elem_of_nil in Hin.
Qed.

(** X11.  [opMaxTime] never pushes zero or a negative number: with a
    transaction whose maximum time is a [uint64], it pushes a number from 1
    to the signed 64-bit maximum, which is the maximum time itself when that
    lies in this range, and the signed 64-bit maximum when the maximum time
    is zero or larger. *)
Theorem opMaxTime_clamps (vm vm1 : virtualMachine) (t0 t : TxContext) :
  tx vm = Some t0 →
  applyCost 1 vm = (vm1, Ok tt) →
  tx vm1 = Some t →
  0 ≤ MaxTimeMS t ≤ MaxUint64 →
  ∃ n, opMaxTime vm = pushInt64 n true vm1 ∧
       1 ≤ n ≤ MaxInt64 ∧
       (1 ≤ MaxTimeMS t ≤ MaxInt64 → n = MaxTimeMS t) ∧
       (MaxTimeMS t = 0 ∨ MaxInt64 < MaxTimeMS t → n = MaxInt64).
Proof.
  intros Htx Hcost Ht Hr. unfold opMaxTime.
  erewrite bind_Ok; [|reflexivity]. rewrite Htx.
  run Hcost. erewrite bind_Ok; [|reflexivity]. rewrite Ht. simpl.
  case_bool_decide as H0; simpl.
  { exists MaxInt64. split; [reflexivity|]. unfold MaxInt64 in *. lia. }
  case_bool_decide as H1; simpl.
  { exists MaxInt64. split; [reflexivity|]. unfold MaxInt64 in *. lia. }
  exists (MaxTimeMS t).
  assert (int64 (MaxTimeMS t) = MaxTimeMS t) as ->.
  { unfold int64, MaxInt64 in *. rewrite Z.mod_small; lia. }
  split; [done|]. unfold MaxInt64 in *. lia.
Qed.

(** X12.  [opBlockTime] checks the range of the timestamp: a timestamp
    above the signed 64-bit maximum gives the error "block timestamp out of
    range", after the cost has been charged and with nothing pushed; any
    other [uint64] timestamp is pushed as it is. *)
Theorem opBlockTime_range (vm vm1 : virtualMachine) (b0 b : BlockContext) :
  block vm = Some b0 →
  applyCost 1 vm = (vm1, Ok tt) →
  block vm1 = Some b →
  0 ≤ TimestampMS b →
  (MaxInt64 < TimestampMS b →
   opBlockTime vm = (vm1, Fail (New "block timestamp out of range"))) ∧
  (TimestampMS b ≤ MaxInt64 →
   opBlockTime vm = pushInt64 (TimestampMS b) true vm1).
Proof.
  intros Hb Hcost Hb1 H0. unfold opBlockTime.
  erewrite bind_Ok; [|reflexivity]. rewrite Hb.
  run Hcost. erewrite bind_Ok; [|reflexivity]. rewrite Hb1.
  split; intros Hr.
  - by rewrite bool_decide_eq_true_2 by lia.
  - rewrite bool_decide_eq_false_2 by lia.
    by rewrite bc.int64_small.
Qed.

(** X13.  [opMinTime] and [opAmount] convert the [uint64] they read with
    [int64] and no range check: a minimum time or an amount up to the signed
    64-bit maximum is pushed as it is, and a larger one is pushed as the
    negative number that is [2^64] less. *)
Theorem opMinTime_opAmount_convert (vm vm1 : virtualMachine) (t0 t : TxContext) :
  tx vm = Some t0 →
  applyCost 1 vm = (vm1, Ok tt) →
  tx vm1 = Some t →
  (0 ≤ MinTimeMS t ≤ MaxUint64 →
   ∃ n, opMinTime vm = pushInt64 n true vm1 ∧
        (MinTimeMS t ≤ MaxInt64 → n = MinTimeMS t) ∧
        (MaxInt64 < MinTimeMS t → n = MinTimeMS t - 2 ^ 64 ∧ n < 0)) ∧
  (∀ amount, Amount t (inputIndex vm1) = inr amount →
   0 ≤ amount ≤ MaxUint64 →
   ∃ n, opAmount vm = pushInt64 n true vm1 ∧
        (amount ≤ MaxInt64 → n = amount) ∧
        (MaxInt64 < amount → n = amount - 2 ^ 64 ∧ n < 0)).
Proof.
  intros Htx Hcost Ht.
  assert (∀ x, 0 ≤ x ≤ MaxUint64 →
            (x ≤ MaxInt64 → int64 x = x) ∧
            (MaxInt64 < x → int64 x = x - 2 ^ 64 ∧ int64 x < 0)) as Hconv.
  { intros x Hx. unfold int64, MaxInt64, MaxUint64 in *. split; intros Hc.
    - rewrite Z.mod_small; lia.
    - replace (x + 2 ^ 63) with ((x - 2 ^ 63) + 1 * 2 ^ 64) by lia.
      rewrite Z.mod_add by lia. rewrite Z.mod_small; lia. }
  split.
  - intros Hr. exists (int64 (MinTimeMS t)). split; [|by apply Hconv].
    unfold opMinTime. erewrite bind_Ok; [|reflexivity]. rewrite Htx.
    run Hcost. erewrite bind_Ok; [|reflexivity]. by rewrite Ht.
  - intros amount Ha Hr. exists (int64 amount). split; [|by apply Hconv].
    unfold opAmount. erewrite bind_Ok; [|reflexivity]. rewrite Htx.
    run Hcost. erewrite bind_Ok; [|reflexivity]. by rewrite Ht, Ha.
Qed.

(** X14.  What becomes of an error of the transaction.  [opAsset] and
    [opOutputID] return [ErrContext] whatever error [AssetID], respectively
    [SpentOutputID], returns; [opAmount], [opRefDataHash] and [opNonce]
    return the error of [Amount], [InpData] and [AnchorID] as it is.  In
    each case the cost has been charged and nothing is pushed. *)
Theorem introspection_errors (vm vm1 : virtualMachine) (t0 t : TxContext)
    (err : error) :
  tx vm = Some t0 →
  applyCost 1 vm = (vm1, Ok tt) →
  tx vm1 = Some t →
  (AssetID t (inputIndex vm1) = inl err → opAsset vm = (vm1, Fail ErrContext)) ∧
  (SpentOutputID t (inputIndex vm1) = inl err →
   opOutputID vm = (vm1, Fail ErrContext)) ∧
  (Amount t (inputIndex vm1) = inl err → opAmount vm = (vm1, Fail err)) ∧
  (InpData t (inputIndex vm1) = inl err → opRefDataHash vm = (vm1, Fail err)) ∧
  (AnchorID t (inputIndex vm1) = inl err → opNonce vm = (vm1, Fail err)).
Proof.
  intros Htx Hcost Ht.
  repeat split; intros He;
    unfold opAsset, opOutputID, opAmount, opRefDataHash, opNonce;
    (erewrite bind_Ok; [|reflexivity]); rewrite Htx;
    run Hcost; (erewrite bind_Ok; [|reflexivity]); by rewrite Ht, He.
Qed.

Lemma bind_Ok_inv {S A B} (m : St S A) (f : A → St S B) s s' b :
  (m ≫= f) s = (s', Ok b) → ∃ s1 a, m s = (s1, Ok a) ∧ f a s1 = (s', Ok b).
Proof.
  unfold mbind, St_bind. destruct (m s) as [s1 [a| |]]; [eauto|done..].
Qed.

(** X15.  [opCheckOutput] returns nil only after all of the following: the
    machine has a transaction, the cost of 16 is charged, the six operands
    are popped, [vmVersion] and [amount] are not negative, [index] is
    between 0 and the 32-bit unsigned maximum, the current input's
    destination is a Mux, that Mux has a destination at [index], and a
    boolean is pushed, which is the last thing the instruction does.  It has
    no other way to succeed. *)
Theorem opCheckOutput_succeeds_only (vm vm' : virtualMachine) :
  checkOutput vm = (vm', Ok tt) →
  ∃ vm0 vm1 vm2 vm3 vm4 vm5 vm6 code vmVersion assetID amount refdatahash
    index t d (b : bool),
    tx vm ≠ None ∧
    applyCost 16 vm = (vm0, Ok tt) ∧
    pop true vm0 = (vm1, Ok code) ∧
    popInt64 true vm1 = (vm2, Ok vmVersion) ∧
    pop true vm2 = (vm3, Ok assetID) ∧
    popInt64 true vm3 = (vm4, Ok amount) ∧
    pop true vm4 = (vm5, Ok refdatahash) ∧
    popInt64 true vm5 = (vm6, Ok index) ∧
    0 ≤ vmVersion ∧ 0 ≤ amount ∧ 0 ≤ index ≤ MaxUint32 ∧
    tx vm6 = Some t ∧ DestIsMux t (inputIndex vm6) = true ∧
    MuxDest t (uint32 index) = inr d ∧
    pushBool b true vm6 = (vm', Ok tt).
Proof.
  unfold opCheckOutput. intros H.
  apply bind_Ok_inv in H as (? & vm_ & [= <- <-] & H).
  destruct (tx vm) as [t0|] eqn:Htx; [|done].
  apply bind_Ok_inv in H as (vm0 & [] & Hcost & H).
  apply bind_Ok_inv in H as (vm1 & code & Hcode & H).
  apply bind_Ok_inv in H as (vm2 & vmVersion & Hver & H).
  case_bool_decide as Hv; [done|].
  apply bind_Ok_inv in H as (vm3 & assetID & Hasset & H).
  apply bind_Ok_inv in H as (vm4 & amount & Hamount & H).
  case_bool_decide as Ha; [done|].
  apply bind_Ok_inv in H as (vm5 & refdatahash & Href & H).
  apply bind_Ok_inv in H as (vm6 & index & Hindex & H).
  case_bool_decide as Hi0; [done|].
  case_bool_decide as Hi1; [done|].
  apply bind_Ok_inv in H as (? & vm6' & [= <- <-] & H).
  destruct (tx vm6) as [t|] eqn:Ht; [|done].
  destruct (DestIsMux t (inputIndex vm6)) eqn:Hmux; [|done]. simpl in H.
  destruct (MuxDest t (uint32 index)) as [e|d] eqn:Hd; [done|].
  assert (∃ b : bool, pushBool b true vm6 = (vm', Ok tt)) as [b Hb].
  { repeat match type of H with
           | (if ?c then _ else _) _ = _ => destruct c
           end; eauto. }
  exists vm0, vm1, vm2, vm3, vm4, vm5, vm6, code, vmVersion, assetID, amount,
    refdatahash, index, t, d, b.
  repeat split; try done; lia.
Qed.

End Introspection.

(** ** A stack machine to run the instruction on *)

(** Modelled from the spec: the error values, the [FAIL] opcode and the
    methods [applyCost], [pop], [popInt64] and [pushBool] are outside the
    sources.  The specification gives a stack machine with a cost budget
    that an instruction's cost is charged to, signed 64-bit numbers, and the
    error kinds.  Here a number on the stack is a little-endian two's
    complement byte string of at most 8 bytes, and [true] is the byte 1. *)
Definition ErrContext : error := New "wrong context".
Definition ErrBadValue : error := New "bad value".
Definition ErrRunLimitExceeded : error := New "run limit exceeded".
Definition ErrDataStackUnderflow : error := New "data stack underflow".
Definition OP_FAIL : byte := x6a.

Definition applyCost (n : Z) : St virtualMachine unit := λ vm,
  if bool_decide (n > runLimit vm) then (vm, Fail ErrRunLimitExceeded)
  else (mkVM (tx vm) (inputIndex vm) (runLimit vm - n) (dataStack vm), Ok tt).

Definition pop (deferred : bool) : St virtualMachine (list byte) := λ vm,
  match dataStack vm with
  | [] => (vm, Fail ErrDataStackUnderflow)
  | res :: rest => (mkVM (tx vm) (inputIndex vm) (runLimit vm) rest, Ok res)
  end.

Fixpoint littleEndian (b : list byte) : Z :=
  match b with
  | [] => 0
  | x :: rest => Z.of_N (Byte.to_N x) + 256 * littleEndian rest
  end.

Definition AsInt64 (b : list byte) : error + Z :=
  if bool_decide (8 < length b)%nat then inl ErrBadValue
  else inr (int64 (littleEndian b)).

Definition popInt64 (deferred : bool) : St virtualMachine Z :=
  b ← pop deferred; liftE (AsInt64 b).

Definition BoolBytes (b : bool) : list byte := if b then [x01] else [].

Definition pushBool (b : bool) (deferred : bool) : St virtualMachine unit := λ vm,
  (mkVM (tx vm) (inputIndex vm) (runLimit vm) (BoolBytes b :: dataStack vm), Ok tt).

Definition run_opCheckOutput : St virtualMachine unit :=
  opCheckOutput ErrContext ErrBadValue OP_FAIL applyCost pop popInt64 pushBool.

(** A transaction whose Mux has a retirement at index 0 and an output at
    index 1, both of 5 units of the asset [[x0a]], and no other
    destination. *)
Definition retirement0 : muxDest := mkMuxDest true [x0a] 5 [xdd] 0 [].
Definition output1 : muxDest := mkMuxDest false [x0a] 5 [xdd] 1 [x51; x52].

Definition tx_mux (isMux : bool) : TxContext :=
  mkTxContext (λ _, isMux)
    (λ i, if bool_decide (i = 0) then inr retirement0
          else if bool_decide (i = 1) then inr output1
          else inl (New "no such destination")).

(** The machine before the instruction, its operands pushed in the order
    [index], [refdatahash], [amount], [assetID], [vmVersion], [code]. *)
Definition machine (isMux : bool) (code vmVersion assetID amount refdatahash index : list byte)
    : virtualMachine :=
  mkVM (Some (tx_mux isMux)) 0 100
    [code; vmVersion; assetID; amount; refdatahash; index].

Definition minus1 : list byte := [xff; xff; xff; xff; xff; xff; xff; xff].

(** The machine after the instruction has popped its operands. *)
Definition popped (isMux : bool) (stack : list (list byte)) : virtualMachine :=
  mkVM (Some (tx_mux isMux)) 0 84 stack.

Example run_retirement_legacy :
  run_opCheckOutput (machine true [x6a; x00] [x01] [x0a] [x05] [] []) =
    (popped true [[x01]], Ok tt) ∧
  run_opCheckOutput (machine true [x6a; x00] [x02] [x0a] [x05] [] []) =
    (popped true [[]], Ok tt) ∧
  run_opCheckOutput (machine true [x51; x00] [x01] [x0a] [x05] [] []) =
    (popped true [[]], Ok tt) ∧
  run_opCheckOutput (machine true [] [x01] [x0a] [x05] [] []) =
    (popped true [[]], Ok tt).
Proof. vm_compute. repeat split; reflexivity. Qed.

Example run_output :
  run_opCheckOutput (machine true [x51; x52] [x01] [x0a] [x05] [xdd] [x01]) =
    (popped true [[x01]], Ok tt) ∧
  run_opCheckOutput (machine true [x51; x53] [x01] [x0a] [x05] [xdd] [x01]) =
    (popped true [[]], Ok tt) ∧
  run_opCheckOutput (machine true [x51; x52] [x02] [x0a] [x05] [xdd] [x01]) =
    (popped true [[]], Ok tt).
Proof. vm_compute. repeat split; reflexivity. Qed.

Example run_mismatch :
  run_opCheckOutput (machine true [x51; x52] [x01] [x0b] [x05] [] [x01]) =
    (popped true [[]], Ok tt) ∧
  run_opCheckOutput (machine true [x51; x52] [x01] [x0a] [x06] [] [x01]) =
    (popped true [[]], Ok tt) ∧
  run_opCheckOutput (machine true [x51; x52] [x01] [x0a] [x05] [xde] [x01]) =
    (popped true [[]], Ok tt).
Proof. vm_compute. repeat split; reflexivity. Qed.

Example run_bad_operands :
  run_opCheckOutput (machine true [] minus1 [x0a] [x05] [] []) =
    (popped true [[x0a]; [x05]; []; []], Fail ErrBadValue) ∧
  run_opCheckOutput (machine true [] [x01] [x0a] minus1 [] []) =
    (popped true [[]; []], Fail ErrBadValue) ∧
  run_opCheckOutput (machine true [] [x01] [x0a] [x05] [] minus1) =
    (popped true [], Fail ErrBadValue) ∧
  run_opCheckOutput
    (machine true [] [x01] [x0a] [x05] [] [x00; x00; x00; x00; x01]) =
    (popped true [], Fail ErrBadValue) ∧
  run_opCheckOutput (machine false [] [x01] [x0a] [x05] [] []) =
    (popped false [], Fail ErrContext) ∧
  run_opCheckOutput (machine false [] [x01] [x0a] [x05] [] minus1) =
    (popped false [], Fail ErrBadValue).
Proof. vm_compute. repeat split; reflexivity. Qed.

Lemma opCheckOutput_operand_errors_witness :
  run_opCheckOutput (machine false [x6a] [x01] [x0a] [x05] [] []) =
  (popped false [], Fail ErrContext).
Proof.
  pose proof (opCheckOutput_operand_errors ErrContext ErrBadValue OP_FAIL
                applyCost pop popInt64 pushBool
                (machine false [x6a] [x01] [x0a] [x05] [] [])
                (tx_mux false)
                (popped false [[x6a]; [x01]; [x0a]; [x05]; []; []])
                (popped false [[x01]; [x0a]; [x05]; []; []])
                (popped false [[x0a]; [x05]; []; []])
                [x6a] 1 eq_refl eq_refl eq_refl eq_refl) as [_ H].
  destruct (H (popped false [[x05]; []; []]) [x0a]
              (popped false [[]; []]) 5 ltac:(lia) eq_refl eq_refl) as [_ H'].
  destruct (H' (popped false [[]]) [] (popped false []) 0
               ltac:(lia) eq_refl eq_refl) as (_ & _ & H'').
  apply (H'' (tx_mux false)); [unfold MaxUint32; lia|reflexivity|reflexivity].
Defined.

Lemma opCheckOutput_pushes_witness :
  ∃ b : bool,
    run_opCheckOutput (machine true [x6a; x00] [x01] [x0a] [x05] [] []) =
    pushBool b true (popped true []) ∧ b = true.
Proof.
  destruct (opCheckOutput_pushes ErrContext ErrBadValue OP_FAIL
              applyCost pop popInt64 pushBool
              (machine true [x6a; x00] [x01] [x0a] [x05] [] [])
              (tx_mux true) (tx_mux true)
              (popped true [[x6a; x00]; [x01]; [x0a]; [x05]; []; []])
              (popped true [[x01]; [x0a]; [x05]; []; []])
              (popped true [[x0a]; [x05]; []; []])
              (popped true [[x05]; []; []])
              (popped true [[]; []])
              (popped true [[]])
              (popped true [])
              [x6a; x00] [x0a] [] 1 5 0 retirement0
              eq_refl eq_refl eq_refl eq_refl eq_refl eq_refl eq_refl eq_refl
              ltac:(lia) ltac:(unfold is_int64, MinInt64, MaxInt64; lia)
              ltac:(lia) ltac:(unfold is_int64, MinInt64, MaxInt64; lia)
              ltac:(unfold MaxUint32; lia) eq_refl eq_refl eq_refl)
    as (b & Hrun & _ & Hret & _).
  exists b. split; [exact Hrun|].
  apply Hret; [repeat split; done|reflexivity|].
  split; [reflexivity|]. by exists [x00].
Defined.

(** ** The other instructions on the stack machine *)

(** Modelled from the spec: [push], [pushInt64], the remaining methods of
    [vm.tx] and the block context are outside the sources.  Here a number
    is pushed as its 8 little-endian bytes, the machine is in a block
    context when it has no transaction, and the transaction has a single
    input, at index 0. *)
Definition push (data : list byte) (deferred : bool) : St virtualMachine unit :=
  λ vm, (mkVM (tx vm) (inputIndex vm) (runLimit vm) (data :: dataStack vm), Ok tt).

Fixpoint littleEndianBytes (n : nat) (x : Z) : list byte :=
  match n with
  | O => []
  | S n => default x00 (Byte.of_N (Z.to_N (x mod 256)))
           :: littleEndianBytes n (x / 256)
  end.

Definition Int64Bytes (n : Z) : list byte := littleEndianBytes 8 (uint64 n).

Definition pushInt64 (n : Z) (deferred : bool) : St virtualMachine unit :=
  push (Int64Bytes n) deferred.

Definition noInput : error := New "no such input".

Definition AssetID_of (t : TxContext) (i : Z) : error + list byte :=
  if bool_decide (i = 0) then inr [x0a] else inl noInput.
Definition Amount_of (t : TxContext) (i : Z) : error + Z :=
  if bool_decide (i = 0) then inr (2 ^ 63) else inl noInput.
Definition MinTimeMS_of (t : TxContext) : Z := 2 ^ 64 - 1.
Definition MaxTimeMS_of (t : TxContext) : Z := 0.
Definition InpData_of (t : TxContext) (i : Z) : error + list byte :=
  if bool_decide (i = 0) then inr [xdd] else inl noInput.
Definition TxData_of (t : TxContext) : list byte := [xee].
Definition SpentOutputID_of (t : TxContext) (i : Z) : error + list byte :=
  if bool_decide (i = 0) then inr [x0f] else inl noInput.
Definition AnchorID_of (t : TxContext) (i : Z) : error + list byte :=
  if bool_decide (i = 0) then inr [x0e] else inl noInput.

Record blockContext := mkBlockContext {
  nextConsensusProgram : list byte;
  timestampMS : Z
}.

Definition block_of (vm : virtualMachine) : option blockContext :=
  match tx vm with
  | None => Some (mkBlockContext [x51] (2 ^ 63))
  | Some _ => None
  end.

Definition mainprog_of (vm : virtualMachine) : list byte := [x51; x52].

(** A machine in the context of input [i] of the transaction, and a machine
    in a block context, with a budget of 100 and an empty stack. *)
Definition tx_machine (i : Z) (limit : Z) : virtualMachine :=
  mkVM (Some (tx_mux true)) i limit [].
Definition block_machine (limit : Z) : virtualMachine :=
  mkVM None 0 limit [].

Definition run_opAsset := opAsset ErrContext applyCost push AssetID_of.
Definition run_opAmount := opAmount ErrContext applyCost pushInt64 Amount_of.
Definition run_opMinTime := opMinTime ErrContext applyCost pushInt64 MinTimeMS_of.
Definition run_opMaxTime := opMaxTime ErrContext applyCost pushInt64 MaxTimeMS_of.
Definition run_opBlockTime :=
  opBlockTime ErrContext applyCost pushInt64 blockContext block_of timestampMS.

Example run_introspection :
  run_opAsset (tx_machine 0 100) =
    (mkVM (Some (tx_mux true)) 0 99 [[x0a]], Ok tt) ∧
  run_opAsset (tx_machine 1 100) = (tx_machine 1 99, Fail ErrContext) ∧
  run_opAsset (block_machine 100) = (block_machine 100, Fail ErrContext) ∧
  run_opAsset (tx_machine 0 0) = (tx_machine 0 0, Fail ErrRunLimitExceeded) ∧
  run_opAmount (tx_machine 1 100) = (tx_machine 1 99, Fail noInput) ∧
  run_opAmount (tx_machine 0 100) =
    (mkVM (Some (tx_mux true)) 0 99 [Int64Bytes (- 2 ^ 63)], Ok tt) ∧
  run_opMaxTime (tx_machine 0 100) =
    (mkVM (Some (tx_mux true)) 0 99 [Int64Bytes MaxInt64], Ok tt) ∧
  run_opMinTime (tx_machine 0 100) =
    (mkVM (Some (tx_mux true)) 0 99 [Int64Bytes (-1)], Ok tt) ∧
  run_opBlockTime (block_machine 100) =
    (block_machine 99, Fail (New "block timestamp out of range")) ∧
  run_opBlockTime (tx_machine 0 100) = (tx_machine 0 100, Fail ErrContext).
Proof. vm_compute. repeat split; reflexivity. Qed.

Lemma instruction_guards_witness :
  run_opAsset (block_machine 100) = (block_machine 100, Fail ErrContext) ∧
  run_opAsset (tx_machine 0 0) = (tx_machine 0 0, Fail ErrRunLimitExceeded).
Proof.
  pose proof (proj1 (instruction_guards ErrContext ErrBadValue OP_FAIL
                       applyCost pop popInt64 pushBool push pushInt64
                       AssetID_of Amount_of MinTimeMS_of MaxTimeMS_of
                       InpData_of TxData_of SpentOutputID_of AnchorID_of
                       blockContext block_of nextConsensusProgram timestampMS
                       mainprog_of (block_machine 100))
                run_opAsset 1) as [H1 _].
  { eapply (list_elem_of_lookup_2 _ 1%nat). reflexivity. }
  pose proof (proj1 (instruction_guards ErrContext ErrBadValue OP_FAIL
                       applyCost pop popInt64 pushBool push pushInt64
                       AssetID_of Amount_of MinTimeMS_of MaxTimeMS_of
                       InpData_of TxData_of SpentOutputID_of AnchorID_of
                       blockContext block_of nextConsensusProgram timestampMS
                       mainprog_of (tx_machine 0 0))
                run_opAsset 1) as [_ H2].
  { eapply (list_elem_of_lookup_2 _ 1%nat). reflexivity. }
  split; [by apply H1|].
  apply H2; [discriminate|reflexivity].
Defined.

Lemma opMaxTime_clamps_witness :
  ∃ n, run_opMaxTime (tx_machine 0 100) = pushInt64 n true (tx_machine 0 99) ∧
       n = MaxInt64.
Proof.
  destruct (opMaxTime_clamps ErrContext applyCost pushInt64 MaxTimeMS_of
              (tx_machine 0 100) (tx_machine 0 99) (tx_mux true) (tx_mux true)
              eq_refl eq_refl eq_refl)
    as (n & Hrun & _ & _ & Hn).
  { vm_compute. split; discriminate. }
  exists n. split; [exact Hrun|]. apply Hn. by left.
Defined.

Lemma opBlockTime_range_witness :
  run_opBlockTime (block_machine 100) =
  (block_machine 99, Fail (New "block timestamp out of range")).
Proof.
  apply (opBlockTime_range ErrContext applyCost pushInt64 blockContext block_of
           timestampMS (block_machine 100) (block_machine 99)
           (mkBlockContext [x51] (2 ^ 63)) (mkBlockContext [x51] (2 ^ 63))
           eq_refl eq_refl eq_refl); vm_compute; [discriminate|reflexivity].
Defined.

Lemma opMinTime_opAmount_convert_witness :
  ∃ n, run_opAmount (tx_machine 0 100) = pushInt64 n true (tx_machine 0 99) ∧
       n = 2 ^ 63 - 2 ^ 64 ∧ n < 0.
Proof.
  destruct (proj2 (opMinTime_opAmount_convert ErrContext applyCost pushInt64
                     Amount_of MinTimeMS_of (tx_machine 0 100)
                     (tx_machine 0 99) (tx_mux true) (tx_mux true)
                     eq_refl eq_refl eq_refl) (2 ^ 63) eq_refl)
    as (n & Hrun & _ & Hn).
  { vm_compute. split; discriminate. }
  exists n. split; [exact Hrun|]. apply Hn. vm_compute. reflexivity.
Defined.

Lemma introspection_errors_witness :
  run_opAsset (tx_machine 1 100) = (tx_machine 1 99, Fail ErrContext) ∧
  run_opAmount (tx_machine 1 100) = (tx_machine 1 99, Fail noInput).
Proof.
  pose proof (introspection_errors ErrContext applyCost push pushInt64
                AssetID_of Amount_of InpData_of SpentOutputID_of AnchorID_of
                (tx_machine 1 100) (tx_machine 1 99) (tx_mux true)
                (tx_mux true) noInput eq_refl eq_refl eq_refl)
    as (H1 & _ & H3 & _).
  split; [by apply H1|by apply H3].
Defined.

Lemma opCheckOutput_succeeds_only_witness :
  ∃ vm6 (b : bool), pushBool b true vm6 = (popped true [[x01]], Ok tt).
Proof.
  destruct (opCheckOutput_succeeds_only ErrContext ErrBadValue OP_FAIL
              applyCost pop popInt64 pushBool
              (machine true [x6a; x00] [x01] [x0a] [x05] [] [])
              (popped true [[x01]]) eq_refl)
    as (vm0 & vm1 & vm2 & vm3 & vm4 & vm5 & vm6 & code & vmVersion & assetID
        & amount & refdatahash & index & t & d & b & H).
  exists vm6, b. apply H.
Defined.

End vm.

(** * Command [corectl]: the arguments of the configuration commands *)

Module corectl.

(** How a command, run up to the point where it has built its
    configuration, ends: it goes on with a value; or [fatalln(v...)] prints
    [v] and exits with status 2; or an index is out of range. *)
Inductive result (A : Type) : Type :=
| Done (a : A)
| Fatal (v : list string)
| OutOfRange.
Arguments Done {A} a.
Arguments Fatal {A} v.
Arguments OutOfRange {A}.

(** The fields of [config.BlockSigner] and [config.Config] that the
    commands set; the declarations are outside the sources.  [BlockchainId]
    is [None] while unset, and otherwise the hash whose [Proto()] form the
    command stores. *)
Record BlockSigner := mkBlockSigner {
  Pubkey : list byte;
  Url : string
}.

Record Config := mkConfig {
  IsGenerator : bool;
  Quorum : Z;
  Signers : list BlockSigner;
  MaxIssuanceWindow : Z;
  IsSigner : bool;
  BlockPub : string;
  BlockHsmUrl : string;
  BlockHsmAccessToken : string;
  BlockchainId : option Hash;
  GeneratorUrl : string;
  GeneratorAccessToken : string
}.

(** The values of the flags once [flags.Parse] has returned. *)
Record generatorFlags := mkGeneratorFlags {
  maxIssuanceWindow : Z;
  flagK : string;
  flagHSMURL : string;
  flagHSMToken : string
}.

Record nongeneratorFlags := mkNongeneratorFlags {
  nflagT : string;
  nflagK : string;
  nflagHSMURL : string;
  nflagHSMToken : string
}.

Section Commands.

(** [strconv.ParseUint(s, 10, 32)], [hex.DecodeString], [bc.DurationMillis]
    and [Hash.UnmarshalText] (with the text of its error) are defined
    outside the sources; [None] stands for a non-nil error. *)
Variable ParseUint32 : string → option Z.
Variable DecodeString : string → option (list byte).
Variable DurationMillis : Z → Z.
Variable UnmarshalText : string → string + Hash.

(** [ed25519.PublicKeySize] *)
Definition PublicKeySize : nat := 32.

Definition generatorUsage : string :=
  "usage: corectl config-generator [flags] [quorum] [pubkey url]...".
Definition nongeneratorUsage : string :=
  "usage: corectl config [flags] [blockchain-id] [generator-url]".

(** The loop [for i := 1; i < len(args); i += 2] of [configGenerator], on
    the arguments [rest] from index [i] on: [args[i]] is the head of [rest]
    and [args[i+1]] the element after it. *)
Fixpoint readSigners (rest : list string) (signers : list BlockSigner)
    : result (list BlockSigner) :=
  match rest with
  | [] => Done signers
  | a :: rest' =>
      match DecodeString a with
      | None => Fatal [generatorUsage]
      | Some pubkey =>
          if bool_decide (length pubkey ≠ PublicKeySize)
          then Fatal ["error:"; "bad ed25519 public key length"]
          else
            match rest' with
            | [] => OutOfRange
            | url :: rest'' =>
                readSigners rest'' (signers ++ [mkBlockSigner pubkey url])
            end
      end
  end.

(** [func configGenerator(db, rDB, args)], from the parsed flags and the
    remaining arguments up to the configuration that it hands to
    [config.Configure]. *)
Definition configGenerator (f : generatorFlags) (args : list string)
    : result Config :=
  if bool_decide (flagK f = "") && negb (bool_decide (flagHSMURL f = ""))
  then Fatal ["error: flag -hsm-url has no effect without -k"]
  else if xorb (bool_decide (flagHSMURL f = ""))
               (bool_decide (flagHSMToken f = ""))
  then Fatal ["error: flags -hsm-url and -hsm-token must be given together"]
  else
    let conf (quorum : Z) (signers : list BlockSigner) : Config :=
      mkConfig true quorum signers (DurationMillis (maxIssuanceWindow f))
        (negb (bool_decide (flagK f = ""))) (flagK f) (flagHSMURL f)
        (flagHSMToken f) None "" "" in
    match args with
    | [] => Done (conf (if negb (bool_decide (flagK f = "")) then 1 else 0) [])
    | arg0 :: _ =>
        if bool_decide ((length args) `mod` 2 ≠ 1)%nat
        then Fatal [generatorUsage]
        else
          match ParseUint32 arg0 with
          | None => Fatal [generatorUsage]
          | Some q64 =>
              match readSigners (drop 1 args) [] with
              | Done signers => Done (conf (uint32 q64) signers)
              | Fatal v => Fatal v
              | OutOfRange => OutOfRange
              end
          end
    end.

(** [func configNongenerator(db, rDB, args)], likewise. *)
Definition configNongenerator (f : nongeneratorFlags) (args : list string)
    : result Config :=
  if bool_decide (length args < 2)%nat then Fatal [nongeneratorUsage]
  else if bool_decide (nflagK f = "") && negb (bool_decide (nflagHSMURL f = ""))
  then Fatal ["error: flag -hsm-url has no effect without -k"]
  else if xorb (bool_decide (nflagHSMURL f = ""))
               (bool_decide (nflagHSMToken f = ""))
  then Fatal ["error: flags -hsm-url and -hsm-token must be given together"]
  else
    match args with
    | arg0 :: arg1 :: _ =>
        match UnmarshalText arg0 with
        | inl err => Fatal ["error: invalid blockchain ID:"; err]
        | inr blockchainID =>
            Done (mkConfig false 0 [] 0
                    (negb (bool_decide (nflagK f = ""))) (nflagK f)
                    (nflagHSMURL f) (nflagHSMToken f)
                    (Some blockchainID) arg1 (nflagT f))
        end
    | _ => OutOfRange
    end.

(** The public key and URL arguments, two by two. *)
Fixpoint pairs (rest : list string) : list (string * string) :=
  match rest with
  | a :: url :: rest' => (a, url) :: pairs rest'
  | _ => []
  end.

Lemma readSigners_even rest : ∀ signers,
  Nat.Even (length rest) → readSigners rest signers ≠ OutOfRange.
Proof.
  induction rest as [rest IH] using (induction_ltof1 _ (@length string)).
  intros signers Hev. destruct rest as [|a [|url rest]]; simpl; [done|..].
  - destruct Hev as [k Hk]. simpl in Hk. lia.
  - destruct (DecodeString a); [|done]. case_bool_decide; [done|].
    apply IH; [unfold ltof; simpl; lia|].
    destruct Hev as [k Hk]. simpl in Hk. exists (k - 1)%nat. lia.
Qed.

Lemma readSigners_Done rest : ∀ signers signers',
  readSigners rest signers = Done signers' →
  ∃ new, signers' = signers ++ new ∧
    Forall2 (λ s au, DecodeString au.1 = Some (Pubkey s) ∧
                     length (Pubkey s) = PublicKeySize ∧ Url s = au.2)
      new (pairs rest) ∧
    (2 * length new = length rest)%nat.
Proof.
  induction rest as [rest IH] using (induction_ltof1 _ (@length string)).
  intros signers signers' H. destruct rest as [|a [|url rest]]; simpl in H.
  - injection H as <-. exists []. by rewrite app_nil_r.
  - destruct (DecodeString a); [|done]. by case_bool_decide.
  - destruct (DecodeString a) as [pubkey|] eqn:Hd; [|done].
    case_bool_decide as Hl; [done|].
    apply IH in H as (new & -> & HF & Hlen); [|unfold ltof; simpl; lia].
    exists (mkBlockSigner pubkey url :: new).
    split; [by rewrite <- app_assoc|]. split.
    + simpl. constructor; [|done]. simpl. split; [done|].
      split; [|done]. by destruct (decide (length pubkey = PublicKeySize)).
    + simpl. lia.
Qed.

(** X17.  [configGenerator] never indexes its arguments out of range:
    the loop that reads [args[i]] and [args[i+1]] runs only when the number
    of arguments is odd.  When it builds a configuration from arguments
    [quorum pubkey url ...], the quorum is the parsed first argument and the
    signers are the (pubkey, url) pairs that follow, in order, each public
    key being the decoded argument and 32 bytes long; without arguments
    there are no signers and the quorum is 1 with [-k] and 0 without. *)
Theorem configGenerator_arguments (f : generatorFlags) (args : list string) :
  configGenerator f args ≠ OutOfRange ∧
  ∀ conf, configGenerator f args = Done conf →
    match args with
    | [] => Signers conf = [] ∧ Quorum conf = if decide (flagK f = "") then 0 else 1
    | arg0 :: rest =>
        (∃ q64, ParseUint32 arg0 = Some q64 ∧ Quorum conf = uint32 q64) ∧
        (length args = 2 * length (Signers conf) + 1)%nat ∧
        Forall2 (λ s au, DecodeString au.1 = Some (Pubkey s) ∧
                         length (Pubkey s) = PublicKeySize ∧ Url s = au.2)
          (Signers conf) (pairs rest)
    end.
Proof.
  unfold configGenerator.
  destruct (_ && _); [split; done|].
  destruct (xorb _ _); [split; done|].
  destruct args as [|arg0 rest].
  { split; [done|]. intros conf [= <-]. simpl. split; [done|].
    by destruct (decide (flagK f = "")); [rewrite bool_decide_eq_true_2
                                          |rewrite bool_decide_eq_false_2]. }
  case_bool_decide as Hodd; [split; done|].
  destruct (ParseUint32 arg0) as [q64|] eqn:Hq; [|split; done].
  change (drop 1 (arg0 :: rest)) with rest.
  assert (Nat.Even (length rest)) as Hev.
  { simpl in Hodd. destruct (decide (S (length rest) `mod` 2 = 1)%nat) as [H1|]; [|done].
    exists (S (length rest) / 2)%nat.
    pose proof (Nat.div_mod (S (length rest)) 2). lia. }
  pose proof (readSigners_even rest [] Hev) as Hno.
  destruct (readSigners rest []) as [signers|v|] eqn:Hr;
    [|split; done|by destruct Hno].
  split; [done|]. intros conf [= <-]. simpl.
  apply readSigners_Done in Hr as (new & -> & HF & Hlen).
  split; [eauto|]. split; [simpl; lia|done].
Qed.

(** X18.  A configuration built by [configGenerator] or by
    [configNongenerator] is consistent in its signing fields: the node is a
    signer exactly when a block public key is given, an HSM URL comes only
    with a public key, and an HSM URL and an HSM access token come only
    together.  [configNongenerator] was given at least two arguments, of
    which the second is the generator URL. *)
Theorem config_signing_fields :
  (∀ f args conf, configGenerator f args = Done conf →
     IsGenerator conf = true ∧
     (IsSigner conf = true ↔ BlockPub conf ≠ "") ∧
     (BlockHsmUrl conf ≠ "" → BlockPub conf ≠ "") ∧
     (BlockHsmUrl conf = "" ↔ BlockHsmAccessToken conf = "")) ∧
  (∀ f args conf, configNongenerator f args = Done conf →
     IsGenerator conf = false ∧
     (IsSigner conf = true ↔ BlockPub conf ≠ "") ∧
     (BlockHsmUrl conf ≠ "" → BlockPub conf ≠ "") ∧
     (BlockHsmUrl conf = "" ↔ BlockHsmAccessToken conf = "") ∧
     (2 ≤ length args)%nat ∧ args !! 1%nat = Some (GeneratorUrl conf) ∧
     ∃ arg0 id, args !! 0%nat = Some arg0 ∧ UnmarshalText arg0 = inr id ∧
                BlockchainId conf = Some id).
Proof.
  assert (∀ k u tk : string,
            bool_decide (k = "") && negb (bool_decide (u = "")) = false →
            xorb (bool_decide (u = "")) (bool_decide (tk = "")) = false →
            (negb (bool_decide (k = "")) = true ↔ k ≠ "") ∧
            (u ≠ "" → k ≠ "") ∧ (u = "" ↔ tk = "")) as Hflags.
  { intros k u tk H1 H2.
    repeat case_bool_decide; simpl in *; try done; repeat split; try done;
      intros; congruence. }
  split.
  - intros f args conf. unfold configGenerator.
    destruct (_ && _) eqn:H1; [done|].
    destruct (xorb _ _) eqn:H2; [done|].
    destruct (Hflags _ _ _ H1 H2) as (Ha & Hb & Hc).
    destruct args as [|arg0 rest]; [by intros [= <-]|].
    destruct (bool_decide (_ ≠ _)); [done|].
    destruct (ParseUint32 arg0); [|done].
    destruct (readSigners _ _); [|done..].
    by intros [= <-].
  - intros f args conf. unfold configNongenerator.
    case_bool_decide as Hlen; [done|].
    destruct (_ && _) eqn:H1; [done|].
    destruct (xorb _ _) eqn:H2; [done|].
    destruct (Hflags _ _ _ H1 H2) as (Ha & Hb & Hc).
    destruct args as [|arg0 [|arg1 rest]]; [done..|].
    destruct (UnmarshalText arg0) as [err|id] eqn:Hu; [done|].
    intros [= <-]. simpl. repeat split; try done; try lia; try apply Ha;
      try apply Hc. by exists arg0, id.
Qed.

End Commands.

(** Runs with a decimal parser for one-digit numbers and a decoder that
    accepts the empty string and the name [key]. *)
Definition parse1 (s : string) : option Z :=
  if decide (s = "1") then Some 1 else if decide (s = "2") then Some 2 else None.
Definition decode1 (s : string) : option (list byte) :=
  if decide (s = "key") then Some (replicate 32 x07)
  else if decide (s = "") then Some [] else None.

Example run_configGenerator :
  configGenerator parse1 decode1 (λ d, d) (mkGeneratorFlags 5 "pub" "" "")
    ["2"; "key"; "http://a"; "key"; "http://b"] =
  Done (mkConfig true 2
          [mkBlockSigner (replicate 32 x07) "http://a";
           mkBlockSigner (replicate 32 x07) "http://b"]
          5 true "pub" "" "" None "" "") ∧
  configGenerator parse1 decode1 (λ d, d) (mkGeneratorFlags 5 "pub" "" "")
    ["2"; "key"] = Fatal [generatorUsage] ∧
  configGenerator parse1 decode1 (λ d, d) (mkGeneratorFlags 5 "pub" "" "")
    ["2"; ""; "http://a"] = Fatal ["error:"; "bad ed25519 public key length"] ∧
  configGenerator parse1 decode1 (λ d, d) (mkGeneratorFlags 5 "" "u" "t")
    [] = Fatal ["error: flag -hsm-url has no effect without -k"] ∧
  configGenerator parse1 decode1 (λ d, d) (mkGeneratorFlags 5 "pub" "u" "")
    [] = Fatal ["error: flags -hsm-url and -hsm-token must be given together"] ∧
  configGenerator parse1 decode1 (λ d, d) (mkGeneratorFlags 5 "pub" "" "")
    [] = Done (mkConfig true 1 [] 5 true "pub" "" "" None "" "").
Proof. vm_compute. repeat split; reflexivity. Qed.

Lemma configGenerator_arguments_witness :
  (length ["2"; "key"; "http://a"] =
   2 * length [mkBlockSigner (replicate 32 x07) "http://a"] + 1)%nat.
Proof.
  exact (proj1 (proj2 (proj2 (configGenerator_arguments parse1 decode1 (λ d, d)
                         (mkGeneratorFlags 5 "pub" "" "")
                         ["2"; "key"; "http://a"]) _ eq_refl))).
Defined.

Lemma config_signing_fields_witness :
  IsSigner (mkConfig true 1 [] 5 true "pub" "" "" None "" "") = true ↔
  BlockPub (mkConfig true 1 [] 5 true "pub" "" "" None "" "") ≠ "".
Proof.
  exact (proj1 (proj2 (proj1 (config_signing_fields parse1 decode1 (λ d, d)
                                (λ _, inl "bad"))
                         (mkGeneratorFlags 5 "pub" "" "") [] _ eq_refl))).
Defined.

End corectl.
